(** * funcX high-throughput executor: the node Manager and the zmq pipes

    A shallow embedding of
    [funcx/executors/high_throughput/funcx_manager.py] (class [Manager]) and
    [funcx/executors/high_throughput/zmq_pipes.py] (class [TasksOutgoing]),
    followed by the properties of the dispatch loop, the result pusher and
    the outgoing task pipe.

    Conventions.
    - Python [int] is [Z]; [bytes] is [list byte]; [str] is [string];
      a [dict] is a [gmap]; a [queue.Queue] is the list of its items, oldest
      first ([put] appends at the tail, [get] removes the head).
    - In the dispatch loop, whose periods are whole seconds, [time.time()]
      returns an exact rational number of seconds ([Q]).  In the result
      pusher, whose period is a fraction of a second, times are Python's
      [float], the binary64 numbers with their rounding ([PrimFloat]).
    - A Python statement is a computation [M S A]: it takes the state, and
      returns the state it leaves behind together with either a value or the
      exception it raised.  Mutations made before a [raise] persist.
    - What a socket sent is recorded, in order, in the [trace] of the
      Manager. *)

From Stdlib.Floats Require Import PrimFloat.
From Stdlib.Floats Require SpecFloat FloatOps.
From Stdlib Require Import ZArith List String Ascii QArith Lia Lqa Bool.
From Stdlib.Strings Require Import Byte.
From Stdlib Require Import DecimalString.
From stdpp Require Import base option gmap strings list.

Open Scope Z_scope.

(** A decimal float literal stands for the nearest binary64 number, as in
    Python. *)
#[local] Set Warnings "-inexact-float".

(** ** Exceptions and the state-and-exception monad *)

Inductive exn :=
  | KeyError | IndexError | TypeError | ValueError | OverflowError
  | UnpicklingError | ZmqAgain.

Inductive result (A : Type) :=
  | Ok (a : A)
  | Raise (e : exn).
Arguments Ok {A} a.
Arguments Raise {A} e.

Definition M (S A : Type) : Type := S -> result A * S.

Definition ret {S A} (a : A) : M S A := fun s => (Ok a, s).
Definition raise {S A} (e : exn) : M S A := fun s => (Raise e, s).
Definition bind {S A B} (m : M S A) (k : A -> M S B) : M S B :=
  fun s => match m s with
           | (Ok a, s') => k a s'
           | (Raise e, s') => (Raise e, s')
           end.
Definition gets {S A} (f : S -> A) : M S A := fun s => (Ok (f s), s).
Definition modify {S} (f : S -> S) : M S unit := fun s => (Ok tt, f s).
Definition lift {S A} (r : result A) : M S A := fun s => (r, s).

(** [try: m except Exception: pass] *)
Definition try_except {S} (m : M S unit) : M S unit :=
  fun s => match m s with
           | (Ok _, s') => (Ok tt, s')
           | (Raise _, s') => (Ok tt, s')
           end.

(** Run a computation on a component of the state. *)
Definition zoom {S T A} (get : S -> T) (set : T -> S -> S) (m : M T A) : M S A :=
  fun s => match m (get s) with (r, t') => (r, set t' s) end.

Notation "'do' x <- m ; k" := (bind m (fun x => k))
  (at level 10, x name, m at level 100, k at level 200).
Notation "m ;; k" := (bind m (fun _ => k))
  (at level 100, k at level 200, right associativity).

(** [for x in xs: body x] *)
Fixpoint for_each {S A} (xs : list A) (body : A -> M S unit) : M S unit :=
  match xs with
  | [] => ret tt
  | x :: xs' => body x ;; for_each xs' body
  end.

(** [for i in range(n): body] *)
Fixpoint repeat_n {S} (n : nat) (body : M S unit) : M S unit :=
  match n with
  | O => ret tt
  | S n' => body ;; repeat_n n' body
  end.

(** ** Bytes, [int.to_bytes] and [str.split] *)

Abbreviation bytes := (list byte).

Definition byte_of_Z (z : Z) : byte :=
  match Byte.of_N (Z.to_N z) with
  | Some b => b
  | None => Byte.x00
  end.

Fixpoint le_digits (len : nat) (n : Z) : bytes :=
  match len with
  | O => []
  | S len' => byte_of_Z (n mod 256) :: le_digits len' (n / 256)
  end.

(** [n.to_bytes(len, "little")]: unsigned, raises [OverflowError] for a
    negative [n] or one that does not fit. *)
Definition to_bytes_little (len : nat) (n : Z) : result bytes :=
  if (n <? 0) || (2 ^ (8 * Z.of_nat len) <=? n)
  then Raise OverflowError
  else Ok (le_digits len n).

(** [s.split(sep)] for a one-character separator. *)
Fixpoint split (sep : ascii) (s : string) : list string :=
  match s with
  | EmptyString => [EmptyString]
  | String c s' =>
      if Ascii.eqb c sep then EmptyString :: split sep s'
      else match split sep s' with
           | [] => [String c EmptyString]
           | f :: fs => String c f :: fs
           end
  end.

(** The part of [s] after the first occurrence of [sep], if there is one. *)
Fixpoint after_first (sep : ascii) (s : string) : option string :=
  match s with
  | EmptyString => None
  | String c s' => if Ascii.eqb c sep then Some s' else after_first sep s'
  end.

(** The part of [s] before the first occurrence of [sep] (all of [s] when
    there is none). *)
Fixpoint before_first (sep : ascii) (s : string) : string :=
  match s with
  | EmptyString => EmptyString
  | String c s' => if Ascii.eqb c sep then EmptyString
                   else String c (before_first sep s')
  end.

#[global] Instance byte_eqdec : EqDecision byte.
Proof.
  intros a b. destruct (Byte.eqb a b) eqn:E.
  - left. apply Byte.byte_dec_bl. exact E.
  - right. apply Byte.eqb_false. exact E.
Defined.

#[global] Instance byte_countable : Countable byte.
Proof.
  refine (inj_countable Byte.to_N Byte.of_N _).
  intros b. apply Byte.of_to_N.
Defined.

(** ** Tasks and messages *)

(** The value under ["task_id"]: a [str] for a task of the Interchange, a
    [bytes] object for the KILL sentinel. *)
Inductive task_id_t :=
  | IdStr (s : string)
  | IdBytes (b : bytes).

(** A task: the dict [{"task_id": ..., "buffer": ...}]. *)
Record Task := { task_id : task_id_t; buffer : bytes }.

#[global] Instance task_id_eq_dec : EqDecision task_id_t.
Proof. solve_decision. Defined.
#[global] Instance Task_eq_dec : EqDecision Task.
Proof. solve_decision. Defined.

(** What [pickle.loads] can yield on the Manager's sockets. *)
Inductive pyobj :=
  | PyStr (s : string)
  | PyInt (n : Z)
  | PyTasks (ts : list Task)
  | PyDict (d : gmap string string).

#[global] Instance pyobj_eq_dec : EqDecision pyobj.
Proof. solve_decision. Defined.

Definition RESULT_TAG : Z := 10.
Definition TASK_REQUEST_TAG : Z := 11.
Definition HEARTBEAT_CODE : Z := 2 ^ 32 - 1.

(** [b'KILL'], [b'REGISTER'], [b'TASK_RET'], [b'WRKR_DIE'] *)
Definition b_KILL : bytes := list_byte_of_string "KILL".
Definition b_REGISTER : bytes := list_byte_of_string "REGISTER".
Definition b_TASK_RET : bytes := list_byte_of_string "TASK_RET".
Definition b_WRKR_DIE : bytes := list_byte_of_string "WRKR_DIE".

(** [task['task_id'].split(';')[1]] *)
Definition task_type_of (task : Task) : result string :=
  match task_id task with
  | IdStr s =>
      match split ";" s !! 1%nat with
      | Some ty => Ok ty
      | None => Raise IndexError
      end
  | IdBytes _ => Raise TypeError
  end.

(** ** The state of the Manager *)

(** The fields of [WorkerMap] that the Manager reads or writes.  The class
    itself ([worker_map.py]) is not part of the modelled sources: its methods
    are parameters of the model (section [ManagerModel]). *)
Record WorkerMap := {
  pending_workers : Z;
  active_workers : Z;
  worker_counter : Z;
  to_die_count : gmap string Z;
  total_worker_type_counts : gmap string Z;
  ready_worker_type_counts : gmap string Z;
  worker_queues : gmap string (list bytes);
  worker_types : gmap bytes string
}.

Definition set_pending_workers (v : Z) (w : WorkerMap) : WorkerMap :=
  {| pending_workers := v; active_workers := active_workers w;
     worker_counter := worker_counter w; to_die_count := to_die_count w;
     total_worker_type_counts := total_worker_type_counts w;
     ready_worker_type_counts := ready_worker_type_counts w;
     worker_queues := worker_queues w; worker_types := worker_types w |}.
Definition set_active_workers (v : Z) (w : WorkerMap) : WorkerMap :=
  {| pending_workers := pending_workers w; active_workers := v;
     worker_counter := worker_counter w; to_die_count := to_die_count w;
     total_worker_type_counts := total_worker_type_counts w;
     ready_worker_type_counts := ready_worker_type_counts w;
     worker_queues := worker_queues w; worker_types := worker_types w |}.
Definition set_worker_counter (v : Z) (w : WorkerMap) : WorkerMap :=
  {| pending_workers := pending_workers w; active_workers := active_workers w;
     worker_counter := v; to_die_count := to_die_count w;
     total_worker_type_counts := total_worker_type_counts w;
     ready_worker_type_counts := ready_worker_type_counts w;
     worker_queues := worker_queues w; worker_types := worker_types w |}.
Definition set_to_die_count (v : gmap string Z) (w : WorkerMap) : WorkerMap :=
  {| pending_workers := pending_workers w; active_workers := active_workers w;
     worker_counter := worker_counter w; to_die_count := v;
     total_worker_type_counts := total_worker_type_counts w;
     ready_worker_type_counts := ready_worker_type_counts w;
     worker_queues := worker_queues w; worker_types := worker_types w |}.
Definition set_total_worker_type_counts (v : gmap string Z) (w : WorkerMap)
  : WorkerMap :=
  {| pending_workers := pending_workers w; active_workers := active_workers w;
     worker_counter := worker_counter w; to_die_count := to_die_count w;
     total_worker_type_counts := v;
     ready_worker_type_counts := ready_worker_type_counts w;
     worker_queues := worker_queues w; worker_types := worker_types w |}.

Definition set_ready_worker_type_counts (v : gmap string Z) (w : WorkerMap)
  : WorkerMap :=
  {| pending_workers := pending_workers w; active_workers := active_workers w;
     worker_counter := worker_counter w; to_die_count := to_die_count w;
     total_worker_type_counts := total_worker_type_counts w;
     ready_worker_type_counts := v;
     worker_queues := worker_queues w; worker_types := worker_types w |}.
Definition set_worker_queues (v : gmap string (list bytes)) (w : WorkerMap)
  : WorkerMap :=
  {| pending_workers := pending_workers w; active_workers := active_workers w;
     worker_counter := worker_counter w; to_die_count := to_die_count w;
     total_worker_type_counts := total_worker_type_counts w;
     ready_worker_type_counts := ready_worker_type_counts w;
     worker_queues := v; worker_types := worker_types w |}.
Definition set_worker_types (v : gmap bytes string) (w : WorkerMap) : WorkerMap :=
  {| pending_workers := pending_workers w; active_workers := active_workers w;
     worker_counter := worker_counter w; to_die_count := to_die_count w;
     total_worker_type_counts := total_worker_type_counts w;
     ready_worker_type_counts := ready_worker_type_counts w;
     worker_queues := worker_queues w; worker_types := v |}.

(** The arguments of [Manager.__init__] that the loops read later. *)
Record Config := {
  max_queue_size : Z;
  worker_count : Z;
  heartbeat_period : Z;
  heartbeat_threshold : Z;
  poll_period : Z
}.

(** What the Manager did on its sockets and task queues, oldest first. *)
Inductive event :=
  | TaskIncomingSend (frame : bytes)
      (** [self.task_incoming.send(frame)] *)
  | Dispatch (task_type : string) (worker_id : bytes) (task : Task)
      (** [self.funcx_task_socket.send_multipart(to_send)] for a [task] taken
          from [self.task_queues[task_type]] *)
  | TaskQueuePut (task_type : string) (task : Task)
      (** [self.task_queues[task_type].put(task)] *).

Record Manager := {
  config : Config;
  worker_map : WorkerMap;
  task_queues : gmap string (list Task);
  pending_result_queue : list bytes;
  next_worker_q : list string;
  kill_event : bool;
  trace : list event
}.

Definition set_worker_map (v : WorkerMap) (m : Manager) : Manager :=
  {| config := config m; worker_map := v; task_queues := task_queues m;
     pending_result_queue := pending_result_queue m;
     next_worker_q := next_worker_q m; kill_event := kill_event m;
     trace := trace m |}.
Definition set_task_queues (v : gmap string (list Task)) (m : Manager) : Manager :=
  {| config := config m; worker_map := worker_map m; task_queues := v;
     pending_result_queue := pending_result_queue m;
     next_worker_q := next_worker_q m; kill_event := kill_event m;
     trace := trace m |}.
Definition set_pending_result_queue (v : list bytes) (m : Manager) : Manager :=
  {| config := config m; worker_map := worker_map m;
     task_queues := task_queues m; pending_result_queue := v;
     next_worker_q := next_worker_q m; kill_event := kill_event m;
     trace := trace m |}.
Definition set_next_worker_q (v : list string) (m : Manager) : Manager :=
  {| config := config m; worker_map := worker_map m;
     task_queues := task_queues m;
     pending_result_queue := pending_result_queue m;
     next_worker_q := v; kill_event := kill_event m; trace := trace m |}.
Definition set_kill_event (v : bool) (m : Manager) : Manager :=
  {| config := config m; worker_map := worker_map m;
     task_queues := task_queues m;
     pending_result_queue := pending_result_queue m;
     next_worker_q := next_worker_q m; kill_event := v; trace := trace m |}.
Definition set_trace (v : list event) (m : Manager) : Manager :=
  {| config := config m; worker_map := worker_map m;
     task_queues := task_queues m;
     pending_result_queue := pending_result_queue m;
     next_worker_q := next_worker_q m; kill_event := kill_event m;
     trace := v |}.

(** The local variables of [pull_tasks]. *)
Record Locals := {
  last_beat : Q;
  last_interchange_contact : Q;
  task_recv_counter : Z;
  task_done_counter : Z;
  poll_timer : Z;
  new_worker_map : option (gmap string Z)
}.

Definition set_last_beat (v : Q) (l : Locals) : Locals :=
  {| last_beat := v; last_interchange_contact := last_interchange_contact l;
     task_recv_counter := task_recv_counter l;
     task_done_counter := task_done_counter l; poll_timer := poll_timer l;
     new_worker_map := new_worker_map l |}.
Definition set_last_interchange_contact (v : Q) (l : Locals) : Locals :=
  {| last_beat := last_beat l; last_interchange_contact := v;
     task_recv_counter := task_recv_counter l;
     task_done_counter := task_done_counter l; poll_timer := poll_timer l;
     new_worker_map := new_worker_map l |}.
Definition set_task_recv_counter (v : Z) (l : Locals) : Locals :=
  {| last_beat := last_beat l;
     last_interchange_contact := last_interchange_contact l;
     task_recv_counter := v; task_done_counter := task_done_counter l;
     poll_timer := poll_timer l; new_worker_map := new_worker_map l |}.
Definition set_task_done_counter (v : Z) (l : Locals) : Locals :=
  {| last_beat := last_beat l;
     last_interchange_contact := last_interchange_contact l;
     task_recv_counter := task_recv_counter l; task_done_counter := v;
     poll_timer := poll_timer l; new_worker_map := new_worker_map l |}.
Definition set_poll_timer (v : Z) (l : Locals) : Locals :=
  {| last_beat := last_beat l;
     last_interchange_contact := last_interchange_contact l;
     task_recv_counter := task_recv_counter l;
     task_done_counter := task_done_counter l; poll_timer := v;
     new_worker_map := new_worker_map l |}.
Definition set_new_worker_map (v : option (gmap string Z)) (l : Locals) : Locals :=
  {| last_beat := last_beat l;
     last_interchange_contact := last_interchange_contact l;
     task_recv_counter := task_recv_counter l;
     task_done_counter := task_done_counter l; poll_timer := poll_timer l;
     new_worker_map := v |}.

(** The Manager object together with the locals of its dispatch loop. *)
Record St := { self : Manager; loc : Locals }.

Definition set_self (v : Manager) (s : St) : St := {| self := v; loc := loc s |}.
Definition set_loc (v : Locals) (s : St) : St := {| self := self s; loc := v |}.

Definition on_self {A} (m : M Manager A) : M St A := zoom self set_self m.
Definition on_worker_map {A} (m : M WorkerMap A) : M Manager A :=
  zoom worker_map set_worker_map m.
Definition upd_loc (f : Locals -> Locals) : M St unit :=
  modify (fun s => set_loc (f (loc s)) s).

(** [x > y] on times *)
Definition Qgtb (x y : Q) : bool := negb (Qle_bool x y).

(** [d[k]] *)
Definition subscript {V} (d : gmap string V) (k : string) : result V :=
  match d !! k with
  | Some v => Ok v
  | None => Raise KeyError
  end.

Inductive loop_ctl := Continue | Break.

(** [str(n)] for an [int] *)
Definition py_str (n : Z) : string := NilZero.string_of_int (Z.to_int n).

(** ** [Manager]: the dispatch loop *)

Section ManagerModel.

(** [pickle.dumps] on a task id and [pickle.loads] on a received payload. *)
Variable pickle_dumps : task_id_t -> bytes.
Variable pickle_loads : bytes -> result pyobj.

(** The methods of [WorkerMap] and the scheduler of [container_sched],
    which the Manager calls and whose sources are elsewhere.  A method acts
    on the worker map only; the scheduler is a function of its arguments. *)
Variable WorkerMap_init : Z -> WorkerMap.
Variable add_worker : string -> string -> M WorkerMap unit.
Variable ready_worker_count : M WorkerMap Z.
Variable register_worker : bytes -> string -> M WorkerMap unit.
Variable put_worker : bytes -> M WorkerMap unit.
Variable remove_worker : bytes -> M WorkerMap unit.
Variable spin_up_workers : list string -> M WorkerMap (Z * list string).
Variable spin_down_workers : gmap string Z -> M WorkerMap (list string).
Variable get_next_worker_q : gmap string Z -> M WorkerMap (list string).
Variable get_worker_counts : M WorkerMap (list (string * Z)).
Variable get_worker : string -> M WorkerMap bytes.
Variable naive_scheduler :
  gmap string (list Task) -> Z -> option (gmap string Z) -> gmap string Z ->
  result (option (gmap string Z)).

(** [Manager.__init__]: [worker_count] is what the constructor computes
    from the node, [max_queue_size_arg] is its [max_queue_size] argument. *)
Definition Manager_init (max_queue_size_arg worker_count_ heartbeat_threshold_
                         heartbeat_period_ poll_period_ : Z) : Manager :=
  {| config := {| max_queue_size := max_queue_size_arg + worker_count_;
                  worker_count := worker_count_;
                  heartbeat_period := heartbeat_period_;
                  heartbeat_threshold := heartbeat_threshold_;
                  poll_period := poll_period_ |};
     worker_map := WorkerMap_init worker_count_;
     task_queues := {[ "RAW"%string := [] ]};
     pending_result_queue := [];
     next_worker_q := [];
     kill_event := false;
     trace := [] |}.

Definition record_event (e : event) : M Manager unit :=
  modify (fun m => set_trace (trace m ++ [e]) m).

(** [self.task_incoming.send(frame)] *)
Definition task_incoming_send (frame : bytes) : M Manager unit :=
  record_event (TaskIncomingSend frame).

(** [Manager.heartbeat] *)
Definition heartbeat : M Manager unit :=
  do hb <- lift (to_bytes_little 4 HEARTBEAT_CODE);
  task_incoming_send hb.

(** [self.task_queues[task_type].put(task)] *)
Definition task_queue_put (task_type : string) (task : Task) : M Manager unit :=
  do q <- (fun m => (subscript (task_queues m) task_type, m));
  modify (fun m => set_task_queues (<[task_type := q ++ [task]]> (task_queues m)) m);;
  record_event (TaskQueuePut task_type task).

(** The KILL sentinel: [{"task_id": pickle.dumps(b"KILL"), "buffer": b'KILL'}] *)
Definition kill_task : Task :=
  {| task_id := IdBytes (pickle_dumps (IdBytes b_KILL)); buffer := b_KILL |}.

(** [Manager.remove_worker_init] *)
Definition remove_worker_init (worker_type : string) : M Manager unit :=
  do n <- (fun m => (subscript (to_die_count (worker_map m)) worker_type, m));
  modify (fun m => set_worker_map
                     (set_to_die_count
                        (<[worker_type := n + 1]> (to_die_count (worker_map m)))
                        (worker_map m)) m);;
  task_queue_put worker_type kill_task.

(** Lines 237-239 of [pull_tasks]: the heartbeat to the Interchange.
    [now] is the clock at the test, [now'] the clock after the send. *)
Definition heartbeat_check (now now' : Q) : M St unit :=
  do last <- gets (fun s => last_beat (loc s));
  do period <- gets (fun s => heartbeat_period (config (self s)));
  if Qgtb now (last + inject_Z period)
  then on_self heartbeat;; upd_loc (set_last_beat now')
  else ret tt.

(** Lines 241-244: the request for tasks. *)
Definition request_tasks (pending_task_count ready_worker_count_ : Z)
  : M St unit :=
  do mqs <- gets (fun s => max_queue_size (config (self s)));
  if (pending_task_count <? mqs) && (0 <? ready_worker_count_)
  then do msg <- lift (to_bytes_little 4 ready_worker_count_);
       on_self (task_incoming_send msg)
  else ret tt.

(** [reg_info['worker_type']] *)
Definition reg_info_worker_type (reg_info : pyobj) : result string :=
  match reg_info with
  | PyDict d => subscript d "worker_type"
  | _ => Raise TypeError
  end.

(** Lines 248-274: a message of a worker, [frames] being what
    [recv_multipart] returns. *)
Definition handle_worker_message (frames : list bytes) : M St unit :=
  try_except
    match frames with
    | [w_id; m_type; message] =>
        if decide (m_type = b_REGISTER) then
          do reg_info <- lift (pickle_loads message);
          on_self (on_worker_map
            (modify (fun w => set_pending_workers (pending_workers w - 1) w)));;
          on_self (on_worker_map
            (modify (fun w => set_active_workers (active_workers w + 1) w)));;
          do worker_type <- lift (reg_info_worker_type reg_info);
          on_self (on_worker_map (register_worker w_id worker_type))
        else if decide (m_type = b_TASK_RET) then
          on_self (modify (fun m =>
            set_pending_result_queue (pending_result_queue m ++ [message]) m));;
          on_self (on_worker_map (put_worker w_id));;
          upd_loc (fun l => set_task_done_counter (task_done_counter l + 1) l)
        else if decide (m_type = b_WRKR_DIE) then
          on_self (on_worker_map (remove_worker w_id))
        else ret tt
    | _ => raise ValueError
    end.

(** Lines 278-283 *)
Definition spin_up : M St Z :=
  do q <- gets (fun s => next_worker_q (self s));
  do r <- on_self (on_worker_map (spin_up_workers q));
  on_self (modify (set_next_worker_q (snd r)));;
  ret (fst r).

(** Lines 306-316: the body of [for task in tasks]. *)
Definition route_task (task : Task) : M Manager unit :=
  do task_type <- lift (task_type_of task);
  do known <- gets (fun m => bool_decide (is_Some (task_queues m !! task_type)));
  (if (known : bool) then ret tt
   else
     modify (fun m => set_task_queues (<[task_type := []]> (task_queues m)) m);;
     on_worker_map (modify (fun w =>
       set_total_worker_type_counts
         (<[task_type := 0]> (total_worker_type_counts w)) w)));;
  task_queue_put task_type task.

(** [len(tasks)] *)
Definition py_len (o : pyobj) : result Z :=
  match o with
  | PyStr s => Ok (Z.of_nat (String.length s))
  | PyInt _ => Raise TypeError
  | PyTasks ts => Ok (Z.of_nat (length ts))
  | PyDict d => Ok (Z.of_nat (size d))
  end.

(** [for task in tasks: ...]: the items of a [str] or the keys of a [dict]
    are strings, on which [task['task_id']] raises. *)
Definition route_tasks (o : pyobj) : M Manager unit :=
  match o with
  | PyTasks ts => for_each ts route_task
  | PyStr s => if decide (s = ""%string) then ret tt else raise TypeError
  | PyDict d => if decide (d = ∅) then ret tt else raise TypeError
  | PyInt _ => raise TypeError
  end.

(** Lines 288-316: a message of the Interchange, [frames] being what
    [recv_multipart] returns and [now] the clock of line 291. *)
Definition handle_task_incoming (frames : list bytes) (now : Q) : M St loop_ctl :=
  upd_loc (set_poll_timer 0);;
  match frames with
  | [_; pkl_msg] =>
      do tasks <- lift (pickle_loads pkl_msg);
      upd_loc (set_last_interchange_contact now);;
      if decide (tasks = PyStr "STOP") then
        on_self (modify (set_kill_event true));;
        ret Break
      else if decide (tasks = PyInt HEARTBEAT_CODE) then ret Continue
      else
        do n <- lift (py_len tasks);
        upd_loc (fun l => set_task_recv_counter (task_recv_counter l + n) l);;
        on_self (route_tasks tasks);;
        ret Continue
  | _ => raise ValueError
  end.

(** Lines 318-331: nothing came from the Interchange; [now] is the clock
    of line 327. *)
Definition no_incoming_tasks (now : Q) : M St loop_ctl :=
  do timer <- gets (fun s => poll_timer (loc s));
  do period <- gets (fun s => poll_period (config (self s)));
  (if timer =? 0 then upd_loc (set_poll_timer period) else ret tt);;
  do timer <- gets (fun s => poll_timer (loc s));
  do hb <- gets (fun s => heartbeat_period (config (self s)));
  upd_loc (set_poll_timer (Z.min (hb * 1000) (timer * 2)));;
  do contact <- gets (fun s => last_interchange_contact (loc s));
  do threshold <- gets (fun s => heartbeat_threshold (config (self s)));
  if Qgtb now (contact + inject_Z threshold)
  then on_self (modify (set_kill_event true));; ret Break
  else ret Continue.

(** Lines 337-349: the scheduler and the removal of workers. *)
Definition schedule : M St unit :=
  do plan <- (fun s =>
    (naive_scheduler (task_queues (self s)) (worker_count (config (self s)))
       (new_worker_map (loc s)) (to_die_count (worker_map (self s))), s));
  upd_loc (set_new_worker_map plan);;
  match plan with
  | Some new_map =>
      do spin_downs <- on_self (on_worker_map (spin_down_workers new_map));
      for_each spin_downs (fun w_type => on_self (remove_worker_init w_type));;
      do q <- on_self (on_worker_map (get_next_worker_q new_map));
      on_self (modify (set_next_worker_q q))
  | None => ret tt
  end.

(** [to_send = [worker_id, pickle.dumps(task['task_id']), task['buffer']]] *)
Definition to_send (worker_id : bytes) (task : Task) : list bytes :=
  [worker_id; pickle_dumps (task_id task); buffer task].

(** Lines 363-377: the body of [for i in range(available_workers)]. *)
Definition match_task (task_type : string) : M Manager unit :=
  do queues <- gets task_queues;
  match queues !! task_type with
  | Some (task :: rest) =>
      do workers <- (fun m => (subscript (worker_queues (worker_map m)) task_type, m));
      match workers with
      | [] => ret tt
      | _ :: _ =>
          modify (set_task_queues (<[task_type := rest]> queues));;
          do worker_id <- on_worker_map (get_worker task_type);
          record_event (Dispatch task_type worker_id task)
      end
  | _ => ret tt
  end.

(** Lines 351-377: tasks are matched to workers. *)
Definition match_tasks : M Manager unit :=
  do current_worker_map <- on_worker_map get_worker_counts;
  for_each current_worker_map (fun entry =>
    if decide (fst entry = "slots"%string) then ret tt
    else repeat_n (Z.to_nat (snd entry)) (match_task (fst entry))).

(** What one turn of the loop reads from the outside: the clock at each
    [time.time()], and for each socket the message [recv_multipart] returns
    when [poll] reports the socket readable. *)
Record Tick := {
  now_beat_check : Q;
  now_beat_sent : Q;
  funcx_task_socket_in : option (list bytes);
  task_incoming_in : option (list bytes);
  now_contact : Q;
  now_silence_check : Q
}.

(** Lines 246-377: the messages of the workers and of the Interchange,
    the scheduler, the matching of tasks to workers. *)
Definition receive_and_dispatch (tk : Tick) : M St loop_ctl :=
  match funcx_task_socket_in tk with
  | Some frames => handle_worker_message frames
  | None => ret tt
  end;;
  do _ <- spin_up;
  do ctl <- match task_incoming_in tk with
            | Some frames => handle_task_incoming frames (now_contact tk)
            | None => no_incoming_tasks (now_silence_check tk)
            end;
  match ctl with
  | Break => ret Break
  | Continue =>
      schedule;;
      on_self match_tasks;;
      ret Continue
  end.

(** Lines 231-377: one turn of [while not kill_event.is_set()]. *)
Definition pull_tasks_body (tk : Tick) : M St loop_ctl :=
  do pending_task_count <-
    gets (fun s => task_recv_counter (loc s) - task_done_counter (loc s));
  do ready <- on_self (on_worker_map ready_worker_count);
  heartbeat_check (now_beat_check tk) (now_beat_sent tk);;
  request_tasks pending_task_count ready;;
  receive_and_dispatch tk.

(** The loop, for as many turns as there are inputs. *)
Fixpoint pull_tasks_loop (ticks : list Tick) : M St unit :=
  match ticks with
  | [] => ret tt
  | tk :: ticks' =>
      do killed <- gets (fun s => kill_event (self s));
      if (killed : bool) then ret tt
      else do ctl <- pull_tasks_body tk;
           match ctl with
           | Break => ret tt
           | Continue => pull_tasks_loop ticks'
           end
  end.

(** [Manager.pull_tasks]: [reg_msg] is the registration message,
    [t0] and [t1] the clock of lines 221 and 222. *)
Definition pull_tasks (reg_msg : bytes) (t0 t1 : Q) (ticks : list Tick)
  : M Manager unit :=
  task_incoming_send reg_msg;;
  fun m =>
    let poll_period_ := poll_period (config m) in
    let s := {| self := m;
                loc := {| last_beat := t0; last_interchange_contact := t1;
                          task_recv_counter := 0; task_done_counter := 0;
                          poll_timer := poll_period_;
                          new_worker_map := None |} |} in
    match pull_tasks_loop ticks s with
    | (r, s') => (r, self s')
    end.

(** [Manager.start]; [self._kill_event] is a new event, not set.  The
    result pusher it starts runs beside the loop and is modelled in
    [ResultPusher]. *)
Definition start (reg_msg : bytes) (t0 t1 : Q) (ticks : list Tick)
  : M Manager unit :=
  modify (set_task_queues {[ "RAW"%string := [] ]});;
  do counter <- gets (fun m => worker_counter (worker_map m));
  on_worker_map (add_worker (py_str counter) "RAW");;
  on_worker_map (modify (fun w => set_worker_counter (worker_counter w + 1) w));;
  on_worker_map (modify (fun w => set_pending_workers (pending_workers w + 1) w));;
  modify (set_kill_event false);;
  pull_tasks reg_msg t0 t1 ticks.

(** The Manager after [__init__] and [start], the loop having run on
    [ticks]. *)
Definition started (max_queue_size_arg worker_count_ heartbeat_threshold_
                    heartbeat_period_ poll_period_ : Z)
           (reg_msg : bytes) (t0 t1 : Q) (ticks : list Tick) : Manager :=
  snd (start reg_msg t0 t1 ticks
         (Manager_init max_queue_size_arg worker_count_
            heartbeat_threshold_ heartbeat_period_ poll_period_)).

End ManagerModel.

(** ** [Manager.push_results]: the result pusher *)

Module ResultPusher.

(** Python's [a / b] on two positive [int]s: the float nearest to the
    quotient (the division is made on the integers, and rounded once).
    Beyond the largest float Python raises [OverflowError]; the value is
    [infinity] here. *)
Definition int_truediv (a b : positive) : float :=
  FloatOps.SF2Prim
    (SpecFloat.SFdiv FloatOps.prec FloatOps.emax
       (SpecFloat.S754_finite false a 0) (SpecFloat.S754_finite false b 0)).

(** What the pusher did, oldest first. *)
Inductive event :=
  | PendingResultGet (timeout : float)
      (** [self.pending_result_queue.get(block=True, timeout=timeout)] *)
  | ResultOutgoingSend (items : list bytes)
      (** [self.result_outgoing.send_multipart(items)] *).

(** The locals of [push_results]. *)
Record Locals := {
  last_beat : float;
  items : list bytes;
  trace : list event
}.

(** What one turn reads from the outside: the outcome of the [get] (an
    item, or the exception raised, [queue.Empty] included), and the clock
    of lines 406 and 407. *)
Record Tick := {
  got : option bytes;
  now_check : float;
  now_beat : float
}.

(** Line 390: [max(10, self.poll_period) / 1000], in seconds. *)
Definition push_poll_period (c : Config) : float :=
  int_truediv (Z.to_pos (Z.max 10 (poll_period c))) 1000.

(** What the [get] of a turn adds to [items]. *)
Definition received (tk : Tick) : list bytes :=
  match got tk with
  | Some r => [r]
  | None => []
  end.

(** Lines 397-410: one turn of [while not kill_event.is_set()].  The test
    [time.time() > last_beat + push_poll_period] is made on floats: the
    sum is rounded, then compared. *)
Definition push_results_body (c : Config) (tk : Tick) (l : Locals) : Locals :=
  let tr := trace l ++ [PendingResultGet (push_poll_period c)] in
  let items_ := items l ++ received tk in
  if (max_queue_size c <=? Z.of_nat (length items_))
     || PrimFloat.ltb (PrimFloat.add (last_beat l) (push_poll_period c))
                      (now_check tk)
  then
    match items_ with
    | [] => {| last_beat := now_beat tk; items := []; trace := tr |}
    | _ :: _ => {| last_beat := now_beat tk; items := [];
                   trace := tr ++ [ResultOutgoingSend items_] |}
    end
  else {| last_beat := last_beat l; items := items_; trace := tr |}.

(** [push_results], for as many turns as there are inputs; [t0] is the
    clock of line 393. *)
Definition push_results (c : Config) (t0 : float) (ticks : list Tick) : Locals :=
  fold_left (fun l tk => push_results_body c tk l) ticks
            {| last_beat := t0; items := []; trace := [] |}.

(** The messages sent on [result_outgoing]. *)
Definition sends (tr : list event) : list (list bytes) :=
  omap (fun e => match e with
                 | ResultOutgoingSend its => Some its
                 | PendingResultGet _ => None
                 end) tr.

End ResultPusher.

(** ** [TasksOutgoing.put] *)

Module TasksOutgoing.

Section Put.
(** The type of the Python objects that are put. *)
Variable A : Type.

Inductive event :=
  | Poll (timeout : Z)          (** [self.poller.poll(timeout=timeout)] *)
  | SendPyobj (message : A)     (** [self.zmq_socket.send_pyobj(message, copy=True)] *).

(** The [while] loop of [put].  [writable k] tells whether the [k]-th
    call of [poll] reports the socket writable; [polled] counts the calls
    made so far.  [None]: the turns allowed by [fuel] are used up. *)
Fixpoint put_loop (fuel : nat) (writable : nat -> bool) (message : A)
         (max_timeout timeout_ms current_wait : Z) (polled : nat)
         (tr : list event) : option (result unit * list event) :=
  if current_wait <? max_timeout then
    match fuel with
    | O => None
    | S fuel' =>
        let tr' := tr ++ [Poll timeout_ms] in
        if writable polled
        then Some (Ok tt, tr' ++ [SendPyobj message])
        else
          let timeout_ms' := timeout_ms + 1 in
          put_loop fuel' writable message max_timeout timeout_ms'
                   (current_wait + timeout_ms') (S polled) tr'
    end
  else Some (Raise ZmqAgain, tr).

(** [TasksOutgoing.put(message, max_timeout)] *)
Definition put (writable : nat -> bool) (message : A) (max_timeout : Z)
  : option (result unit * list event) :=
  put_loop (Z.to_nat max_timeout) writable message max_timeout 0 0 0 [].

(** The messages sent, the number of polls, the time given to them. *)
Definition sends (tr : list event) : list A :=
  omap (fun e => match e with SendPyobj m => Some m | Poll _ => None end) tr.
Definition polls (tr : list event) : list Z :=
  omap (fun e => match e with Poll t => Some t | SendPyobj _ => None end) tr.
Definition waited (tr : list event) : Z := foldr Z.add 0 (polls tr).

End Put.

Arguments Poll {A} timeout.
Arguments SendPyobj {A} message.
Arguments put_loop {A}.
Arguments put {A}.
Arguments sends {A}.
Arguments polls {A}.
Arguments waited {A}.

End TasksOutgoing.

(** ** The order of dispatch *)

(** The tasks put on the queue of type [t], and those taken from it and sent
    to a worker, oldest first; the frames sent to the Interchange. *)
Definition puts (t : string) (tr : list event) : list Task :=
  omap (fun e => match e with
                 | TaskQueuePut t' task => if decide (t' = t) then Some task else None
                 | _ => None
                 end) tr.

Definition dispatches (t : string) (tr : list event) : list Task :=
  omap (fun e => match e with
                 | Dispatch t' _ task => if decide (t' = t) then Some task else None
                 | _ => None
                 end) tr.

Definition uplink_sends (tr : list event) : list bytes :=
  omap (fun e => match e with
                 | TaskIncomingSend frame => Some frame
                 | _ => None
                 end) tr.

(** [self.task_queues[t]], empty when there is no such queue *)
Definition queue (t : string) (m : Manager) : list Task :=
  default [] (task_queues m !! t).

(** Every task put on a queue has been sent, in the order of the puts, or
    is still in the queue, in that order. *)
Definition balanced (m : Manager) : Prop :=
  forall t, dispatches t (trace m) ++ queue t m = puts t (trace m).

(** The tasks sent are the first tasks put, in the same order. *)
Definition ordered (m : Manager) : Prop :=
  forall t, dispatches t (trace m) `prefix_of` puts t (trace m).

Definition fifo_after {A} (r : result A) (m : Manager) : Prop :=
  match r with
  | Ok _ => balanced m
  | Raise _ => ordered m
  end.

(** A computation that keeps the order of dispatch, whether it returns or
    raises. *)
Definition keeps_fifo {S A} (proj : S -> Manager) (c : M S A) : Prop :=
  forall s, balanced (proj s) -> fifo_after (fst (c s)) (proj (snd (c s))).

(** A computation that leaves the task queues and the trace alone. *)
Definition untouched {S A} (proj : S -> Manager) (c : M S A) : Prop :=
  forall s, task_queues (proj (snd (c s))) = task_queues (proj s) /\
            trace (proj (snd (c s))) = trace (proj s).

(** A computation that sends nothing to the Interchange. *)
Definition quiet {S A} (proj : S -> Manager) (c : M S A) : Prop :=
  forall s, uplink_sends (trace (proj (snd (c s)))) = uplink_sends (trace (proj s)).

(** The value of a little-endian byte string. *)
Fixpoint le_value (b : bytes) : Z :=
  match b with
  | [] => 0
  | x :: b' => Z.of_N (Byte.to_N x) + 256 * le_value b'
  end.

(** The worker map once the Manager has counted a registration (lines 256
    and 257 of [pull_tasks]). *)
Definition counted (w : WorkerMap) : WorkerMap :=
  set_active_workers (active_workers w + 1)
    (set_pending_workers (pending_workers w - 1) w).

(** The tasks of a batch that are routed to the type [t], in the order of
    the batch. *)
Definition tasks_of_type (t : string) (ts : list Task) : list Task :=
  omap (fun task => match task_type_of task with
                    | Ok t' => if decide (t' = t) then Some task else None
                    | Raise _ => None
                    end) ts.

(** ** A worker map after the specification *)

(** Modelled from the spec: the operations of [WorkerMap] (section 4.2 of the
    specification); the class ([worker_map.py]) is not among the modelled
    sources.  The counters that the Manager updates itself around a call
    ([pending_workers], [active_workers], and [worker_counter] in [start])
    are left to it.  A worker is known when it has an entry in
    [worker_types]. *)
Module SpecWorkerMap.

Definition count (t : string) (c : gmap string Z) : Z := default 0 (c !! t).

Definition init (capacity : Z) : WorkerMap :=
  {| pending_workers := 0; active_workers := 0; worker_counter := 0;
     to_die_count := ∅; total_worker_type_counts := ∅;
     ready_worker_type_counts := ∅; worker_queues := ∅; worker_types := ∅ |}.

(** Modelled from the spec: [add_worker], "record state = PENDING,
    increment [total_by_type[type]]". *)
Definition add_worker (worker_id worker_type : string) : M WorkerMap unit :=
  modify (fun w =>
    set_worker_types
      (<[list_byte_of_string worker_id := worker_type]> (worker_types w))
      (set_total_worker_type_counts
         (<[worker_type := count worker_type (total_worker_type_counts w) + 1]>
            (total_worker_type_counts w)) w)).

(** Modelled from the spec: an id is pushed onto [idle_queues[type]], of
    which [ready_by_type[type]] is the size. *)
Definition make_idle (worker_id : bytes) (worker_type : string)
  : M WorkerMap unit :=
  modify (fun w =>
    set_worker_queues
      (<[worker_type := default [] (worker_queues w !! worker_type) ++ [worker_id]]>
         (worker_queues w))
      (set_ready_worker_type_counts
         (<[worker_type := count worker_type (ready_worker_type_counts w) + 1]>
            (ready_worker_type_counts w)) w)).

(** Modelled from the spec: [register], "push id onto
    [idle_queues[type]].  Fails silently if the id is unknown (stale)." *)
Definition register_worker (worker_id : bytes) (worker_type : string)
  : M WorkerMap unit :=
  do known <- gets (fun w => worker_types w !! worker_id);
  match known with
  | Some _ => make_idle worker_id worker_type
  | None => ret tt
  end.

(** Modelled from the spec: [put_worker], "place an ACTIVE worker back
    onto its idle queue". *)
Definition put_worker (worker_id : bytes) : M WorkerMap unit :=
  do known <- gets (fun w => worker_types w !! worker_id);
  match known with
  | Some worker_type => make_idle worker_id worker_type
  | None => ret tt
  end.

(** Modelled from the spec: [get_worker], "pop head of
    [idle_queues[type]]"; with no idle worker the call yields no id, on
    which the send that follows raises. *)
Definition get_worker (worker_type : string) : M WorkerMap bytes :=
  do idle <- gets (fun w => default [] (worker_queues w !! worker_type));
  match idle with
  | worker_id :: idle' =>
      modify (fun w =>
        set_worker_queues (<[worker_type := idle']> (worker_queues w))
          (set_ready_worker_type_counts
             (<[worker_type := count worker_type (ready_worker_type_counts w) - 1]>
                (ready_worker_type_counts w)) w));;
      ret worker_id
  | [] => raise TypeError
  end.

(** Modelled from the spec: [remove_worker], "transition to DEAD;
    decrement [total_by_type], [active], and [to_die] as appropriate;
    forget the id". *)
Definition remove_worker (worker_id : bytes) : M WorkerMap unit :=
  do known <- gets (fun w => worker_types w !! worker_id);
  match known with
  | Some worker_type =>
      modify (fun w =>
        set_worker_types (delete worker_id (worker_types w))
          (set_active_workers (active_workers w - 1)
             (set_total_worker_type_counts
                (<[worker_type := count worker_type (total_worker_type_counts w) - 1]>
                   (total_worker_type_counts w))
                (set_to_die_count
                   (if 0 <? count worker_type (to_die_count w)
                    then <[worker_type := count worker_type (to_die_count w) - 1]>
                           (to_die_count w)
                    else to_die_count w) w))))
  | None => ret tt
  end.

(** Modelled from the spec: [ready_worker_count], "sum of
    [ready_by_type]". *)
Definition ready_worker_count : M WorkerMap Z :=
  gets (fun w => map_fold (fun _ n acc => n + acc) 0 (ready_worker_type_counts w)).

(** Modelled from the spec: [spin_up_workers], "for each entry of [plan],
    call [add_worker].  Returns count spun up"; the plan is cleared. *)
Definition spin_up_workers (plan : list string) : M WorkerMap (Z * list string) :=
  for_each plan (fun worker_type =>
    do counter <- gets worker_counter;
    add_worker (py_str counter) worker_type;;
    modify (fun w => set_worker_counter (worker_counter w + 1)
                       (set_pending_workers (pending_workers w + 1) w)));;
  ret (Z.of_nat (length plan), []).

(** Modelled from the spec: [spin_down_workers], "compare current totals
    to [target_map]; for any type where current exceeds target, emit a
    drain count": the types to drain. *)
Definition spin_down_workers (target_map : gmap string Z)
  : M WorkerMap (list string) :=
  gets (fun w =>
    omap (fun entry =>
            if snd entry <? count (fst entry) (total_worker_type_counts w)
            then Some (fst entry) else None)
         (map_to_list target_map)).

(** Modelled from the spec: [get_next_worker_q], "for each type where
    target exceeds current, append [(target - current)] copies of that
    type". *)
Definition get_next_worker_q (target_map : gmap string Z)
  : M WorkerMap (list string) :=
  gets (fun w =>
    concat (map (fun entry =>
                   replicate
                     (Z.to_nat (snd entry
                                - count (fst entry) (total_worker_type_counts w)))
                     (fst entry))
                (map_to_list target_map))).

(** Modelled from the spec: [get_worker_counts], the number of idle
    workers of each type ([ready_by_type]). *)
Definition get_worker_counts : M WorkerMap (list (string * Z)) :=
  gets (fun w => map_to_list (ready_worker_type_counts w)).

(** A scheduler that proposes no plan ([None]): the Manager then changes
    nothing in its pool of workers. *)
Definition no_plan (queues : gmap string (list Task)) (capacity : Z)
           (prev : option (gmap string Z)) (to_die : gmap string Z)
  : result (option (gmap string Z)) := Ok None.

End SpecWorkerMap.

(** ** The specification's wording, for comparison *)

(** The back-off of the poll timer as the specification words it:
    [min(heartbeat_period * 1000, max(poll_timer * 2, initial_poll_period))]. *)
Definition backoff_spec (heartbeat_period_ initial_poll_period poll_timer_ : Z) : Z :=
  Z.min (heartbeat_period_ * 1000) (Z.max (poll_timer_ * 2) initial_poll_period).

(** The turn of the result pusher as the claim words it: the time is
    measured from the last flush, so that the time kept moves only when a
    message is sent. *)
Definition push_results_body_as_claimed (c : Config) (tk : ResultPusher.Tick)
           (l : ResultPusher.Locals) : ResultPusher.Locals :=
  let tr := ResultPusher.trace l
            ++ [ResultPusher.PendingResultGet (ResultPusher.push_poll_period c)] in
  let items_ := ResultPusher.items l ++ ResultPusher.received tk in
  if (max_queue_size c <=? Z.of_nat (length items_))
     || PrimFloat.ltb (PrimFloat.add (ResultPusher.last_beat l)
                                     (ResultPusher.push_poll_period c))
                      (ResultPusher.now_check tk)
  then
    match items_ with
    | [] => {| ResultPusher.last_beat := ResultPusher.last_beat l;
               ResultPusher.items := []; ResultPusher.trace := tr |}
    | _ :: _ =>
        {| ResultPusher.last_beat := ResultPusher.now_beat tk;
           ResultPusher.items := [];
           ResultPusher.trace := tr ++ [ResultPusher.ResultOutgoingSend items_] |}
    end
  else {| ResultPusher.last_beat := ResultPusher.last_beat l;
          ResultPusher.items := items_; ResultPusher.trace := tr |}.

Definition push_results_as_claimed (c : Config) (t0 : float)
           (ticks : list ResultPusher.Tick) : ResultPusher.Locals :=
  fold_left (fun l tk => push_results_body_as_claimed c tk l) ticks
            {| ResultPusher.last_beat := t0; ResultPusher.items := [];
               ResultPusher.trace := [] |}.

(** ** Concrete inputs *)

Module Demo.

(** A serializer of task ids: a tag and the content. *)
Definition dumps (i : task_id_t) : bytes :=
  match i with
  | IdStr s => list_byte_of_string "S" ++ list_byte_of_string s
  | IdBytes b => list_byte_of_string "B" ++ b
  end.

Definition task_a : Task :=
  {| task_id := IdStr "t1;RAW"; buffer := [Byte.xaa] |}.
Definition task_b : Task :=
  {| task_id := IdStr "t2;RAW"; buffer := [Byte.xab] |}.

(** Three payloads and what they unpickle to. *)
Definition payload_register : bytes := list_byte_of_string "reg".
Definition payload_batch : bytes := list_byte_of_string "batch".
Definition payload_heartbeat : bytes := list_byte_of_string "beat".

Definition loads (b : bytes) : result pyobj :=
  if decide (b = payload_register)
  then Ok (PyDict {[ "worker_type"%string := "RAW"%string ]})
  else if decide (b = payload_batch) then Ok (PyTasks [task_a; task_b])
  else if decide (b = payload_heartbeat) then Ok (PyInt HEARTBEAT_CODE)
  else Raise UnpicklingError.

(** [Manager(max_queue_size=10, heartbeat_threshold=120,
    heartbeat_period=30, poll_period=100)] on a node with room for four
    workers. *)
Definition manager : Manager := Manager_init SpecWorkerMap.init 10 4 120 30 100.

(** The state of the loop at time [0] with the given poll timer. *)
Definition state (timer : Z) : St :=
  {| self := manager;
     loc := {| last_beat := 0; last_interchange_contact := 0;
               task_recv_counter := 0; task_done_counter := 0;
               poll_timer := timer; new_worker_map := None |} |}.

(** The first worker, as [start] names it, and one that was never added. *)
Definition worker_0 : bytes := list_byte_of_string "0".
Definition worker_9 : bytes := list_byte_of_string "9".

(** First turn: worker ["0"] registers and a batch of two tasks arrives;
    second turn: the worker returns a result and nothing arrives. *)
Definition tick_1 : Tick :=
  {| now_beat_check := 1; now_beat_sent := 1;
     funcx_task_socket_in := Some [worker_0; b_REGISTER; payload_register];
     task_incoming_in := Some [[]; payload_batch];
     now_contact := 1; now_silence_check := 1 |}.
Definition tick_2 : Tick :=
  {| now_beat_check := 2; now_beat_sent := 2;
     funcx_task_socket_in := Some [worker_0; b_TASK_RET; [Byte.xbb]];
     task_incoming_in := None;
     now_contact := 2; now_silence_check := 2 |}.

(** A Manager with two workers of type [RAW] to remove. *)
Definition draining : Manager :=
  set_worker_map (set_to_die_count {[ "RAW"%string := 2 ]} (worker_map manager))
    manager.

Definition run : Manager :=
  started dumps loads SpecWorkerMap.init SpecWorkerMap.add_worker
    SpecWorkerMap.ready_worker_count SpecWorkerMap.register_worker
    SpecWorkerMap.put_worker SpecWorkerMap.remove_worker
    SpecWorkerMap.spin_up_workers SpecWorkerMap.spin_down_workers
    SpecWorkerMap.get_next_worker_q SpecWorkerMap.get_worker_counts
    SpecWorkerMap.get_worker SpecWorkerMap.no_plan
    10 4 120 30 100 (list_byte_of_string "{}") 0 0 [tick_1; tick_2].

(** The Manager after [start], before the first turn of the loop, and
    after a turn in which worker ["0"] registers and nothing else happens. *)
Definition tick_0 : Tick :=
  {| now_beat_check := 1; now_beat_sent := 1;
     funcx_task_socket_in := Some [worker_0; b_REGISTER; payload_register];
     task_incoming_in := None;
     now_contact := 1; now_silence_check := 1 |}.

Definition after (ticks : list Tick) : St :=
  {| self :=
       started dumps loads SpecWorkerMap.init SpecWorkerMap.add_worker
         SpecWorkerMap.ready_worker_count SpecWorkerMap.register_worker
         SpecWorkerMap.put_worker SpecWorkerMap.remove_worker
         SpecWorkerMap.spin_up_workers SpecWorkerMap.spin_down_workers
         SpecWorkerMap.get_next_worker_q SpecWorkerMap.get_worker_counts
         SpecWorkerMap.get_worker SpecWorkerMap.no_plan
         10 4 120 30 100 (list_byte_of_string "{}") 0 0 ticks;
     loc := loc (state 100) |}.

(** One more turn, in which nothing is received. *)
Definition tick_idle : Tick :=
  {| now_beat_check := 2; now_beat_sent := 2;
     funcx_task_socket_in := None; task_incoming_in := None;
     now_contact := 2; now_silence_check := 2 |}.

Definition turn (tk : Tick) (s : St) : result loop_ctl * St :=
  pull_tasks_body dumps loads SpecWorkerMap.ready_worker_count
    SpecWorkerMap.register_worker SpecWorkerMap.put_worker
    SpecWorkerMap.remove_worker SpecWorkerMap.spin_up_workers
    SpecWorkerMap.spin_down_workers SpecWorkerMap.get_next_worker_q
    SpecWorkerMap.get_worker_counts SpecWorkerMap.get_worker
    SpecWorkerMap.no_plan tk s.

(** The result pusher gets nothing in two turns, which end at times [5]
    and [10], and then a result at time [10.05]. *)
Definition pusher_idle : list ResultPusher.Tick :=
  [ {| ResultPusher.got := None;
       ResultPusher.now_check := 5; ResultPusher.now_beat := 5 |};
    {| ResultPusher.got := None;
       ResultPusher.now_check := 10; ResultPusher.now_beat := 10 |} ].
Definition pusher_late : ResultPusher.Tick :=
  {| ResultPusher.got := Some [Byte.xbb];
     ResultPusher.now_check := 10.05; ResultPusher.now_beat := 10.05 |}.

End Demo.
(** ** Further definitions for the properties *)

(** The [k]-th poll of [TasksOutgoing.put] (counting from [0]) is made, if
    the polls before it fail: the wait counted before it,
    [1 + 2 + ... + k], is below [max_timeout]. *)
Definition poll_allowed (max_timeout : Z) (k : nat) : Prop :=
  Z.of_nat k * (Z.of_nat k + 1) < 2 * max_timeout.

(** A computation that leaves the configuration of the Manager alone, and
    sends to the Interchange nothing but frames of four bytes. *)
Definition tame {S A} (proj : S -> Manager) (c : M S A) : Prop :=
  forall s,
    config (proj (snd (c s))) = config (proj s) /\
    exists frames,
      uplink_sends (trace (proj (snd (c s))))
        = uplink_sends (trace (proj s)) ++ frames /\
      Forall (fun frame => length frame = 4%nat) frames.

(** The number of tasks of type [t] that one pass of the matching may send,
    given the counts that [get_worker_counts] returned: the count of the
    entry of [t], none for the entry ["slots"]. *)
Definition allowance (t : string) (counts : list (string * Z)) : nat :=
  sum_list (map (fun entry =>
                   if decide (fst entry = t)
                   then (if decide (fst entry = "slots"%string) then 0%nat
                         else Z.to_nat (snd entry))
                   else 0%nat) counts).

(** A task whose type can be derived. *)
Definition typed (task : Task) : Prop :=
  exists t, task_type_of task = Ok t.

(** What the handling of a message of a worker has no business with: all
    of the state but the worker map, the queue of pending results and
    [task_done_counter]. *)
Definition beside_workers (s : St) :=
  (config (self s), task_queues (self s), next_worker_q (self s),
   kill_event (self s), trace (self s),
   (last_beat (loc s), last_interchange_contact (loc s),
    task_recv_counter (loc s), poll_timer (loc s), new_worker_map (loc s))).

(** More concrete inputs. *)
Module Cases.

(** A task whose id has no [';'], and a batch that holds it between two
  tasks of type [RAW]. *)
Definition task_untyped : Task := {| task_id := IdStr "t3"; buffer := [] |}.

Definition loads_cut (b : bytes) : result pyobj :=
Ok (PyTasks [Demo.task_a; task_untyped; Demo.task_b]).

(** A Manager with one idle worker of type [RAW] and two tasks of that type
  in the queue. *)
Definition loaded : Manager :=
set_task_queues {[ "RAW"%string := [Demo.task_a; Demo.task_b] ]}
  (self (Demo.after [Demo.tick_0])).

(** A payload that unpickles to ["STOP"]. *)
Definition loads_stop (b : bytes) : result pyobj := Ok (PyStr "STOP").

Definition tick_stop : Tick :=
{| now_beat_check := 2; now_beat_sent := 2;
   funcx_task_socket_in := None;
   task_incoming_in := Some [[]; list_byte_of_string "stop"];
   now_contact := 2; now_silence_check := 2 |}.

(** A turn, two hundred seconds after the last contact, in which nothing is
  received. *)
Definition tick_late : Tick :=
{| now_beat_check := 200; now_beat_sent := 200;
   funcx_task_socket_in := None; task_incoming_in := None;
   now_contact := 200; now_silence_check := 200 |}.

End Cases.

(** Between [s0] and [s] no task was put on a queue, taken from one or sent
    to a worker. *)
Definition calm (s0 s : St) : Prop :=
  task_queues (self s) = task_queues (self s0) /\
  forall t, puts t (trace (self s)) = puts t (trace (self s0)) /\
            dispatches t (trace (self s)) = dispatches t (trace (self s0)).

(** The same, and the time of the last contact with the Interchange, the
    heartbeat threshold and the kill flag are those of [s0]. *)
Definition settled (s0 s : St) : Prop :=
  calm s0 s /\
  last_interchange_contact (loc s) = last_interchange_contact (loc s0) /\
  heartbeat_threshold (config (self s)) = heartbeat_threshold (config (self s0)) /\
  kill_event (self s) = kill_event (self s0).

(** A turn that ends the loop: if it returns, it is with [break] and the
    kill flag set; and it leaves the task queues alone. *)
Definition ends_loop (s0 : St) (r : result loop_ctl) (s : St) : Prop :=
  calm s0 s /\
  match r with
  | Ok ctl => ctl = Break /\ kill_event (self s) = true
  | Raise _ => True
  end.

(** The number of times the type [t] occurs in the list of the types to
    drain. *)
Definition requests (t : string) (ws : list string) : nat :=
  length (filter (fun w => w = t) ws).

(** The state of the loop on the Manager [Cases.loaded], and one turn of the
    loop with the given [pickle.loads]. *)
Definition loaded_state : St :=
  {| self := Cases.loaded; loc := loc (Demo.state 100) |}.

Definition turn_with (loads : bytes -> result pyobj) (tk : Tick) (s : St)
  : result loop_ctl * St :=
  pull_tasks_body Demo.dumps loads SpecWorkerMap.ready_worker_count
    SpecWorkerMap.register_worker SpecWorkerMap.put_worker
    SpecWorkerMap.remove_worker SpecWorkerMap.spin_up_workers
    SpecWorkerMap.spin_down_workers SpecWorkerMap.get_next_worker_q
    SpecWorkerMap.get_worker_counts SpecWorkerMap.get_worker
    SpecWorkerMap.no_plan tk s.

(** A computation under which no task queue disappears. *)
Definition keeps_queues {S A} (proj : S -> Manager) (c : M S A) : Prop :=
  forall s t, is_Some (task_queues (proj s) !! t) ->
              is_Some (task_queues (proj (snd (c s))) !! t).


(** * Properties *)

(** * Properties *)

(** ** Bytes and strings *)

Lemma to_bytes_little_ok (len : nat) (n : Z) :
  0 <= n < 2 ^ (8 * Z.of_nat len) ->
  to_bytes_little len n = Ok (le_digits len n).
Proof.
  intros [Hlo Hhi]. unfold to_bytes_little.
  destruct (n <? 0) eqn:E1; [apply Z.ltb_lt in E1; lia|].
  destruct (2 ^ (8 * Z.of_nat len) <=? n) eqn:E2; [apply Z.leb_le in E2; lia|].
  reflexivity.
Qed.

Lemma heartbeat_frame :
  to_bytes_little 4 HEARTBEAT_CODE = Ok [Byte.xff; Byte.xff; Byte.xff; Byte.xff].
Proof. reflexivity. Qed.

Lemma length_le_digits (len : nat) (n : Z) : length (le_digits len n) = len.
Proof. revert n. induction len as [|len IH]; intros n; simpl; [|rewrite IH]; reflexivity. Qed.

Lemma Qgtb_true (x y : Q) : Qgtb x y = true <-> (y < x)%Q.
Proof.
  unfold Qgtb. rewrite negb_true_iff, <- not_true_iff_false, Qle_bool_iff.
  split; [apply Qnot_le_lt | apply Qlt_not_le].
Qed.

Lemma Qgtb_false (x y : Q) : Qgtb x y = false <-> (x <= y)%Q.
Proof. unfold Qgtb. rewrite negb_false_iff. apply Qle_bool_iff. Qed.

Lemma split_cons (sep : ascii) (s : string) :
  split sep s = before_first sep s ::
                match after_first sep s with
                | Some rest => split sep rest
                | None => []
                end.
Proof.
  induction s as [|c s IH]; simpl; [reflexivity|].
  destruct (Ascii.eqb c sep); [reflexivity|].
  rewrite IH. reflexivity.
Qed.

Lemma split_second (sep : ascii) (s : string) :
  split sep s !! 1%nat = before_first sep <$> after_first sep s.
Proof.
  rewrite split_cons. simpl.
  destruct (after_first sep s) as [rest|]; simpl; [|reflexivity].
  rewrite split_cons. reflexivity.
Qed.

Lemma before_first_all (sep : ascii) (s : string) :
  after_first sep s = None -> before_first sep s = s.
Proof.
  induction s as [|c s IH]; simpl; [reflexivity|].
  destruct (Ascii.eqb c sep); [discriminate|].
  intros H. rewrite IH by exact H. reflexivity.
Qed.

(** ** The blocks of the dispatch loop *)

Section BlockProperties.

Variable pickle_dumps : task_id_t -> bytes.
Variable pickle_loads : bytes -> result pyobj.

Lemma task_queue_put_run (t : string) (task : Task) (m : Manager) :
  task_queue_put t task m =
    match task_queues m !! t with
    | Some q =>
        (Ok tt, set_trace (trace m ++ [TaskQueuePut t task])
                  (set_task_queues (<[t := q ++ [task]]> (task_queues m)) m))
    | None => (Raise KeyError, m)
    end.
Proof.
  unfold task_queue_put, bind, subscript.
  destruct (task_queues m !! t); reflexivity.
Qed.

Lemma heartbeat_run (m : Manager) :
  heartbeat m =
    (Ok tt, set_trace (trace m ++ [TaskIncomingSend [Byte.xff; Byte.xff; Byte.xff; Byte.xff]]) m).
Proof. reflexivity. Qed.

Lemma heartbeat_check_run (now now' : Q) (s : St) :
  heartbeat_check now now' s =
    (Ok tt,
     if Qgtb now (last_beat (loc s) + inject_Z (heartbeat_period (config (self s))))
     then set_loc (set_last_beat now' (loc s))
            (set_self (set_trace (trace (self s) ++
               [TaskIncomingSend [Byte.xff; Byte.xff; Byte.xff; Byte.xff]]) (self s)) s)
     else s).
Proof.
  unfold heartbeat_check, bind, gets. simpl.
  destruct (Qgtb _ _); reflexivity.
Qed.

Lemma request_tasks_run (pending ready : Z) (s : St) :
  0 <= ready < 2 ^ 32 ->
  request_tasks pending ready s =
    (Ok tt,
     if (pending <? max_queue_size (config (self s))) && (0 <? ready)
     then set_self (set_trace (trace (self s) ++
                      [TaskIncomingSend (le_digits 4 ready)]) (self s)) s
     else s).
Proof.
  intros Hr. unfold request_tasks, bind, gets. simpl.
  destruct (_ && _); [|reflexivity].
  unfold lift. rewrite to_bytes_little_ok by exact Hr. reflexivity.
Qed.

End BlockProperties.

(** ** The order of dispatch *)

Lemma balanced_ordered (m : Manager) : balanced m -> ordered m.
Proof. intros H t. exists (queue t m). symmetry. apply H. Qed.

Lemma balanced_same (m m' : Manager) :
  task_queues m' = task_queues m -> trace m' = trace m ->
  balanced m -> balanced m'.
Proof. unfold balanced, queue. intros -> -> H. exact H. Qed.

Lemma untouched_keeps_fifo {S A} (proj : S -> Manager) (c : M S A) :
  untouched proj c -> keeps_fifo proj c.
Proof.
  intros H s Hb. destruct (H s) as [Hq Ht].
  pose proof (balanced_same _ _ Hq Ht Hb) as Hb'.
  destruct (fst (c s)); simpl; [exact Hb' | apply balanced_ordered, Hb'].
Qed.

Lemma keeps_fifo_bind {S A B} (proj : S -> Manager) (c : M S A) (k : A -> M S B) :
  keeps_fifo proj c -> (forall a, keeps_fifo proj (k a)) ->
  keeps_fifo proj (bind c k).
Proof.
  intros Hc Hk s Hb. specialize (Hc s Hb). unfold bind.
  destruct (c s) as [[a|e] s']; simpl in *.
  - apply Hk, Hc.
  - exact Hc.
Qed.

Lemma untouched_bind {S A B} (proj : S -> Manager) (c : M S A) (k : A -> M S B) :
  untouched proj c -> (forall a, untouched proj (k a)) ->
  untouched proj (bind c k).
Proof.
  intros Hc Hk s. specialize (Hc s). unfold bind.
  destruct (c s) as [[a|e] s']; simpl in *; [|exact Hc].
  destruct (Hk a s') as [H1 H2]. destruct Hc as [H3 H4].
  split; congruence.
Qed.

Lemma untouched_ret {S A} (proj : S -> Manager) (a : A) : untouched proj (ret a).
Proof. intros s. split; reflexivity. Qed.

Lemma untouched_raise {S A} (proj : S -> Manager) (e : exn) :
  untouched proj (@raise S A e).
Proof. intros s. split; reflexivity. Qed.

Lemma untouched_gets {S A} (proj : S -> Manager) (f : S -> A) :
  untouched proj (gets f).
Proof. intros s. split; reflexivity. Qed.

Lemma untouched_lift {S A} (proj : S -> Manager) (r : result A) :
  untouched proj (@lift S A r).
Proof. intros s. split; reflexivity. Qed.

Lemma untouched_try_except {S} (proj : S -> Manager) (c : M S unit) :
  untouched proj c -> untouched proj (try_except c).
Proof.
  intros H s. specialize (H s). unfold try_except.
  destruct (c s) as [[a|e] s']; exact H.
Qed.

Lemma untouched_upd_loc (f : Locals -> Locals) : untouched self (upd_loc f).
Proof. intros s. split; reflexivity. Qed.

Lemma untouched_on_worker_map {A} (c : M WorkerMap A) :
  untouched (fun m => m) (on_worker_map c).
Proof.
  intros m. unfold on_worker_map, zoom.
  destruct (c (worker_map m)) as [r w]. split; reflexivity.
Qed.

Lemma untouched_on_self {A} (c : M Manager A) :
  untouched (fun m => m) c -> untouched self (on_self c).
Proof.
  intros H s. specialize (H (self s)). unfold on_self, zoom.
  destruct (c (self s)) as [r m]. exact H.
Qed.

Lemma keeps_fifo_on_self {A} (c : M Manager A) :
  keeps_fifo (fun m => m) c -> keeps_fifo self (on_self c).
Proof.
  intros H s Hb. specialize (H (self s) Hb). unfold on_self, zoom.
  destruct (c (self s)) as [r m]. exact H.
Qed.

Lemma keeps_fifo_for_each {S A} (proj : S -> Manager) (xs : list A)
      (body : A -> M S unit) :
  (forall x, keeps_fifo proj (body x)) -> keeps_fifo proj (for_each xs body).
Proof.
  intros H. induction xs as [|x xs IH]; simpl.
  - apply untouched_keeps_fifo, untouched_ret.
  - apply keeps_fifo_bind; [apply H | intros _; exact IH].
Qed.

Lemma keeps_fifo_repeat_n {S} (proj : S -> Manager) (n : nat) (body : M S unit) :
  keeps_fifo proj body -> keeps_fifo proj (repeat_n n body).
Proof.
  intros H. induction n as [|n IH]; simpl.
  - apply untouched_keeps_fifo, untouched_ret.
  - apply keeps_fifo_bind; [exact H | intros _; exact IH].
Qed.

Lemma puts_app (t : string) (tr tr' : list event) :
  puts t (tr ++ tr') = puts t tr ++ puts t tr'.
Proof. apply omap_app. Qed.

Lemma dispatches_app (t : string) (tr tr' : list event) :
  dispatches t (tr ++ tr') = dispatches t tr ++ dispatches t tr'.
Proof. apply omap_app. Qed.

Lemma uplink_sends_app (tr tr' : list event) :
  uplink_sends (tr ++ tr') = uplink_sends tr ++ uplink_sends tr'.
Proof. apply omap_app. Qed.

(** [put] keeps the balance: the task goes to the tail of its queue. *)
Lemma keeps_fifo_task_queue_put (t : string) (task : Task) :
  keeps_fifo (fun m => m) (task_queue_put t task).
Proof.
  intros m Hb. rewrite task_queue_put_run.
  destruct (task_queues m !! t) as [q|] eqn:Hq; simpl.
  - intros t'. unfold queue. simpl.
    rewrite puts_app, dispatches_app. simpl. rewrite app_nil_r.
    specialize (Hb t'). unfold queue in Hb.
    destruct (decide (t = t')) as [->|Hne].
    + rewrite lookup_insert_eq. rewrite Hq in Hb. simpl in *.
      rewrite app_assoc, Hb. reflexivity.
    + rewrite lookup_insert_ne by exact Hne. rewrite app_nil_r. exact Hb.
  - apply balanced_ordered, Hb.
Qed.

Section DispatchOrder.

Variable pickle_dumps : task_id_t -> bytes.
Variable pickle_loads : bytes -> result pyobj.
Variable WorkerMap_init : Z -> WorkerMap.
Variable add_worker : string -> string -> M WorkerMap unit.
Variable ready_worker_count : M WorkerMap Z.
Variable register_worker : bytes -> string -> M WorkerMap unit.
Variable put_worker : bytes -> M WorkerMap unit.
Variable remove_worker : bytes -> M WorkerMap unit.
Variable spin_up_workers : list string -> M WorkerMap (Z * list string).
Variable spin_down_workers : gmap string Z -> M WorkerMap (list string).
Variable get_next_worker_q : gmap string Z -> M WorkerMap (list string).
Variable get_worker_counts : M WorkerMap (list (string * Z)).
Variable get_worker : string -> M WorkerMap bytes.
Variable naive_scheduler :
  gmap string (list Task) -> Z -> option (gmap string Z) -> gmap string Z ->
  result (option (gmap string Z)).

Lemma keeps_fifo_route_task (task : Task) :
  keeps_fifo (fun m => m) (route_task task).
Proof.
  intros m Hb. unfold route_task, bind, lift, gets.
  destruct (task_type_of task) as [t|e]; simpl; [|apply balanced_ordered, Hb].
  destruct (bool_decide (is_Some (task_queues m !! t))) eqn:Hk; simpl.
  - apply keeps_fifo_task_queue_put, Hb.
  - apply keeps_fifo_task_queue_put.
    apply bool_decide_eq_false in Hk.
    assert (task_queues m !! t = None) as Hn.
    { destruct (task_queues m !! t) eqn:E; [|reflexivity].
      exfalso. apply Hk. eauto. }
    intros t'. specialize (Hb t'). unfold queue in *. simpl.
    destruct (decide (t = t')) as [->|Hne].
    + rewrite lookup_insert_eq. rewrite Hn in Hb. exact Hb.
    + rewrite lookup_insert_ne by exact Hne. exact Hb.
Qed.

Lemma keeps_fifo_route_tasks (o : pyobj) :
  keeps_fifo (fun m => m) (route_tasks o).
Proof.
  destruct o as [s|n|ts|d]; simpl.
  - destruct (decide (s = ""%string));
      apply untouched_keeps_fifo; [apply untouched_ret | apply untouched_raise].
  - apply untouched_keeps_fifo, untouched_raise.
  - apply keeps_fifo_for_each, keeps_fifo_route_task.
  - destruct (decide (d = ∅));
      apply untouched_keeps_fifo; [apply untouched_ret | apply untouched_raise].
Qed.

Lemma untouched_set_kill_event (b : bool) :
  untouched (fun m => m) (modify (set_kill_event b)).
Proof. intros m. split; reflexivity. Qed.

Lemma untouched_set_next_worker_q (q : list string) :
  untouched (fun m => m) (modify (set_next_worker_q q)).
Proof. intros m. split; reflexivity. Qed.

Lemma keeps_fifo_handle_task_incoming (frames : list bytes) (now : Q) :
  keeps_fifo self (handle_task_incoming pickle_loads frames now).
Proof.
  unfold handle_task_incoming.
  apply keeps_fifo_bind; [apply untouched_keeps_fifo, untouched_upd_loc|intros _].
  destruct frames as [|f1 [|pkl [|f3 fs]]];
    try (apply untouched_keeps_fifo, untouched_raise).
  apply keeps_fifo_bind; [apply untouched_keeps_fifo, untouched_lift|intros tasks].
  apply keeps_fifo_bind; [apply untouched_keeps_fifo, untouched_upd_loc|intros _].
  destruct (decide (tasks = PyStr "STOP")).
  { apply untouched_keeps_fifo, untouched_bind;
      [apply untouched_on_self, untouched_set_kill_event
      |intros _; apply untouched_ret]. }
  destruct (decide (tasks = PyInt HEARTBEAT_CODE)).
  { apply untouched_keeps_fifo, untouched_ret. }
  apply keeps_fifo_bind; [apply untouched_keeps_fifo, untouched_lift|intros n'].
  apply keeps_fifo_bind; [apply untouched_keeps_fifo, untouched_upd_loc|intros _].
  apply keeps_fifo_bind;
    [apply keeps_fifo_on_self, keeps_fifo_route_tasks|intros _].
  apply untouched_keeps_fifo, untouched_ret.
Qed.

Lemma untouched_no_incoming_tasks (now : Q) :
  untouched self (no_incoming_tasks now).
Proof.
  unfold no_incoming_tasks.
  repeat first
    [ apply untouched_bind; [|intros ?]
    | apply untouched_gets | apply untouched_upd_loc | apply untouched_ret
    | apply untouched_on_self, untouched_set_kill_event
    | match goal with |- context [if ?b then _ else _] => destruct b end ].
Qed.

Lemma keeps_fifo_remove_worker_init (t : string) :
  keeps_fifo (fun m => m) (remove_worker_init pickle_dumps t).
Proof.
  intros m Hb. unfold remove_worker_init, bind, modify.
  destruct (subscript (to_die_count (worker_map m)) t) as [n|e]; simpl;
    [|apply balanced_ordered, Hb].
  apply keeps_fifo_task_queue_put.
  eapply balanced_same; [| |exact Hb]; reflexivity.
Qed.

Lemma keeps_fifo_schedule :
  keeps_fifo self
    (schedule pickle_dumps spin_down_workers get_next_worker_q naive_scheduler).
Proof.
  unfold schedule.
  apply keeps_fifo_bind.
  { apply untouched_keeps_fifo. intros s. split; reflexivity. }
  intros plan.
  apply keeps_fifo_bind; [apply untouched_keeps_fifo, untouched_upd_loc|intros _].
  destruct plan as [new_map|]; [|apply untouched_keeps_fifo, untouched_ret].
  apply keeps_fifo_bind.
  { apply untouched_keeps_fifo, untouched_on_self, untouched_on_worker_map. }
  intros spin_downs.
  apply keeps_fifo_bind.
  { apply keeps_fifo_for_each. intros w.
    apply keeps_fifo_on_self, keeps_fifo_remove_worker_init. }
  intros _.
  apply keeps_fifo_bind.
  { apply untouched_keeps_fifo, untouched_on_self, untouched_on_worker_map. }
  intros q.
  apply untouched_keeps_fifo, untouched_on_self, untouched_set_next_worker_q.
Qed.

(** Matching takes the head of the task queue; the task is sent unless
    [get_worker] raises, in which case the loop ends with the task lost. *)
Lemma keeps_fifo_match_task (t : string) :
  keeps_fifo (fun m => m) (match_task get_worker t).
Proof.
  intros m Hb. unfold match_task, bind, gets. simpl.
  destruct (task_queues m !! t) as [[|task rest]|] eqn:Hq; simpl; try exact Hb.
  destruct (subscript (worker_queues (worker_map m)) t) as [[|w ws]|e]; simpl;
    try exact Hb; [|apply balanced_ordered, Hb].
  unfold on_worker_map, zoom, modify. simpl.
  destruct (get_worker t (worker_map m)) as [[wid|e] w']; simpl.
  - intros t'. unfold queue. simpl.
    rewrite dispatches_app, puts_app. simpl. rewrite app_nil_r.
    specialize (Hb t'). unfold queue in Hb.
    destruct (decide (t = t')) as [->|Hne].
    + rewrite lookup_insert_eq. rewrite Hq in Hb. simpl in *.
      rewrite <- app_assoc. exact Hb.
    + rewrite lookup_insert_ne by exact Hne. rewrite app_nil_r. exact Hb.
  - intros t'. specialize (Hb t'). simpl.
    exists (queue t' m). symmetry. exact Hb.
Qed.

Lemma keeps_fifo_match_tasks :
  keeps_fifo (fun m => m) (match_tasks get_worker_counts get_worker).
Proof.
  unfold match_tasks.
  apply keeps_fifo_bind;
    [apply untouched_keeps_fifo, untouched_on_worker_map|intros counts].
  apply keeps_fifo_for_each. intros entry.
  destruct (decide (fst entry = "slots"%string)).
  - apply untouched_keeps_fifo, untouched_ret.
  - apply keeps_fifo_repeat_n, keeps_fifo_match_task.
Qed.

Lemma balanced_task_incoming_send (frame : bytes) (m : Manager) :
  balanced m -> balanced (set_trace (trace m ++ [TaskIncomingSend frame]) m).
Proof.
  intros Hb t. unfold queue. simpl.
  rewrite dispatches_app, puts_app. simpl. rewrite !app_nil_r. apply Hb.
Qed.

Lemma keeps_fifo_task_incoming_send (frame : bytes) :
  keeps_fifo (fun m => m) (task_incoming_send frame).
Proof. intros m Hb. apply balanced_task_incoming_send, Hb. Qed.

Lemma keeps_fifo_heartbeat_check (now now' : Q) :
  keeps_fifo self (heartbeat_check now now').
Proof.
  intros s Hb. rewrite heartbeat_check_run. simpl.
  destruct (Qgtb _ _); simpl; [|exact Hb].
  apply balanced_task_incoming_send, Hb.
Qed.

Lemma keeps_fifo_request_tasks (pending ready : Z) :
  keeps_fifo self (request_tasks pending ready).
Proof.
  unfold request_tasks.
  apply keeps_fifo_bind; [apply untouched_keeps_fifo, untouched_gets|intros mqs].
  destruct (_ && _); [|apply untouched_keeps_fifo, untouched_ret].
  apply keeps_fifo_bind; [apply untouched_keeps_fifo, untouched_lift|intros msg].
  apply keeps_fifo_on_self, keeps_fifo_task_incoming_send.
Qed.

Lemma untouched_handle_worker_message (frames : list bytes) :
  untouched self
    (handle_worker_message pickle_loads register_worker put_worker remove_worker frames).
Proof.
  unfold handle_worker_message. apply untouched_try_except.
  destruct frames as [|w_id [|m_type [|message [|f fs]]]];
    try apply untouched_raise.
  repeat first
    [ apply untouched_bind; [|intros ?]
    | apply untouched_lift | apply untouched_upd_loc | apply untouched_ret
    | apply untouched_on_self, untouched_on_worker_map
    | apply untouched_on_self; intros m; split; reflexivity
    | match goal with |- context [decide ?P] => destruct (decide P) end ].
Qed.

Lemma untouched_spin_up : untouched self (spin_up spin_up_workers).
Proof.
  unfold spin_up.
  repeat first
    [ apply untouched_bind; [|intros ?]
    | apply untouched_gets | apply untouched_ret
    | apply untouched_on_self, untouched_on_worker_map
    | apply untouched_on_self, untouched_set_next_worker_q ].
Qed.

Abbreviation body :=
  (pull_tasks_body pickle_dumps pickle_loads ready_worker_count register_worker
     put_worker remove_worker spin_up_workers spin_down_workers
     get_next_worker_q get_worker_counts get_worker naive_scheduler).

Abbreviation loop :=
  (pull_tasks_loop pickle_dumps pickle_loads ready_worker_count register_worker
     put_worker remove_worker spin_up_workers spin_down_workers
     get_next_worker_q get_worker_counts get_worker naive_scheduler).

Lemma keeps_fifo_pull_tasks_body (tk : Tick) : keeps_fifo self (body tk).
Proof.
  unfold pull_tasks_body, receive_and_dispatch.
  apply keeps_fifo_bind; [apply untouched_keeps_fifo, untouched_gets|intros pending].
  apply keeps_fifo_bind;
    [apply untouched_keeps_fifo, untouched_on_self, untouched_on_worker_map
    |intros ready].
  apply keeps_fifo_bind; [apply keeps_fifo_heartbeat_check|intros _].
  apply keeps_fifo_bind; [apply keeps_fifo_request_tasks|intros _].
  apply keeps_fifo_bind.
  { apply untouched_keeps_fifo.
    destruct (funcx_task_socket_in tk);
      [apply untouched_handle_worker_message | apply untouched_ret]. }
  intros _.
  apply keeps_fifo_bind; [apply untouched_keeps_fifo, untouched_spin_up|intros _].
  apply keeps_fifo_bind.
  { destruct (task_incoming_in tk);
      [apply keeps_fifo_handle_task_incoming
      |apply untouched_keeps_fifo, untouched_no_incoming_tasks]. }
  intros [|]; [|apply untouched_keeps_fifo, untouched_ret].
  apply keeps_fifo_bind; [apply keeps_fifo_schedule|intros _].
  apply keeps_fifo_bind;
    [apply keeps_fifo_on_self, keeps_fifo_match_tasks|intros _].
  apply untouched_keeps_fifo, untouched_ret.
Qed.

Lemma keeps_fifo_pull_tasks_loop (ticks : list Tick) :
  keeps_fifo self (loop ticks).
Proof.
  induction ticks as [|tk ticks IH]; simpl.
  - apply untouched_keeps_fifo, untouched_ret.
  - apply keeps_fifo_bind; [apply untouched_keeps_fifo, untouched_gets|].
    intros [|]; [apply untouched_keeps_fifo, untouched_ret|].
    apply keeps_fifo_bind; [apply keeps_fifo_pull_tasks_body|].
    intros [|]; [exact IH | apply untouched_keeps_fifo, untouched_ret].
Qed.

Lemma keeps_fifo_pull_tasks (reg_msg : bytes) (t0 t1 : Q) (ticks : list Tick) :
  keeps_fifo (fun m => m)
    (pull_tasks pickle_dumps pickle_loads ready_worker_count register_worker
       put_worker remove_worker spin_up_workers spin_down_workers
       get_next_worker_q get_worker_counts get_worker naive_scheduler
       reg_msg t0 t1 ticks).
Proof.
  unfold pull_tasks.
  apply keeps_fifo_bind; [apply keeps_fifo_task_incoming_send|intros _].
  intros m Hb.
  pose proof (keeps_fifo_pull_tasks_loop ticks
    {| self := m;
       loc := {| last_beat := t0; last_interchange_contact := t1;
                 task_recv_counter := 0; task_done_counter := 0;
                 poll_timer := poll_period (config m);
                 new_worker_map := None |} |} Hb) as H.
  simpl in *. destruct (loop ticks _) as [r s']. exact H.
Qed.

(** From a Manager whose trace is empty, [start] keeps the order of
    dispatch: it empties the task queues before the loop begins. *)
Lemma start_fifo (reg_msg : bytes) (t0 t1 : Q) (ticks : list Tick) (m : Manager) :
  trace m = [] ->
  let run := start pickle_dumps pickle_loads add_worker ready_worker_count
               register_worker put_worker remove_worker spin_up_workers
               spin_down_workers get_next_worker_q get_worker_counts
               get_worker naive_scheduler reg_msg t0 t1 ticks m in
  ordered (snd run).
Proof.
  intros Ht run.
  assert (fifo_after (fst run) (snd run)) as H.
  { subst run. unfold start.
    set (m1 := set_task_queues {[ "RAW"%string := [] ]} m).
    assert (balanced m1) as Hb1.
    { intros t. unfold queue, m1. simpl. rewrite Ht. simpl.
      destruct (decide (t = "RAW"%string)) as [->|Hne].
      - rewrite lookup_singleton_eq. reflexivity.
      - rewrite lookup_singleton_ne by congruence. reflexivity. }
    change (bind (modify (set_task_queues {[ "RAW"%string := [] ]})) ?k m)
      with (k tt m1).
    revert Hb1. generalize m1.
    change (keeps_fifo (fun m => m)
      (do counter <- gets (fun m => worker_counter (worker_map m));
       on_worker_map (add_worker (py_str counter) "RAW");;
       on_worker_map (modify (fun w => set_worker_counter (worker_counter w + 1) w));;
       on_worker_map (modify (fun w => set_pending_workers (pending_workers w + 1) w));;
       modify (set_kill_event false);;
       pull_tasks pickle_dumps pickle_loads ready_worker_count register_worker
         put_worker remove_worker spin_up_workers spin_down_workers
         get_next_worker_q get_worker_counts get_worker naive_scheduler
         reg_msg t0 t1 ticks)).
    apply keeps_fifo_bind; [apply untouched_keeps_fifo, untouched_gets|intros c].
    apply keeps_fifo_bind;
      [apply untouched_keeps_fifo, untouched_on_worker_map|intros _].
    apply keeps_fifo_bind;
      [apply untouched_keeps_fifo, untouched_on_worker_map|intros _].
    apply keeps_fifo_bind;
      [apply untouched_keeps_fifo, untouched_on_worker_map|intros _].
    apply keeps_fifo_bind;
      [apply untouched_keeps_fifo, untouched_set_kill_event|intros _].
    apply keeps_fifo_pull_tasks. }
  destruct (fst run); simpl in H; [apply balanced_ordered, H | exact H].
Qed.

Abbreviation manager_after :=
  (started pickle_dumps pickle_loads WorkerMap_init add_worker
     ready_worker_count register_worker put_worker remove_worker
     spin_up_workers spin_down_workers get_next_worker_q get_worker_counts
     get_worker naive_scheduler).

(** C1. Per-type dispatch FIFO.  Whatever the Manager was constructed with
    and whatever the loop received, if [A] was the [i]-th task put on the
    queue of type [t] and [B] the [j]-th, with [i <= j], and [B] has been
    sent to a worker, then [A] has been sent too, and [A] and [B] are the
    [i]-th and the [j]-th task of type [t] sent on the downlink socket: [A]
    is sent no later than [B]. *)
Theorem dispatch_fifo (max_queue_size_arg worker_count_ heartbeat_threshold_
                       heartbeat_period_ poll_period_ : Z)
        (reg_msg : bytes) (t0 t1 : Q) (ticks : list Tick)
        (t : string) (i j : nat) (A B : Task) :
  puts t (trace (manager_after max_queue_size_arg worker_count_ heartbeat_threshold_
                   heartbeat_period_ poll_period_ reg_msg t0 t1 ticks)) !! i
    = Some A ->
  puts t (trace (manager_after max_queue_size_arg worker_count_ heartbeat_threshold_
                   heartbeat_period_ poll_period_ reg_msg t0 t1 ticks)) !! j
    = Some B ->
  (i <= j)%nat ->
  (j < length (dispatches t
         (trace (manager_after max_queue_size_arg worker_count_ heartbeat_threshold_
                   heartbeat_period_ poll_period_ reg_msg t0 t1 ticks))))%nat ->
  dispatches t (trace (manager_after max_queue_size_arg worker_count_
                         heartbeat_threshold_ heartbeat_period_ poll_period_
                         reg_msg t0 t1 ticks)) !! i = Some A /\
  dispatches t (trace (manager_after max_queue_size_arg worker_count_
                         heartbeat_threshold_ heartbeat_period_ poll_period_
                         reg_msg t0 t1 ticks)) !! j = Some B.
Proof.
  set (m := started _ _ _ _ _ _ _ _ _ _ _ _ _ _ _ _ _ _ _ _ _ _ _).
  intros HA HB Hij Hj.
  assert (ordered m) as Ho.
  { apply (start_fifo reg_msg t0 t1 ticks). reflexivity. }
  destruct (Ho t) as [rest Hrest].
  rewrite Hrest in HA, HB.
  rewrite lookup_app_l in HA by lia.
  rewrite lookup_app_l in HB by lia.
  split; assumption.
Qed.

End DispatchOrder.

(** ** What one turn of the loop sends to the Interchange *)

Lemma untouched_quiet {S A} (proj : S -> Manager) (c : M S A) :
  untouched proj c -> quiet proj c.
Proof. intros H s. destruct (H s) as [_ Ht]. rewrite Ht. reflexivity. Qed.

Lemma quiet_bind {S A B} (proj : S -> Manager) (c : M S A) (k : A -> M S B) :
  quiet proj c -> (forall a, quiet proj (k a)) -> quiet proj (bind c k).
Proof.
  intros Hc Hk s. specialize (Hc s). unfold bind.
  destruct (c s) as [[a|e] s']; simpl in *; [|exact Hc].
  rewrite Hk. exact Hc.
Qed.

Lemma quiet_on_self {A} (c : M Manager A) :
  quiet (fun m => m) c -> quiet self (on_self c).
Proof.
  intros H s. specialize (H (self s)). unfold on_self, zoom.
  destruct (c (self s)) as [r m]. exact H.
Qed.

Lemma quiet_for_each {S A} (proj : S -> Manager) (xs : list A)
      (body : A -> M S unit) :
  (forall x, quiet proj (body x)) -> quiet proj (for_each xs body).
Proof.
  intros H. induction xs as [|x xs IH]; simpl.
  - apply untouched_quiet, untouched_ret.
  - apply quiet_bind; [apply H | intros _; exact IH].
Qed.

Lemma quiet_repeat_n {S} (proj : S -> Manager) (n : nat) (body : M S unit) :
  quiet proj body -> quiet proj (repeat_n n body).
Proof.
  intros H. induction n as [|n IH]; simpl.
  - apply untouched_quiet, untouched_ret.
  - apply quiet_bind; [exact H | intros _; exact IH].
Qed.

Lemma quiet_task_queue_put (t : string) (task : Task) :
  quiet (fun m => m) (task_queue_put t task).
Proof.
  intros m. rewrite task_queue_put_run.
  destruct (task_queues m !! t); simpl; [|reflexivity].
  rewrite uplink_sends_app. simpl. apply app_nil_r.
Qed.

Lemma le_value_le_digits (len : nat) (n : Z) :
  0 <= n < 2 ^ (8 * Z.of_nat len) -> le_value (le_digits len n) = n.
Proof.
  revert n. induction len as [|len IH]; intros n Hn; simpl.
  - change (2 ^ (8 * Z.of_nat 0)) with 1 in Hn. lia.
  - assert (0 <= n mod 256 < 256) as Hm by (apply Z.mod_pos_bound; lia).
    assert (Z.of_N (Byte.to_N (byte_of_Z (n mod 256))) = n mod 256) as ->.
    { unfold byte_of_Z.
      destruct (Byte.of_N (Z.to_N (n mod 256))) as [b|] eqn:E.
      - apply Byte.to_of_N in E. rewrite E. lia.
      - pose proof (Byte.to_of_N_option_map (Z.to_N (n mod 256))) as H.
        rewrite E in H. simpl in H.
        destruct (N.leb_spec (Z.to_N (n mod 256)) 255); [discriminate|lia]. }
    rewrite IH.
    + pose proof (Z.div_mod n 256). lia.
    + replace (8 * Z.of_nat (S len)) with (8 + 8 * Z.of_nat len) in Hn by lia.
      rewrite Z.pow_add_r in Hn by lia. change (2 ^ 8) with 256 in Hn.
      split; [apply Z.div_pos; lia|].
      apply Z.div_lt_upper_bound; lia.
Qed.

Section UplinkOfTurn.

Variable pickle_dumps : task_id_t -> bytes.
Variable pickle_loads : bytes -> result pyobj.
Variable ready_worker_count : M WorkerMap Z.
Variable register_worker : bytes -> string -> M WorkerMap unit.
Variable put_worker : bytes -> M WorkerMap unit.
Variable remove_worker : bytes -> M WorkerMap unit.
Variable spin_up_workers : list string -> M WorkerMap (Z * list string).
Variable spin_down_workers : gmap string Z -> M WorkerMap (list string).
Variable get_next_worker_q : gmap string Z -> M WorkerMap (list string).
Variable get_worker_counts : M WorkerMap (list (string * Z)).
Variable get_worker : string -> M WorkerMap bytes.
Variable naive_scheduler :
  gmap string (list Task) -> Z -> option (gmap string Z) -> gmap string Z ->
  result (option (gmap string Z)).

Lemma quiet_route_task (task : Task) : quiet (fun m => m) (route_task task).
Proof.
  intros m. unfold route_task, bind, lift, gets.
  destruct (task_type_of task) as [t|e]; simpl; [|reflexivity].
  destruct (bool_decide _); simpl;
    (etransitivity; [apply (quiet_task_queue_put t task)|reflexivity]).
Qed.

Lemma quiet_route_tasks (o : pyobj) : quiet (fun m => m) (route_tasks o).
Proof.
  destruct o as [s|n|ts|d]; simpl.
  - destruct (decide (s = ""%string));
      apply untouched_quiet; [apply untouched_ret | apply untouched_raise].
  - apply untouched_quiet, untouched_raise.
  - apply quiet_for_each, quiet_route_task.
  - destruct (decide (d = ∅));
      apply untouched_quiet; [apply untouched_ret | apply untouched_raise].
Qed.

Lemma quiet_handle_task_incoming (frames : list bytes) (now : Q) :
  quiet self (handle_task_incoming pickle_loads frames now).
Proof.
  unfold handle_task_incoming.
  apply quiet_bind; [apply untouched_quiet, untouched_upd_loc|intros _].
  destruct frames as [|f1 [|pkl [|f3 fs]]];
    try (apply untouched_quiet, untouched_raise).
  apply quiet_bind; [apply untouched_quiet, untouched_lift|intros tasks].
  apply quiet_bind; [apply untouched_quiet, untouched_upd_loc|intros _].
  destruct (decide (tasks = PyStr "STOP")).
  { apply untouched_quiet, untouched_bind;
      [apply untouched_on_self; intros m; split; reflexivity
      |intros _; apply untouched_ret]. }
  destruct (decide (tasks = PyInt HEARTBEAT_CODE)).
  { apply untouched_quiet, untouched_ret. }
  apply quiet_bind; [apply untouched_quiet, untouched_lift|intros n'].
  apply quiet_bind; [apply untouched_quiet, untouched_upd_loc|intros _].
  apply quiet_bind; [apply quiet_on_self, quiet_route_tasks|intros _].
  apply untouched_quiet, untouched_ret.
Qed.

Lemma quiet_remove_worker_init (t : string) :
  quiet (fun m => m) (remove_worker_init pickle_dumps t).
Proof.
  intros m. unfold remove_worker_init, bind, modify.
  destruct (subscript (to_die_count (worker_map m)) t) as [n|e]; simpl;
    [|reflexivity].
  etransitivity; [apply (quiet_task_queue_put t (kill_task pickle_dumps))|reflexivity].
Qed.

Lemma quiet_schedule :
  quiet self
    (schedule pickle_dumps spin_down_workers get_next_worker_q naive_scheduler).
Proof.
  unfold schedule.
  apply quiet_bind; [intros s; reflexivity|intros plan].
  apply quiet_bind; [apply untouched_quiet, untouched_upd_loc|intros _].
  destruct plan as [new_map|]; [|apply untouched_quiet, untouched_ret].
  apply quiet_bind;
    [apply untouched_quiet, untouched_on_self, untouched_on_worker_map|].
  intros spin_downs.
  apply quiet_bind.
  { apply quiet_for_each. intros w.
    apply quiet_on_self, quiet_remove_worker_init. }
  intros _.
  apply quiet_bind;
    [apply untouched_quiet, untouched_on_self, untouched_on_worker_map|].
  intros q. apply untouched_quiet, untouched_on_self.
  intros m; split; reflexivity.
Qed.

Lemma quiet_match_task (t : string) :
  quiet (fun m => m) (match_task get_worker t).
Proof.
  intros m. unfold match_task, bind, gets. simpl.
  destruct (task_queues m !! t) as [[|task rest]|]; simpl; try reflexivity.
  destruct (subscript (worker_queues (worker_map m)) t) as [[|w ws]|e]; simpl;
    try reflexivity.
  unfold on_worker_map, zoom, modify. simpl.
  destruct (get_worker t (worker_map m)) as [[wid|e] w']; simpl; [|reflexivity].
  rewrite uplink_sends_app. simpl. apply app_nil_r.
Qed.

Lemma quiet_match_tasks :
  quiet (fun m => m) (match_tasks get_worker_counts get_worker).
Proof.
  unfold match_tasks.
  apply quiet_bind; [apply untouched_quiet, untouched_on_worker_map|].
  intros counts. apply quiet_for_each. intros entry.
  destruct (decide (fst entry = "slots"%string)).
  - apply untouched_quiet, untouched_ret.
  - apply quiet_repeat_n, quiet_match_task.
Qed.

Lemma quiet_receive_and_dispatch (tk : Tick) :
  quiet self
    (receive_and_dispatch pickle_dumps pickle_loads register_worker put_worker
       remove_worker spin_up_workers spin_down_workers get_next_worker_q
       get_worker_counts get_worker naive_scheduler tk).
Proof.
  unfold receive_and_dispatch.
  apply quiet_bind.
  { apply untouched_quiet. destruct (funcx_task_socket_in tk);
      [apply untouched_handle_worker_message | apply untouched_ret]. }
  intros _.
  apply quiet_bind; [apply untouched_quiet, untouched_spin_up|intros _].
  apply quiet_bind.
  { destruct (task_incoming_in tk);
      [apply quiet_handle_task_incoming
      |apply untouched_quiet, untouched_no_incoming_tasks]. }
  intros [|]; [|apply untouched_quiet, untouched_ret].
  apply quiet_bind; [apply quiet_schedule|intros _].
  apply quiet_bind; [apply quiet_on_self, quiet_match_tasks|intros _].
  apply untouched_quiet, untouched_ret.
Qed.

(** The frames a turn of the loop sends to the Interchange: the heartbeat
    when it is due, then the request for tasks when there is room and a
    worker is ready. *)
Lemma pull_tasks_body_uplink (tk : Tick) (s : St) (ready : Z) (w : WorkerMap) :
  ready_worker_count (worker_map (self s)) = (Ok ready, w) ->
  uplink_sends (trace (self (snd
    (pull_tasks_body pickle_dumps pickle_loads ready_worker_count
       register_worker put_worker remove_worker spin_up_workers
       spin_down_workers get_next_worker_q get_worker_counts get_worker
       naive_scheduler tk s)))) =
  uplink_sends (trace (self s)) ++
  (if Qgtb (now_beat_check tk)
           (last_beat (loc s) + inject_Z (heartbeat_period (config (self s))))
   then [[Byte.xff; Byte.xff; Byte.xff; Byte.xff]] else []) ++
  (if (task_recv_counter (loc s) - task_done_counter (loc s)
         <? max_queue_size (config (self s))) && (0 <? ready)
   then match to_bytes_little 4 ready with
        | Ok frame => [frame]
        | Raise _ => []
        end
   else []).
Proof.
  intros Hready. unfold pull_tasks_body.
  unfold bind at 1. unfold gets at 1.
  unfold bind at 1. unfold on_self, on_worker_map, zoom. rewrite Hready.
  simpl. unfold bind at 1. rewrite heartbeat_check_run.
  set (s1 := set_self (set_worker_map w (self s)) s).
  set (s2 := if Qgtb _ _ then _ else s1).
  assert (uplink_sends (trace (self s2)) =
          uplink_sends (trace (self s)) ++
          (if Qgtb (now_beat_check tk)
                   (last_beat (loc s) + inject_Z (heartbeat_period (config (self s))))
           then [[Byte.xff; Byte.xff; Byte.xff; Byte.xff]] else [])) as H2.
  { subst s2 s1. simpl. destruct (Qgtb _ _); simpl.
    - rewrite uplink_sends_app. reflexivity.
    - rewrite app_nil_r. reflexivity. }
  assert (max_queue_size (config (self s2)) = max_queue_size (config (self s)))
    as Hq by (subst s2 s1; simpl; destruct (Qgtb _ _); reflexivity).
  unfold bind at 1. unfold request_tasks, bind at 1, gets at 1. rewrite Hq.
  destruct (_ && _).
  - unfold bind at 1, lift.
    destruct (to_bytes_little 4 ready) as [frame|e]; simpl.
    + etransitivity; [apply quiet_receive_and_dispatch|].
      simpl. rewrite uplink_sends_app, H2. simpl. rewrite <- app_assoc.
      reflexivity.
    + rewrite H2, app_nil_r. reflexivity.
  - simpl. etransitivity; [apply quiet_receive_and_dispatch|].
    rewrite H2, app_nil_r. reflexivity.
Qed.

End UplinkOfTurn.

(** ** The removal of a worker *)

Lemma remove_worker_init_run (pickle_dumps : task_id_t -> bytes)
      (t : string) (m : Manager) :
  remove_worker_init pickle_dumps t m =
    match to_die_count (worker_map m) !! t with
    | None => (Raise KeyError, m)
    | Some n =>
        let m' := set_worker_map
                    (set_to_die_count (<[t := n + 1]> (to_die_count (worker_map m)))
                       (worker_map m)) m in
        match task_queues m !! t with
        | None => (Raise KeyError, m')
        | Some q =>
            (Ok tt,
             set_trace (trace m ++ [TaskQueuePut t (kill_task pickle_dumps)])
               (set_task_queues (<[t := q ++ [kill_task pickle_dumps]]> (task_queues m))
                  m'))
        end
    end.
Proof.
  unfold remove_worker_init, bind, subscript.
  destruct (to_die_count (worker_map m) !! t) as [n|]; [|reflexivity].
  simpl. rewrite task_queue_put_run. simpl.
  destruct (task_queues m !! t); reflexivity.
Qed.

(** C2. For a worker type [t] that has a drain counter and a task queue,
    [remove_worker_init(t)] returns normally, adds one to [to_die_count[t]]
    and puts one KILL sentinel at the tail of [task_queues[t]]; the sentinel
    has [task_id = pickle.dumps(b"KILL")] and [buffer = b'KILL'].  The
    resulting Manager is the initial one with these two updates (and the
    record of the [put]): nothing else has changed. *)
Theorem remove_worker_init_effect (pickle_dumps : task_id_t -> bytes)
        (t : string) (m : Manager) (n : Z) (q : list Task) :
  to_die_count (worker_map m) !! t = Some n ->
  task_queues m !! t = Some q ->
  remove_worker_init pickle_dumps t m =
    (Ok tt,
     set_trace (trace m ++ [TaskQueuePut t (kill_task pickle_dumps)])
       (set_task_queues (<[t := q ++ [kill_task pickle_dumps]]> (task_queues m))
          (set_worker_map
             (set_to_die_count (<[t := n + 1]> (to_die_count (worker_map m)))
                (worker_map m)) m))) /\
  task_id (kill_task pickle_dumps)
    = IdBytes (pickle_dumps (IdBytes [Byte.x4b; Byte.x49; Byte.x4c; Byte.x4c])) /\
  buffer (kill_task pickle_dumps) = [Byte.x4b; Byte.x49; Byte.x4c; Byte.x4c].
Proof.
  intros Hn Hq. split; [|split; reflexivity].
  rewrite remove_worker_init_run, Hn, Hq. reflexivity.
Qed.

Lemma remove_worker_init_effect_witness :
  to_die_count (worker_map Demo.draining) !! "RAW"%string = Some 2 /\
  task_queues Demo.draining !! "RAW"%string = Some [] /\
  fst (remove_worker_init Demo.dumps "RAW" Demo.draining) = Ok tt /\
  to_die_count (worker_map (snd (remove_worker_init Demo.dumps "RAW" Demo.draining)))
    !! "RAW"%string = Some 3 /\
  task_queues (snd (remove_worker_init Demo.dumps "RAW" Demo.draining)) !! "RAW"%string
    = Some [kill_task Demo.dumps].
Proof.
  assert (to_die_count (worker_map Demo.draining) !! "RAW"%string = Some 2) as H1
    by (vm_compute; reflexivity).
  assert (task_queues Demo.draining !! "RAW"%string = Some []) as H2
    by (vm_compute; reflexivity).
  destruct (remove_worker_init_effect Demo.dumps "RAW" Demo.draining 2 [] H1 H2)
    as [E _].
  rewrite E. repeat split; try assumption; vm_compute; reflexivity.
Defined.

(** ** The poll timer *)

Lemma no_incoming_tasks_poll_timer (now : Q) (s : St) :
  poll_timer (loc (snd (no_incoming_tasks now s))) =
    Z.min (heartbeat_period (config (self s)) * 1000)
          ((if poll_timer (loc s) =? 0 then poll_period (config (self s))
            else poll_timer (loc s)) * 2).
Proof.
  unfold no_incoming_tasks, bind, gets, upd_loc, modify. simpl.
  destruct (poll_timer (loc s) =? 0); simpl; destruct (Qgtb _ _); reflexivity.
Qed.

(** C4, as the claim states it, fails: with [poll_period = 100] and
    [heartbeat_period = 30], a turn without a message from the Interchange
    takes the poll timer from [0] to [200], where the formula of the claim
    gives [100], the initial poll period. *)
Lemma poll_backoff_counterexample :
  poll_timer (loc (snd (no_incoming_tasks 1 (Demo.state 0)))) = 200 /\
  backoff_spec (heartbeat_period (config (self (Demo.state 0))))
               (poll_period (config (self (Demo.state 0))))
               (poll_timer (loc (Demo.state 0))) = 100 /\
  poll_timer (loc (snd (no_incoming_tasks 1 (Demo.state 0)))) <>
  backoff_spec (heartbeat_period (config (self (Demo.state 0))))
               (poll_period (config (self (Demo.state 0))))
               (poll_timer (loc (Demo.state 0))).
Proof. vm_compute. repeat split; congruence. Qed.

(** C4, amended.  On every turn of the loop in which no message was received
    from the Interchange, the poll timer becomes
    [min(heartbeat_period * 1000, 2 * p)], where [p] is the poll timer if it
    is not zero and the initial poll period if it is; starting from [0] the
    next value is [min(heartbeat_period * 1000, 2 * poll_period)]. *)
Theorem poll_backoff (now : Q) (s : St) :
  poll_timer (loc (snd (no_incoming_tasks now s))) =
    Z.min (heartbeat_period (config (self s)) * 1000)
          (2 * (if decide (poll_timer (loc s) = 0)
                then poll_period (config (self s))
                else poll_timer (loc s))).
Proof.
  rewrite no_incoming_tasks_poll_timer.
  destruct (Z.eqb_spec (poll_timer (loc s)) 0) as [E|E];
    destruct (decide (poll_timer (loc s) = 0)); try contradiction; f_equal; lia.
Qed.

(** ** A heartbeat of the Interchange *)

Lemma handle_task_incoming_heartbeat (pickle_loads : bytes -> result pyobj)
      (ident pkl_msg : bytes) (now : Q) (s : St) :
  pickle_loads pkl_msg = Ok (PyInt HEARTBEAT_CODE) ->
  handle_task_incoming pickle_loads [ident; pkl_msg] now s =
    (Ok Continue,
     set_loc (set_last_interchange_contact now (set_poll_timer 0 (loc s))) s).
Proof.
  intros H. unfold handle_task_incoming, bind, lift, upd_loc, modify. simpl.
  rewrite H. simpl. reflexivity.
Qed.

(** C5, as the claim states it, fails: a heartbeat of the Interchange
    received with the poll timer at [100] leaves a state that differs from
    the initial one in more than [last_interchange_contact]: the poll timer
    is [0] afterwards. *)
Lemma heartbeat_received_counterexample :
  Demo.loads Demo.payload_heartbeat = Ok (PyInt HEARTBEAT_CODE) /\
  snd (handle_task_incoming Demo.loads [[]; Demo.payload_heartbeat] 5
         (Demo.state 100)) <>
  set_loc (set_last_interchange_contact 5 (loc (Demo.state 100))) (Demo.state 100) /\
  poll_timer (loc (snd (handle_task_incoming Demo.loads
                          [[]; Demo.payload_heartbeat] 5 (Demo.state 100)))) = 0 /\
  poll_timer (loc (Demo.state 100)) = 100.
Proof.
  split; [reflexivity|].
  rewrite (handle_task_incoming_heartbeat Demo.loads [] Demo.payload_heartbeat 5
             (Demo.state 100) eq_refl).
  split; [|split; reflexivity].
  intros H. apply (f_equal (fun s => poll_timer (loc s))) in H. discriminate H.
Qed.

(** C5, amended.  When the message received from the Interchange unpickles
    to the integer [0xFFFFFFFF], the handler returns normally and the loop
    goes on; [last_interchange_contact] becomes the current time and
    [poll_timer] is reset to [0]; every other variable of the loop and the
    whole Manager (task queues, worker map, what was sent) are unchanged. *)
Theorem heartbeat_received (pickle_loads : bytes -> result pyobj)
        (ident pkl_msg : bytes) (now : Q) (s : St) :
  pickle_loads pkl_msg = Ok (PyInt HEARTBEAT_CODE) ->
  HEARTBEAT_CODE = 4294967295 /\
  handle_task_incoming pickle_loads [ident; pkl_msg] now s =
    (Ok Continue,
     {| self := self s;
        loc := {| last_beat := last_beat (loc s);
                  last_interchange_contact := now;
                  task_recv_counter := task_recv_counter (loc s);
                  task_done_counter := task_done_counter (loc s);
                  poll_timer := 0;
                  new_worker_map := new_worker_map (loc s) |} |}).
Proof.
  intros H. split; [reflexivity|].
  rewrite (handle_task_incoming_heartbeat _ _ _ _ _ H). reflexivity.
Qed.

Lemma heartbeat_received_witness :
  Demo.loads Demo.payload_heartbeat = Ok (PyInt HEARTBEAT_CODE) /\
  fst (handle_task_incoming Demo.loads [[]; Demo.payload_heartbeat] 5
         (Demo.state 100)) = Ok Continue.
Proof.
  split; [reflexivity|].
  rewrite (proj2 (heartbeat_received Demo.loads [] Demo.payload_heartbeat 5
                    (Demo.state 100) eq_refl)).
  reflexivity.
Defined.

(** ** The type of a task *)

Lemma task_type_of_str (task : Task) (s : string) :
  task_id task = IdStr s ->
  task_type_of task =
    match after_first ";" s with
    | Some rest => Ok (before_first ";" rest)
    | None => Raise IndexError
    end.
Proof.
  intros H. unfold task_type_of. rewrite H, split_second.
  destruct (after_first ";" s); reflexivity.
Qed.

Lemma route_task_run (task : Task) (m : Manager) :
  route_task task m =
    match task_type_of task with
    | Ok t =>
        (Ok tt,
         set_trace (trace m ++ [TaskQueuePut t task])
           (set_task_queues (<[t := queue t m ++ [task]]> (task_queues m))
              (match task_queues m !! t with
               | Some _ => m
               | None =>
                   set_worker_map
                     (set_total_worker_type_counts
                        (<[t := 0]> (total_worker_type_counts (worker_map m)))
                        (worker_map m)) m
               end)))
    | Raise e => (Raise e, m)
    end.
Proof.
  unfold route_task, bind, lift, gets.
  destruct (task_type_of task) as [t|e]; [|reflexivity].
  unfold queue. simpl.
  destruct (task_queues m !! t) as [q|] eqn:Hq; simpl.
  - rewrite task_queue_put_run, Hq. reflexivity.
  - rewrite task_queue_put_run. simpl. rewrite lookup_insert_eq. simpl.
    rewrite insert_insert_eq. reflexivity.
Qed.

(** A batch that is routed to its end goes to the queues in its order. *)
Lemma route_tasks_puts (ts : list Task) (m : Manager) (t : string) :
  fst (route_tasks (PyTasks ts) m) = Ok tt ->
  puts t (trace (snd (route_tasks (PyTasks ts) m)))
    = puts t (trace m) ++ tasks_of_type t ts.
Proof.
  simpl. revert m. induction ts as [|task ts IH]; intros m; simpl.
  - intros _. rewrite app_nil_r. reflexivity.
  - unfold bind. rewrite route_task_run.
    destruct (task_type_of task) as [t'|e]; simpl; [|discriminate].
    intros H. rewrite (IH _ H). simpl.
    rewrite puts_app. simpl.
    destruct (decide (t' = t)); simpl; rewrite <- app_assoc; reflexivity.
Qed.

(** C6, as the claim states it, fails: for the task id ["t1;fft;v2"] the
    part after the first [';'] is ["fft;v2"], and the task is routed to the
    type ["fft"]. *)
Lemma task_type_counterexample :
  after_first ";" "t1;fft;v2" = Some "fft;v2"%string /\
  task_type_of {| task_id := IdStr "t1;fft;v2"; buffer := [] |} = Ok "fft"%string /\
  task_type_of {| task_id := IdStr "t1;fft;v2"; buffer := [] |} <> Ok "fft;v2"%string.
Proof. repeat split; try reflexivity. vm_compute. discriminate. Qed.

(** C6, amended.  For a task whose id is a string, the routing type is the
    part of the id between the first [';'] and the next [';'] (or the end of
    the id): it is the whole part after the first [';'] when that part has no
    [';'].  The task is put at the tail of the queue of that type.  For an
    id with no [';'] the derivation raises [IndexError]: the task is put on
    no queue, [RAW] included, and the handling of its batch ends there. *)
Theorem task_type_routing (task : Task) (s : string) (batch : list Task)
        (m : Manager) :
  task_id task = IdStr s ->
  match after_first ";" s with
  | None =>
      task_type_of task = Raise IndexError /\
      route_task task m = (Raise IndexError, m) /\
      route_tasks (PyTasks (task :: batch)) m = (Raise IndexError, m)
  | Some rest =>
      task_type_of task = Ok (before_first ";" rest) /\
      match after_first ";" rest with
      | None => before_first ";" rest = rest
      | Some _ => True
      end /\
      fst (route_task task m) = Ok tt /\
      task_queues (snd (route_task task m)) !! before_first ";" rest
        = Some (queue (before_first ";" rest) m ++ [task])
  end.
Proof.
  intros H. pose proof (task_type_of_str task s H) as Ht.
  destruct (after_first ";" s) as [rest|].
  - split; [exact Ht|]. split.
    { destruct (after_first ";" rest) eqn:E; [exact I|].
      apply before_first_all, E. }
    rewrite route_task_run, Ht. simpl. split; [reflexivity|].
    apply lookup_insert_eq.
  - split; [exact Ht|].
    assert (route_task task m = (Raise IndexError, m)) as Hr
      by (rewrite route_task_run, Ht; reflexivity).
    split; [exact Hr|].
    simpl. unfold bind. rewrite Hr. reflexivity.
Qed.

Lemma task_type_routing_witness :
  task_id Demo.task_a = IdStr "t1;RAW" /\
  task_type_of Demo.task_a = Ok "RAW"%string /\
  task_queues (snd (route_task Demo.task_a Demo.manager)) !! "RAW"%string
    = Some [Demo.task_a].
Proof.
  pose proof (task_type_routing Demo.task_a "t1;RAW" [] Demo.manager eq_refl) as H.
  simpl in H. destruct H as (H1 & _ & _ & H4).
  split; [reflexivity|]. split; [exact H1|]. exact H4.
Defined.

(** ** The heartbeat to the Interchange *)

(** C9, as the claim states it, fails: with the last heartbeat at time [0]
    and a period of [30] seconds, at time [30] the current time is at least
    [last_beat + heartbeat_period], and no heartbeat is sent. *)
Lemma heartbeat_due_counterexample :
  (last_beat (loc (Demo.state 0))
   + inject_Z (heartbeat_period (config (self (Demo.state 0)))) <= 30)%Q /\
  heartbeat_check 30 31 (Demo.state 0) = (Ok tt, Demo.state 0) /\
  uplink_sends (trace (self (snd (heartbeat_check 30 31 (Demo.state 0))))) = [].
Proof.
  split; [vm_compute; discriminate|].
  split; reflexivity.
Qed.

(** C9, amended.  On every turn of the loop where the current time is
    strictly later than [last_beat + heartbeat_period], the Manager sends
    exactly one frame to the Interchange, the four bytes [ff ff ff ff]
    (the little-endian encoding of [0xFFFFFFFF]), and sets [last_beat] to the
    time read after the send; otherwise, the equality of the two times
    included, it sends nothing and changes nothing. *)
Theorem heartbeat_due (now now' : Q) (s : St) :
  to_bytes_little 4 (2 ^ 32 - 1) = Ok [Byte.xff; Byte.xff; Byte.xff; Byte.xff] /\
  heartbeat_check now now' s =
    (Ok tt,
     if Qlt_le_dec (last_beat (loc s)
                    + inject_Z (heartbeat_period (config (self s)))) now
     then {| self := set_trace
                       (trace (self s) ++
                        [TaskIncomingSend [Byte.xff; Byte.xff; Byte.xff; Byte.xff]])
                       (self s);
             loc := set_last_beat now' (loc s) |}
     else s).
Proof.
  split; [reflexivity|].
  rewrite heartbeat_check_run.
  destruct (Qlt_le_dec _ now) as [Hlt|Hle].
  - apply Qgtb_true in Hlt. rewrite Hlt. reflexivity.
  - apply Qgtb_false in Hle. rewrite Hle. reflexivity.
Qed.

(** ** The request for tasks *)

Section RequestForTasks.

Variable pickle_dumps : task_id_t -> bytes.
Variable pickle_loads : bytes -> result pyobj.
Variable WorkerMap_init : Z -> WorkerMap.
Variable ready_worker_count : M WorkerMap Z.
Variable register_worker : bytes -> string -> M WorkerMap unit.
Variable put_worker : bytes -> M WorkerMap unit.
Variable remove_worker : bytes -> M WorkerMap unit.
Variable spin_up_workers : list string -> M WorkerMap (Z * list string).
Variable spin_down_workers : gmap string Z -> M WorkerMap (list string).
Variable get_next_worker_q : gmap string Z -> M WorkerMap (list string).
Variable get_worker_counts : M WorkerMap (list (string * Z)).
Variable get_worker : string -> M WorkerMap bytes.
Variable naive_scheduler :
  gmap string (list Task) -> Z -> option (gmap string Z) -> gmap string Z ->
  result (option (gmap string Z)).

(** C3. Take a Manager constructed with [max_queue_size = q] on a node
    with [worker_count = wc], and a turn of its dispatch loop in which
    [ready_worker_count()] returns [ready], a count below [2^32].  The
    frames the turn sends to the Interchange are the heartbeat, if it is
    due, followed by one request for tasks if and only if
    [task_recv_counter - task_done_counter < q + wc] and [0 < ready]; the
    request is a single frame of four bytes whose little-endian value is
    [ready]. *)
Theorem request_for_tasks (q wc threshold period poll : Z) (tk : Tick)
        (s : St) (ready : Z) (w : WorkerMap) :
  config (self s) = config (Manager_init WorkerMap_init q wc threshold period poll) ->
  ready_worker_count (worker_map (self s)) = (Ok ready, w) ->
  0 <= ready < 2 ^ 32 ->
  uplink_sends (trace (self (snd
    (pull_tasks_body pickle_dumps pickle_loads ready_worker_count
       register_worker put_worker remove_worker spin_up_workers
       spin_down_workers get_next_worker_q get_worker_counts get_worker
       naive_scheduler tk s)))) =
    uplink_sends (trace (self s)) ++
    (if Qlt_le_dec (last_beat (loc s) + inject_Z period) (now_beat_check tk)
     then [[Byte.xff; Byte.xff; Byte.xff; Byte.xff]] else []) ++
    (if decide (task_recv_counter (loc s) - task_done_counter (loc s) < q + wc
                /\ 0 < ready)
     then [le_digits 4 ready] else []) /\
  length (le_digits 4 ready) = 4%nat /\
  le_value (le_digits 4 ready) = ready.
Proof.
  intros Hc Hready Hrange.
  split; [|split; [apply length_le_digits | apply le_value_le_digits; exact Hrange]].
  rewrite (pull_tasks_body_uplink _ _ _ _ _ _ _ _ _ _ _ _ tk s ready w Hready).
  rewrite Hc. simpl.
  f_equal. f_equal.
  - destruct (Qlt_le_dec _ _) as [Hlt|Hle].
    + apply Qgtb_true in Hlt. rewrite Hlt. reflexivity.
    + apply Qgtb_false in Hle. rewrite Hle. reflexivity.
  - rewrite to_bytes_little_ok by exact Hrange.
    destruct (decide _) as [[H1 H2]|Hn].
    + apply Z.ltb_lt in H1, H2. rewrite H1, H2. reflexivity.
    + destruct (Z.ltb_spec (task_recv_counter (loc s) - task_done_counter (loc s))
                  (q + wc)); [|reflexivity].
      destruct (Z.ltb_spec 0 ready); [|reflexivity].
      exfalso. apply Hn. split; assumption.
Qed.

End RequestForTasks.

Lemma request_for_tasks_witness :
  config (self (Demo.after [Demo.tick_0]))
    = config (Manager_init SpecWorkerMap.init 10 4 120 30 100) /\
  fst (SpecWorkerMap.ready_worker_count
         (worker_map (self (Demo.after [Demo.tick_0])))) = Ok 1 /\
  0 <= 1 < 2 ^ 32 /\
  uplink_sends (trace (self (snd (Demo.turn Demo.tick_idle
                                    (Demo.after [Demo.tick_0])))))
    = [list_byte_of_string "{}"; [Byte.x01; Byte.x00; Byte.x00; Byte.x00]].
Proof.
  assert (config (self (Demo.after [Demo.tick_0]))
          = config (Manager_init SpecWorkerMap.init 10 4 120 30 100)) as H1
    by (vm_compute; reflexivity).
  assert (SpecWorkerMap.ready_worker_count
            (worker_map (self (Demo.after [Demo.tick_0])))
          = (Ok 1, worker_map (self (Demo.after [Demo.tick_0])))) as H2
    by reflexivity.
  assert (0 <= 1 < 2 ^ 32) as H3 by lia.
  split; [exact H1|]. split; [rewrite H2; reflexivity|]. split; [exact H3|].
  unfold Demo.turn.
  rewrite (proj1 (request_for_tasks Demo.dumps Demo.loads SpecWorkerMap.init
                    SpecWorkerMap.ready_worker_count SpecWorkerMap.register_worker
                    SpecWorkerMap.put_worker SpecWorkerMap.remove_worker
                    SpecWorkerMap.spin_up_workers SpecWorkerMap.spin_down_workers
                    SpecWorkerMap.get_next_worker_q SpecWorkerMap.get_worker_counts
                    SpecWorkerMap.get_worker SpecWorkerMap.no_plan
                    10 4 120 30 100 Demo.tick_idle (Demo.after [Demo.tick_0]) 1
                    (worker_map (self (Demo.after [Demo.tick_0]))) H1 H2 H3)).
  vm_compute. reflexivity.
Defined.

(** ** The registration of a worker *)

Section Registration.

Variable pickle_loads : bytes -> result pyobj.
Variable register_worker : bytes -> string -> M WorkerMap unit.
Variable put_worker : bytes -> M WorkerMap unit.
Variable remove_worker : bytes -> M WorkerMap unit.

Lemma handle_register_run (w_id message : bytes) (reg_info : pyobj) (s : St) :
  pickle_loads message = Ok reg_info ->
  handle_worker_message pickle_loads register_worker put_worker remove_worker
    [w_id; b_REGISTER; message] s =
  (Ok tt,
   match reg_info_worker_type reg_info with
   | Ok worker_type =>
       {| self := set_worker_map
                    (snd (register_worker w_id worker_type
                            (counted (worker_map (self s)))))
                    (self s);
          loc := loc s |}
   | Raise _ =>
       {| self := set_worker_map (counted (worker_map (self s))) (self s);
          loc := loc s |}
   end).
Proof.
  intros Hl. unfold handle_worker_message, try_except.
  destruct (decide (b_REGISTER = b_REGISTER)) as [_|Hne]; [|contradiction].
  unfold bind at 1. unfold lift at 1. rewrite Hl.
  unfold bind, on_self, on_worker_map, zoom, modify, lift. simpl.
  destruct (reg_info_worker_type reg_info) as [worker_type|e]; simpl.
  - unfold counted, set_worker_map. simpl.
    destruct (register_worker w_id worker_type _) as [[u|e] w']; reflexivity.
  - reflexivity.
Qed.

(** C8, amended.  Handling a REGISTER frame for a worker id on which
    [register_worker] leaves the worker map as it finds it (it fails
    silently, or raises) lets no exception out, and changes nothing in the
    Manager or in the loop but two counters of the worker map:
    [pending_workers] is one less and [active_workers] one more than
    before.  The Manager updates both before it calls [register_worker],
    whatever the id, and does not restore them. *)
Theorem register_stale_worker (w_id message : bytes) (reg_info : pyobj)
        (worker_type : string) (r : result unit) (s : St) :
  pickle_loads message = Ok reg_info ->
  reg_info_worker_type reg_info = Ok worker_type ->
  register_worker w_id worker_type (counted (worker_map (self s)))
    = (r, counted (worker_map (self s))) ->
  handle_worker_message pickle_loads register_worker put_worker remove_worker
    [w_id; b_REGISTER; message] s =
    (Ok tt,
     {| self := set_worker_map (counted (worker_map (self s))) (self s);
        loc := loc s |}) /\
  pending_workers (counted (worker_map (self s)))
    = pending_workers (worker_map (self s)) - 1 /\
  active_workers (counted (worker_map (self s)))
    = active_workers (worker_map (self s)) + 1.
Proof.
  intros Hl Ht Hr. split; [|split; reflexivity].
  rewrite (handle_register_run _ _ _ _ Hl), Ht, Hr. reflexivity.
Qed.

End Registration.

(** C8, as the claim states it, fails.  After [start] the worker map knows
    worker ["0"], which is pending.  A REGISTER frame of the unknown worker
    ["9"] is handled without an exception, and the worker map is not what it
    was: no worker is pending any more and one is active. *)
Lemma register_stale_worker_counterexample :
  worker_types (worker_map (self (Demo.after []))) !! Demo.worker_9 = None /\
  fst (handle_worker_message Demo.loads SpecWorkerMap.register_worker
         SpecWorkerMap.put_worker SpecWorkerMap.remove_worker
         [Demo.worker_9; b_REGISTER; Demo.payload_register] (Demo.after []))
    = Ok tt /\
  worker_map (self (snd
    (handle_worker_message Demo.loads SpecWorkerMap.register_worker
       SpecWorkerMap.put_worker SpecWorkerMap.remove_worker
       [Demo.worker_9; b_REGISTER; Demo.payload_register] (Demo.after []))))
    <> worker_map (self (Demo.after [])) /\
  pending_workers (worker_map (self (Demo.after []))) = 1 /\
  active_workers (worker_map (self (Demo.after []))) = 0 /\
  pending_workers (worker_map (self (snd
    (handle_worker_message Demo.loads SpecWorkerMap.register_worker
       SpecWorkerMap.put_worker SpecWorkerMap.remove_worker
       [Demo.worker_9; b_REGISTER; Demo.payload_register] (Demo.after []))))) = 0 /\
  active_workers (worker_map (self (snd
    (handle_worker_message Demo.loads SpecWorkerMap.register_worker
       SpecWorkerMap.put_worker SpecWorkerMap.remove_worker
       [Demo.worker_9; b_REGISTER; Demo.payload_register] (Demo.after []))))) = 1.
Proof.
  split; [vm_compute; reflexivity|].
  split; [vm_compute; reflexivity|].
  split.
  { intros H. apply (f_equal pending_workers) in H. vm_compute in H. discriminate H. }
  repeat split; vm_compute; reflexivity.
Qed.

Lemma register_stale_worker_witness :
  Demo.loads Demo.payload_register
    = Ok (PyDict {[ "worker_type"%string := "RAW"%string ]}) /\
  reg_info_worker_type (PyDict {[ "worker_type"%string := "RAW"%string ]})
    = Ok "RAW"%string /\
  SpecWorkerMap.register_worker Demo.worker_9 "RAW"
    (counted (worker_map (self (Demo.after []))))
    = (Ok tt, counted (worker_map (self (Demo.after [])))) /\
  fst (handle_worker_message Demo.loads SpecWorkerMap.register_worker
         SpecWorkerMap.put_worker SpecWorkerMap.remove_worker
         [Demo.worker_9; b_REGISTER; Demo.payload_register] (Demo.after []))
    = Ok tt.
Proof.
  assert (Demo.loads Demo.payload_register
          = Ok (PyDict {[ "worker_type"%string := "RAW"%string ]})) as H1
    by reflexivity.
  assert (reg_info_worker_type (PyDict {[ "worker_type"%string := "RAW"%string ]})
          = Ok "RAW"%string) as H2 by reflexivity.
  assert (SpecWorkerMap.register_worker Demo.worker_9 "RAW"
            (counted (worker_map (self (Demo.after []))))
          = (Ok tt, counted (worker_map (self (Demo.after []))))) as H3
    by (vm_compute; reflexivity).
  split; [exact H1|]. split; [exact H2|]. split; [exact H3|].
  rewrite (proj1 (register_stale_worker Demo.loads SpecWorkerMap.register_worker
                    SpecWorkerMap.put_worker SpecWorkerMap.remove_worker
                    Demo.worker_9 Demo.payload_register _ "RAW" (Ok tt)
                    (Demo.after []) H1 H2 H3)).
  reflexivity.
Defined.

(** ** The order of dispatch, on a run *)

Lemma dispatch_fifo_witness :
  puts "RAW" (trace Demo.run) !! 0%nat = Some Demo.task_a /\
  puts "RAW" (trace Demo.run) !! 1%nat = Some Demo.task_b /\
  (0 <= 1)%nat /\
  (1 < length (dispatches "RAW" (trace Demo.run)))%nat /\
  dispatches "RAW" (trace Demo.run) !! 0%nat = Some Demo.task_a /\
  dispatches "RAW" (trace Demo.run) !! 1%nat = Some Demo.task_b.
Proof.
  assert (puts "RAW" (trace Demo.run) !! 0%nat = Some Demo.task_a) as H1
    by (vm_compute; reflexivity).
  assert (puts "RAW" (trace Demo.run) !! 1%nat = Some Demo.task_b) as H2
    by (vm_compute; reflexivity).
  assert (0 <= 1)%nat as H3 by lia.
  assert (1 < length (dispatches "RAW" (trace Demo.run)))%nat as H4
    by (vm_compute; lia).
  split; [exact H1|]. split; [exact H2|]. split; [exact H3|]. split; [exact H4|].
  exact (dispatch_fifo Demo.dumps Demo.loads SpecWorkerMap.init
           SpecWorkerMap.add_worker SpecWorkerMap.ready_worker_count
           SpecWorkerMap.register_worker SpecWorkerMap.put_worker
           SpecWorkerMap.remove_worker SpecWorkerMap.spin_up_workers
           SpecWorkerMap.spin_down_workers SpecWorkerMap.get_next_worker_q
           SpecWorkerMap.get_worker_counts SpecWorkerMap.get_worker
           SpecWorkerMap.no_plan 10 4 120 30 100 (list_byte_of_string "{}") 0 0
           [Demo.tick_1; Demo.tick_2] "RAW" 0%nat 1%nat Demo.task_a Demo.task_b
           H1 H2 H3 H4).
Defined.

(** ** The result pusher *)

Module ResultPusherProperties.
Import ResultPusher.

Lemma pusher_sends_app (tr tr' : list event) : sends (tr ++ tr') = sends tr ++ sends tr'.
Proof. apply omap_app. Qed.

(** A turn sends at most one message, and never an empty one. *)
Lemma push_results_body_sends (c : Config) (tk : Tick) (l : Locals) :
  Forall (fun its => its <> []) (sends (trace l)) ->
  Forall (fun its => its <> []) (sends (trace (push_results_body c tk l))).
Proof.
  intros H. unfold push_results_body.
  destruct (_ || _); [|simpl; rewrite pusher_sends_app, app_nil_r; exact H].
  destruct (items l ++ received tk) as [|x xs]; simpl.
  - rewrite pusher_sends_app, app_nil_r. exact H.
  - rewrite !pusher_sends_app. simpl. rewrite app_nil_r.
    apply Forall_app. split; [exact H|].
    constructor; [discriminate|constructor].
Qed.

Lemma push_results_sends_from (c : Config) (ticks : list Tick) (l : Locals) :
  Forall (fun its => its <> []) (sends (trace l)) ->
  Forall (fun its => its <> [])
    (sends (trace (fold_left (fun l tk => push_results_body c tk l) ticks l))).
Proof.
  revert l. induction ticks as [|tk ticks IH]; intros l H; simpl; [exact H|].
  apply IH, push_results_body_sends, H.
Qed.

(** A run of one more turn is the run, then the turn. *)
Lemma push_results_snoc (c : Config) (t0 : float) (ticks : list Tick) (tk : Tick) :
  push_results c t0 (ticks ++ [tk])
  = push_results_body c tk (push_results c t0 ticks).
Proof. unfold push_results. rewrite fold_left_app. reflexivity. Qed.

(** What one turn does, from any locals. *)
Lemma push_results_body_turn (c : Config) (tk : Tick) (l : Locals) :
  exists sent,
    trace (push_results_body c tk l)
      = trace l ++ PendingResultGet (push_poll_period c) :: sent /\
    ((max_queue_size c <= Z.of_nat (length (items l ++ received tk)) \/
      PrimFloat.ltb (PrimFloat.add (last_beat l) (push_poll_period c))
                    (now_check tk) = true) /\
     last_beat (push_results_body c tk l) = now_beat tk /\
     items (push_results_body c tk l) = [] /\
     (items l ++ received tk <> [] /\
      sent = [ResultOutgoingSend (items l ++ received tk)] \/
      items l ++ received tk = [] /\ sent = [])
     \/
     ~ (max_queue_size c <= Z.of_nat (length (items l ++ received tk)) \/
        PrimFloat.ltb (PrimFloat.add (last_beat l) (push_poll_period c))
                      (now_check tk) = true) /\
     last_beat (push_results_body c tk l) = last_beat l /\
     items (push_results_body c tk l) = items l ++ received tk /\
     sent = []).
Proof.
  unfold push_results_body.
  destruct (max_queue_size c <=? Z.of_nat (length (items l ++ received tk)))
    eqn:Hsize;
    [|destruct (PrimFloat.ltb (PrimFloat.add (last_beat l) (push_poll_period c))
                              (now_check tk)) eqn:Htime];
    simpl.
  - apply Z.leb_le in Hsize.
    destruct (items l ++ received tk) as [|x xs] eqn:Hbuf.
    + exists []. simpl. split; [reflexivity|]. left.
      split; [left; exact Hsize|]. repeat split. right. split; reflexivity.
    + exists [ResultOutgoingSend (x :: xs)]. simpl.
      split; [rewrite <- app_assoc; reflexivity|]. left.
      split; [left; exact Hsize|]. repeat split. left. split; [discriminate|reflexivity].
  - destruct (items l ++ received tk) as [|x xs] eqn:Hbuf.
    + exists []. simpl. split; [reflexivity|]. left.
      split; [right; reflexivity|]. repeat split. right. split; reflexivity.
    + exists [ResultOutgoingSend (x :: xs)]. simpl.
      split; [rewrite <- app_assoc; reflexivity|]. left.
      split; [right; reflexivity|]. repeat split. left. split; [discriminate|reflexivity].
  - apply Z.leb_gt in Hsize.
    exists []. simpl. split; [reflexivity|]. right.
    split; [|repeat split].
    intros [H|H]; [lia|discriminate].
Qed.

(** C7, as the claim states it, fails.  The pusher of the Manager of
    [Demo] ([poll_period = 100], so [push_poll_period] is a tenth of a
    second, and [max_queue_size = 14]) starts at time [0] and gets nothing
    in the turns that end at times [5] and [10]: nothing is flushed.  At
    time [10.05] it gets a result.  No flush was ever made, the thread
    started more than ten seconds ago, the buffer is not empty: by the
    claim the buffer is sent.  The code sends nothing and keeps the
    result, for it measures the time from [last_beat], which the idle
    turn at time [10] has reset; the pusher that measures it from the
    last flush sends the result. *)
Lemma result_pusher_counterexample :
  sends (trace (push_results (config Demo.manager) 0 Demo.pusher_idle)) = [] /\
  PrimFloat.ltb (PrimFloat.add 0 (push_poll_period (config Demo.manager)))
                (now_check Demo.pusher_late) = true /\
  items (push_results (config Demo.manager) 0 Demo.pusher_idle)
    ++ received Demo.pusher_late = [[Byte.xbb]] /\
  sends (trace (push_results (config Demo.manager) 0
                  (Demo.pusher_idle ++ [Demo.pusher_late]))) = [] /\
  items (push_results (config Demo.manager) 0
           (Demo.pusher_idle ++ [Demo.pusher_late])) = [[Byte.xbb]] /\
  sends (trace (push_results_as_claimed (config Demo.manager) 0
                  (Demo.pusher_idle ++ [Demo.pusher_late])))
    = [[[Byte.xbb]]].
Proof. vm_compute. repeat split. Qed.

(** C7, amended.  The pusher calls [get] with the timeout
    [push_poll_period = max(10, poll_period) / 1000] seconds.  It starts
    with an empty buffer and [last_beat] the time of its start.  In every
    turn of every run, with [buf] the buffer after the [get], a flush is
    due exactly when [len(buf) >= max_queue_size] or the clock is later
    than [last_beat + push_poll_period] (a sum and a comparison of
    floats).  When it is due, [last_beat] becomes the clock and the buffer
    is empty afterwards, a buffer that is not empty having been sent
    whole as one multi-frame message, an empty one not at all: [last_beat]
    is the time of the last turn in which a flush was due, whether
    anything was sent in it or not.  When it is not due, nothing is sent,
    and the buffer and [last_beat] are kept.  No run sends an empty
    message. *)
Theorem result_pusher_turn (c : Config) (t0 : float) (ticks : list Tick)
        (tk : Tick) :
  let l := push_results c t0 ticks in
  let l' := push_results c t0 (ticks ++ [tk]) in
  let buf := items l ++ match got tk with Some r => [r] | None => [] end in
  let due := max_queue_size c <= Z.of_nat (length buf) \/
             PrimFloat.ltb (PrimFloat.add (last_beat l) (push_poll_period c))
                           (now_check tk) = true in
  push_poll_period c
    = int_truediv (Z.to_pos (Z.max 10 (poll_period c))) 1000 /\
  push_results c t0 [] = {| last_beat := t0; items := []; trace := [] |} /\
  (exists sent,
      trace l' = trace l ++ PendingResultGet (push_poll_period c) :: sent /\
      (due /\
       last_beat l' = now_beat tk /\
       items l' = [] /\
       (buf <> [] /\ sent = [ResultOutgoingSend buf] \/
        buf = [] /\ sent = [])
       \/
       ~ due /\
       last_beat l' = last_beat l /\
       items l' = buf /\
       sent = [])) /\
  Forall (fun its => its <> []) (sends (trace l')).
Proof.
  cbv zeta.
  split; [reflexivity|]. split; [reflexivity|].
  split; [|apply push_results_sends_from; constructor].
  rewrite push_results_snoc.
  apply (push_results_body_turn c tk (push_results c t0 ticks)).
Qed.

End ResultPusherProperties.

(** ** The outgoing task pipe *)

Module TasksOutgoingProperties.
Import TasksOutgoing.

Lemma pipe_sends_app {A} (tr tr' : list (event A)) :
  sends (tr ++ tr') = sends tr ++ sends tr'.
Proof. apply omap_app. Qed.

Lemma polls_app {A} (tr tr' : list (event A)) :
  polls (tr ++ tr') = polls tr ++ polls tr'.
Proof. apply omap_app. Qed.

Lemma waited_app {A} (tr tr' : list (event A)) :
  waited (tr ++ tr') = waited tr + waited tr'.
Proof.
  unfold waited. rewrite polls_app.
  induction (polls tr) as [|x xs IH]; simpl; [reflexivity|]. rewrite IH. lia.
Qed.

Lemma polls_poll {A} (tr : list (event A)) (t : Z) :
  polls (tr ++ [Poll t]) = polls tr ++ [t].
Proof. apply polls_app. Qed.

Lemma polls_send {A} (tr : list (event A)) (m : A) :
  polls (tr ++ [SendPyobj m]) = polls tr.
Proof. rewrite polls_app. apply app_nil_r. Qed.

Lemma polls_seq_S (n : nat) :
  map Z.of_nat (seq 0 n) ++ [Z.of_nat n] = map Z.of_nat (seq 0 (S n)).
Proof. rewrite seq_S, map_app. reflexivity. Qed.

(** The loop of [put], from a state reached by [n] polls that all failed,
    each of them allowed: it ends within the turns that [fuel] allows, by
    the send of the message after a successful poll, or by
    [zmq.error.Again] with nothing sent, every poll that is allowed having
    been made and having failed. *)
Lemma put_loop_outcome {A} (fuel : nat) (writable : nat -> bool) (message : A)
      (max_timeout current_wait : Z) (n : nat) (tr : list (event A)) :
  sends tr = [] ->
  polls tr = map Z.of_nat (seq 0 n) ->
  Forall (fun k => writable k = false) (seq 0 n) ->
  waited tr = current_wait - Z.of_nat n ->
  2 * current_wait = Z.of_nat n * (Z.of_nat n + 1) ->
  (forall k, (k < n)%nat -> poll_allowed max_timeout k) ->
  (n = 0%nat \/ current_wait - Z.of_nat n < max_timeout) ->
  max_timeout - current_wait <= Z.of_nat fuel ->
  exists r tr',
    put_loop fuel writable message max_timeout (Z.of_nat n) current_wait n tr
      = Some (r, tr') /\
    (r = Ok tt /\ sends tr' = [message] /\
     (exists n', polls tr' = map Z.of_nat (seq 0 (S n')) /\
                 poll_allowed max_timeout n' /\
                 writable n' = true /\
                 Forall (fun k => writable k = false) (seq 0 n'))
     \/
     r = Raise ZmqAgain /\ sends tr' = [] /\
     Forall (fun k => writable k = false) (seq 0 (length (polls tr'))) /\
     (forall k, poll_allowed max_timeout k <-> (k < length (polls tr'))%nat) /\
     (forall k, poll_allowed max_timeout k -> writable k = false) /\
     (polls tr' = [] \/ waited tr' < max_timeout)).
Proof.
  revert current_wait n tr.
  assert (Hend : forall (cw : Z) (n : nat) (tr : list (event A)),
             sends tr = [] ->
             polls tr = map Z.of_nat (seq 0 n) ->
             Forall (fun k => writable k = false) (seq 0 n) ->
             waited tr = cw - Z.of_nat n ->
             2 * cw = Z.of_nat n * (Z.of_nat n + 1) ->
             (forall k, (k < n)%nat -> poll_allowed max_timeout k) ->
             (n = 0%nat \/ cw - Z.of_nat n < max_timeout) ->
             max_timeout <= cw ->
             sends tr = [] /\
             Forall (fun k => writable k = false) (seq 0 (length (polls tr))) /\
             (forall k, poll_allowed max_timeout k <-> (k < length (polls tr))%nat) /\
             (forall k, poll_allowed max_timeout k -> writable k = false) /\
             (polls tr = [] \/ waited tr < max_timeout)).
  { intros cw n tr Hs Hp Hf Hw Hcw Hall Hprev Hge.
    assert (Hlen : length (polls tr) = n)
      by (rewrite Hp, length_map, length_seq; reflexivity).
    assert (Hlt : forall k, poll_allowed max_timeout k -> (k < n)%nat).
    { intros k Hk. unfold poll_allowed in Hk.
      destruct (Nat.lt_ge_cases k n) as [Hkn|Hkn]; [exact Hkn|]. nia. }
    split; [exact Hs|]. rewrite Hlen. split; [exact Hf|].
    split; [intros k; split; [apply Hlt|apply Hall]|].
    split.
    - intros k Hk. rewrite Forall_forall in Hf. apply Hf, elem_of_seq.
      specialize (Hlt k Hk). lia.
    - destruct Hprev as [->|Hprev]; [left; rewrite Hp; reflexivity|].
      right. lia. }
  induction fuel as [|fuel IH]; intros cw n tr Hs Hp Hf Hw Hcw Hall Hprev Hfuel.
  - simpl. destruct (Z.ltb_spec cw max_timeout) as [Hlt|Hge]; [simpl in Hfuel; lia|].
    exists (Raise ZmqAgain), tr. split; [reflexivity|]. right.
    split; [reflexivity|]. apply (Hend cw n tr); assumption.
  - simpl. destruct (Z.ltb_spec cw max_timeout) as [Hlt|Hge].
    + assert (Hn : poll_allowed max_timeout n) by (unfold poll_allowed; lia).
      destruct (writable n) eqn:Hwr.
      * exists (Ok tt), ((tr ++ [Poll (Z.of_nat n)]) ++ [SendPyobj message]).
        split; [reflexivity|]. left. split; [reflexivity|]. split.
        { rewrite !pipe_sends_app, Hs. reflexivity. }
        exists n. split; [|split; [exact Hn|split; assumption]].
        rewrite polls_send, polls_poll, Hp. apply polls_seq_S.
      * replace (Z.of_nat n + 1) with (Z.of_nat (S n)) by lia.
        apply IH.
        -- rewrite pipe_sends_app, Hs. reflexivity.
        -- rewrite polls_poll, Hp. apply polls_seq_S.
        -- rewrite seq_S. apply Forall_app. split; [exact Hf|].
           constructor; [exact Hwr|constructor].
        -- rewrite waited_app, Hw. unfold waited. simpl. lia.
        -- lia.
        -- intros k Hk. destruct (Nat.eq_dec k n) as [->|Hne]; [exact Hn|].
           apply Hall. lia.
        -- right. lia.
        -- lia.
    + exists (Raise ZmqAgain), tr. split; [reflexivity|]. right.
      split; [reflexivity|]. apply (Hend cw n tr); assumption.
Qed.

(** C10. Every call of [TasksOutgoing.put(message, max_timeout)] ends, in
    one of two ways.  Either it returns normally, having sent [message]
    exactly once, after a poll that reported the socket writable (every
    poll before it reported the contrary).  Or it raises
    [zmq.error.Again], having sent nothing: the socket never became
    writable within the waits that [max_timeout] allows, that is, the
    polls it made are all the polls allowed (the [k]-th one is, when the
    waits before it, [1 + ... + k] milliseconds, are below [max_timeout]),
    every one of them reported the socket not writable, and the time it
    gave to them is below [max_timeout] (it polls not at all when
    [max_timeout <= 0]).  It never gives up while a poll that is allowed
    would find the socket writable, never sends and raises, and never
    returns without sending. *)
Theorem put_sends_or_raises {A} (writable : nat -> bool) (message : A)
        (max_timeout : Z) :
  exists r tr,
    put writable message max_timeout = Some (r, tr) /\
    (r = Ok tt /\ sends tr = [message] /\
     (exists n, polls tr = map Z.of_nat (seq 0 (S n)) /\
                poll_allowed max_timeout n /\
                writable n = true /\
                Forall (fun k => writable k = false) (seq 0 n))
     \/
     r = Raise ZmqAgain /\ sends tr = [] /\
     Forall (fun k => writable k = false) (seq 0 (length (polls tr))) /\
     (forall k, poll_allowed max_timeout k <-> (k < length (polls tr))%nat) /\
     (forall k, poll_allowed max_timeout k -> writable k = false) /\
     (polls tr = [] \/ waited tr < max_timeout)).
Proof.
  unfold put.
  apply (put_loop_outcome (Z.to_nat max_timeout) writable message max_timeout 0 0 []).
  - reflexivity.
  - reflexivity.
  - constructor.
  - reflexivity.
  - reflexivity.
  - intros k Hk. lia.
  - left. reflexivity.
  - lia.
Qed.

End TasksOutgoingProperties.

(** ** More on the outgoing task pipe *)

Module TasksOutgoingMore.
Import TasksOutgoing.

Lemma put_polls_poll {A} (tr : list (event A)) (t : Z) :
polls (tr ++ [Poll t]) = polls tr ++ [t].
Proof. unfold polls. rewrite omap_app. reflexivity. Qed.

Lemma put_sends_poll {A} (tr : list (event A)) (t : Z) :
sends (tr ++ [Poll t]) = sends tr.
Proof. unfold sends. rewrite omap_app. apply app_nil_r. Qed.

Lemma put_seq_snoc (n : nat) :
map Z.of_nat (seq 0 n) ++ [Z.of_nat n] = map Z.of_nat (seq 0 (S n)).
Proof. rewrite seq_S, map_app. reflexivity. Qed.

Lemma poll_allowed_mono (max_timeout : Z) (j k : nat) :
(j <= k)%nat -> poll_allowed max_timeout k -> poll_allowed max_timeout j.
Proof. unfold poll_allowed. intros Hjk Hk. nia. Qed.

(** The loop of [put] after [n] failed polls: the count of the wait is
  [n (n + 1) / 2] and the next timeout is [n].  It ends at the first poll
  that succeeds, if that poll is allowed, and else at the first poll that
  is not allowed. *)
Lemma put_loop_exact {A} (fuel : nat) (writable : nat -> bool) (message : A)
    (max_timeout current_wait : Z) (n : nat) (tr : list (event A)) :
2 * current_wait = Z.of_nat n * (Z.of_nat n + 1) ->
polls tr = map Z.of_nat (seq 0 n) ->
max_timeout - current_wait <= Z.of_nat fuel ->
exists n',
  (n <= n')%nat /\
  Forall (fun k => writable k = false) (seq n (n' - n)) /\
  Forall (poll_allowed max_timeout) (seq n (n' - n)) /\
  (poll_allowed max_timeout n' /\ writable n' = true /\
   put_loop fuel writable message max_timeout (Z.of_nat n) current_wait n tr
     = Some (Ok tt, tr ++ map Poll (map Z.of_nat (seq n (S n' - n)))
                       ++ [SendPyobj message])
   \/
   ~ poll_allowed max_timeout n' /\
   put_loop fuel writable message max_timeout (Z.of_nat n) current_wait n tr
     = Some (Raise ZmqAgain, tr ++ map Poll (map Z.of_nat (seq n (n' - n))))).
Proof.
revert current_wait n tr.
induction fuel as [|fuel IH]; intros cw n tr Hcw Hp Hfuel.
- exists n. split; [lia|]. rewrite Nat.sub_diag. simpl.
  split; [constructor|]. split; [constructor|]. right.
  destruct (Z.ltb_spec cw max_timeout) as [Hlt|Hge]; [simpl in Hfuel; lia|].
  split; [unfold poll_allowed; lia|]. rewrite app_nil_r. reflexivity.
- simpl. destruct (Z.ltb_spec cw max_timeout) as [Hlt|Hge].
  + destruct (writable n) eqn:Hwr.
    * exists n. split; [lia|]. rewrite Nat.sub_diag. simpl.
      split; [constructor|]. split; [constructor|]. left.
      split; [unfold poll_allowed; lia|]. split; [exact Hwr|].
      replace (S n - n)%nat with 1%nat by lia. simpl.
      rewrite <- app_assoc. reflexivity.
    * replace (Z.of_nat n + 1) with (Z.of_nat (S n)) by lia.
      destruct (IH (cw + Z.of_nat (S n)) (S n) (tr ++ [Poll (Z.of_nat n)]))
        as (n' & Hle & Hfalse & Hallowed & Hout).
      { lia. }
      { rewrite put_polls_poll, Hp. apply put_seq_snoc. }
      { lia. }
      exists n'. split; [lia|].
      replace (n' - n)%nat with (S (n' - S n)) by lia. simpl.
      split; [constructor; assumption|].
      split; [constructor; [unfold poll_allowed; lia | assumption]|].
      destruct Hout as [(Ha & Hw & Heq)|(Ha & Heq)]; [left|right].
      -- split; [exact Ha|]. split; [exact Hw|]. rewrite Heq.
         replace (S n' - n)%nat with (S (S n' - S n)) by lia. simpl.
         rewrite <- !app_assoc. reflexivity.
      -- split; [exact Ha|]. rewrite Heq.
         rewrite <- !app_assoc. reflexivity.
  + exists n. split; [lia|]. rewrite Nat.sub_diag. simpl.
    split; [constructor|]. split; [constructor|]. right.
    split; [unfold poll_allowed; lia|]. rewrite app_nil_r. reflexivity.
Qed.

Lemma put_exact {A} (writable : nat -> bool) (message : A) (max_timeout : Z) :
exists n,
  Forall (fun k => writable k = false) (seq 0 n) /\
  Forall (poll_allowed max_timeout) (seq 0 n) /\
  (poll_allowed max_timeout n /\ writable n = true /\
   put writable message max_timeout
     = Some (Ok tt, map Poll (map Z.of_nat (seq 0 (S n))) ++ [SendPyobj message])
   \/
   ~ poll_allowed max_timeout n /\
   put writable message max_timeout
     = Some (Raise ZmqAgain, map Poll (map Z.of_nat (seq 0 n)))).
Proof.
unfold put.
destruct (put_loop_exact (Z.to_nat max_timeout) writable message max_timeout 0 0 [])
  as (n & _ & Hf & Ha & Hout); [reflexivity|reflexivity|lia|].
replace (n - 0)%nat with n in * by lia.
replace (S n - 0)%nat with (S n) in * by lia.
exists n. split; [exact Hf|]. split; [exact Ha|]. exact Hout.
Qed.

Lemma polls_map_Poll {A} (ts : list Z) : polls (A := A) (map Poll ts) = ts.
Proof. induction ts as [|t ts IH]; simpl; [|rewrite IH]; reflexivity. Qed.

(** X1. [put] returns normally exactly when one of the polls it is allowed
  to make finds the socket writable: the [k]-th poll is allowed when
  [k (k + 1) / 2 < max_timeout].  In every other case it raises
  [zmq.error.Again]. *)
Theorem put_succeeds_iff {A} (writable : nat -> bool) (message : A)
      (max_timeout : Z) :
exists r tr,
  put writable message max_timeout = Some (r, tr) /\
  (r = Ok tt \/ r = Raise ZmqAgain) /\
  (r = Ok tt <->
   exists k, poll_allowed max_timeout k /\ writable k = true).
Proof.
destruct (put_exact writable message max_timeout)
  as (n & Hf & Ha & [(Hn & Hw & Heq)|(Hn & Heq)]).
- eexists _, _. split; [exact Heq|]. split; [left; reflexivity|].
  split; [intros _; exists n; split; assumption | reflexivity].
- eexists _, _. split; [exact Heq|]. split; [right; reflexivity|].
  split; [discriminate|]. intros (k & Hk & Hw). exfalso.
  destruct (le_lt_dec n k) as [Hle|Hlt].
  + apply Hn. apply (poll_allowed_mono max_timeout n k Hle Hk).
  + rewrite Forall_forall in Hf.
    assert (writable k = false) as Hfalse by (apply Hf, elem_of_seq; lia).
    congruence.
Qed.

(** X2. The polls of [put] back off linearly: the [k]-th poll is given a
  timeout of [k] milliseconds, the first one [0].  When [n] polls are
  made, [n (n - 1) / 2 < max_timeout] unless [n = 0]: the time given to
  the polls stays below [max_timeout]. *)
Theorem put_polls_back_off {A} (writable : nat -> bool) (message : A)
      (max_timeout : Z) :
exists r tr n,
  put writable message max_timeout = Some (r, tr) /\
  polls tr = map Z.of_nat (seq 0 n) /\
  (n = 0%nat \/ Z.of_nat n * (Z.of_nat n - 1) < 2 * max_timeout) /\
  (n = 0%nat \/ 2 * waited tr = Z.of_nat n * (Z.of_nat n - 1)).
Proof.
assert (forall n, 2 * foldr Z.add 0 (map Z.of_nat (seq 0 n))
                  = Z.of_nat n * (Z.of_nat n - 1)) as Hsum.
{ induction n as [|n IH]; [reflexivity|].
  rewrite seq_S, map_app, foldr_app. simpl.
  assert (forall (l : list Z) (a : Z), foldr Z.add a l = foldr Z.add 0 l + a) as Hf.
  { induction l as [|x l IHl]; intros a; simpl; [lia|]. rewrite IHl. lia. }
  rewrite Hf. lia. }
destruct (put_exact writable message max_timeout)
  as (n & Hf & Ha & [(Hn & Hw & Heq)|(Hn & Heq)]).
- exists (Ok tt), (map Poll (map Z.of_nat (seq 0 (S n))) ++ [SendPyobj message]), (S n).
  split; [exact Heq|].
  assert (polls (map Poll (map Z.of_nat (seq 0 (S n))) ++ [SendPyobj message])
          = map Z.of_nat (seq 0 (S n))) as Hp.
  { pose proof (polls_map_Poll (A := A) (map Z.of_nat (seq 0 (S n)))) as Hm.
    unfold polls in *. rewrite omap_app, Hm. apply app_nil_r. }
  split; [exact Hp|].
  split; [right; unfold poll_allowed in Hn; lia|].
  right. unfold waited. rewrite Hp, Hsum. lia.
- exists (Raise ZmqAgain), (map Poll (map Z.of_nat (seq 0 n))), n.
  split; [exact Heq|].
  assert (polls (A := A) (map Poll (map Z.of_nat (seq 0 n)))
          = map Z.of_nat (seq 0 n)) as Hp by apply polls_map_Poll.
  split; [exact Hp|].
  split.
  + destruct n as [|n]; [left; reflexivity|right].
    rewrite Forall_forall in Ha.
    assert (poll_allowed max_timeout n) as H by (apply Ha, elem_of_seq; lia).
    unfold poll_allowed in H. lia.
  + destruct n as [|n]; [left; reflexivity|right].
    unfold waited. rewrite Hp, Hsum. lia.
Qed.

(** X3. With [max_timeout <= 0], [put] raises [zmq.error.Again] at once: it
  does not poll and does not send, whether the socket is writable or
  not. *)
Theorem put_no_time (A : Type) (writable : nat -> bool) (message : A)
      (max_timeout : Z) :
max_timeout <= 0 ->
put writable message max_timeout = Some (Raise ZmqAgain, []).
Proof.
intros H. unfold put.
replace (Z.to_nat max_timeout) with 0%nat by lia. simpl.
destruct (Z.ltb_spec 0 max_timeout); [lia|reflexivity].
Qed.

Lemma put_no_time_witness :
0 <= 0 /\
put (fun _ => true) "task"%string 0 = Some (Raise ZmqAgain, []).
Proof.
split; [lia|]. apply (put_no_time string (fun _ => true) "task"%string 0). lia.
Defined.

(** X4. With [max_timeout > 0] and a socket that is writable at the first
  poll, [put] makes one poll, with timeout [0] (it does not wait), sends
  the message once and returns. *)
Theorem put_at_once (A : Type) (writable : nat -> bool) (message : A)
      (max_timeout : Z) :
0 < max_timeout ->
writable 0%nat = true ->
put writable message max_timeout = Some (Ok tt, [Poll 0; SendPyobj message]).
Proof.
intros Hpos Hw. unfold put.
destruct (Z.to_nat max_timeout) as [|fuel] eqn:E; [lia|].
simpl. destruct (Z.ltb_spec 0 max_timeout); [|lia].
rewrite Hw. reflexivity.
Qed.

Lemma put_at_once_witness :
0 < 1000 /\ (fun _ : nat => true) 0%nat = true /\
put (fun _ => true) "task"%string 1000
  = Some (Ok tt, [Poll 0; SendPyobj "task"%string]).
Proof.
split; [lia|]. split; [reflexivity|].
apply (put_at_once string (fun _ => true) "task"%string 1000); [lia|reflexivity].
Defined.

End TasksOutgoingMore.

(** ** More on the result pusher *)

Module ResultPusherMore.
Import ResultPusher.

Lemma sends_snoc_get (tr : list event) (timeout : float) :
sends (tr ++ [PendingResultGet timeout]) = sends tr.
Proof. unfold sends. rewrite omap_app. apply app_nil_r. Qed.

Lemma sends_snoc_send (tr : list event) (its : list bytes) :
sends (tr ++ [ResultOutgoingSend its]) = sends tr ++ [its].
Proof. unfold sends. rewrite omap_app. reflexivity. Qed.

(** What a turn does to the messages sent and to the buffer. *)
Lemma push_results_body_cases (c : Config) (tk : Tick) (l : Locals) :
(sends (trace (push_results_body c tk l)) = sends (trace l) /\
 items (push_results_body c tk l) = items l ++ received tk /\
 Z.of_nat (length (items l ++ received tk)) < max_queue_size c)
\/
(sends (trace (push_results_body c tk l)) = sends (trace l) /\
 items (push_results_body c tk l) = [] /\
 items l ++ received tk = [])
\/
(sends (trace (push_results_body c tk l))
   = sends (trace l) ++ [items l ++ received tk] /\
 items (push_results_body c tk l) = [] /\
 items l ++ received tk <> []).
Proof.
unfold push_results_body.
destruct (max_queue_size c <=? Z.of_nat (length (items l ++ received tk)))
  eqn:Hsize; simpl.
- destruct (items l ++ received tk) as [|x xs] eqn:Hbuf; simpl.
  + right. left. rewrite sends_snoc_get. repeat split.
  + right. right. rewrite sends_snoc_send, sends_snoc_get.
    repeat split. discriminate.
- apply Z.leb_gt in Hsize.
  destruct (PrimFloat.ltb _ _); simpl.
  + destruct (items l ++ received tk) as [|x xs] eqn:Hbuf; simpl.
    * right. left. rewrite sends_snoc_get. repeat split.
    * right. right. rewrite sends_snoc_send, sends_snoc_get.
      repeat split. discriminate.
  + left. rewrite sends_snoc_get. repeat split. exact Hsize.
Qed.

Lemma push_results_custody_from (c : Config) (ticks : list Tick) (l : Locals) :
concat (sends (trace (fold_left (fun l tk => push_results_body c tk l) ticks l)))
++ items (fold_left (fun l tk => push_results_body c tk l) ticks l)
= concat (sends (trace l)) ++ items l ++ concat (map received ticks).
Proof.
revert l. induction ticks as [|tk ticks IH]; intros l; simpl.
- rewrite app_nil_r. reflexivity.
- rewrite IH.
  destruct (push_results_body_cases c tk l)
    as [(Hs & Hi & _)|[(Hs & Hi & Hb)|(Hs & Hi & _)]]; rewrite Hs, Hi.
  + rewrite <- app_assoc. reflexivity.
  + simpl. rewrite (app_assoc (items l)), Hb. reflexivity.
  + rewrite concat_app. simpl. rewrite app_nil_r, <- !app_assoc. reflexivity.
Qed.

(** X5. The pusher forwards the results in the order in which it gets
  them, each one once: at any point of a run, the frames of the messages
  sent so far, followed by the buffer, are the results got so far, in
  order.  (What is in the buffer when the loop ends is not sent.) *)
Theorem push_results_in_order (c : Config) (t0 : float) (ticks : list Tick) :
concat (sends (trace (push_results c t0 ticks)))
++ items (push_results c t0 ticks)
= concat (map received ticks).
Proof.
unfold push_results. rewrite push_results_custody_from. reflexivity.
Qed.

Lemma push_results_bounds_from (c : Config) (ticks : list Tick) (l : Locals) :
Forall (fun its => 1 <= Z.of_nat (length its) <= Z.max 1 (max_queue_size c))
       (sends (trace l)) ->
Z.of_nat (length (items l)) < Z.max 1 (max_queue_size c) ->
Forall (fun its => 1 <= Z.of_nat (length its) <= Z.max 1 (max_queue_size c))
       (sends (trace (fold_left (fun l tk => push_results_body c tk l) ticks l)))
/\
Z.of_nat (length (items (fold_left (fun l tk => push_results_body c tk l) ticks l)))
  < Z.max 1 (max_queue_size c).
Proof.
revert l. induction ticks as [|tk ticks IH]; intros l Hs Hi; simpl.
- split; assumption.
- assert (Z.of_nat (length (items l ++ received tk))
          <= Z.max 1 (max_queue_size c)) as Hlen.
  { rewrite length_app. unfold received. destruct (got tk); simpl; lia. }
  destruct (push_results_body_cases c tk l)
    as [(Es & Ei & Hb)|[(Es & Ei & Hb)|(Es & Ei & Hb)]];
    apply IH; rewrite ?Es, ?Ei; simpl; try assumption; try lia.
  apply Forall_app. split; [exact Hs|].
  constructor; [|constructor].
  split; [|exact Hlen].
  destruct (items l ++ received tk); [contradiction|simpl; lia].
Qed.

(** X6. A message of the pusher has at least one frame and at most
  [max(1, max_queue_size)] frames, and after every turn the buffer holds
  fewer than [max(1, max_queue_size)] results. *)
Theorem push_results_batch_bounds (c : Config) (t0 : float) (ticks : list Tick) :
Forall (fun its => 1 <= Z.of_nat (length its) <= Z.max 1 (max_queue_size c))
       (sends (trace (push_results c t0 ticks))) /\
Z.of_nat (length (items (push_results c t0 ticks)))
  < Z.max 1 (max_queue_size c).
Proof.
unfold push_results. apply push_results_bounds_from; simpl; [constructor|lia].
Qed.

End ResultPusherMore.

(** ** The configuration and the frames sent to the Interchange *)

Lemma tame_same {S A} (proj : S -> Manager) (c : M S A) :
  (forall s, config (proj (snd (c s))) = config (proj s) /\
             trace (proj (snd (c s))) = trace (proj s)) ->
  tame proj c.
Proof.
  intros H s. destruct (H s) as [Hc Ht]. split; [exact Hc|].
  exists []. rewrite Ht, app_nil_r. split; [reflexivity|constructor].
Qed.

Lemma tame_ret {S A} (proj : S -> Manager) (a : A) : tame proj (ret a).
Proof. apply tame_same. intros s. split; reflexivity. Qed.

Lemma tame_raise {S A} (proj : S -> Manager) (e : exn) : tame proj (@raise S A e).
Proof. apply tame_same. intros s. split; reflexivity. Qed.

Lemma tame_gets {S A} (proj : S -> Manager) (f : S -> A) : tame proj (gets f).
Proof. apply tame_same. intros s. split; reflexivity. Qed.

Lemma tame_lift {S A} (proj : S -> Manager) (r : result A) : tame proj (@lift S A r).
Proof. apply tame_same. intros s. split; reflexivity. Qed.

Lemma tame_bind {S A B} (proj : S -> Manager) (c : M S A) (k : A -> M S B) :
  tame proj c -> (forall a, tame proj (k a)) -> tame proj (bind c k).
Proof.
  intros Hc Hk s. specialize (Hc s). unfold bind.
  destruct (c s) as [[a|e] s']; simpl in *; [|exact Hc].
  destruct Hc as (Hc1 & fs1 & Hc2 & Hc3).
  destruct (Hk a s') as (Hk1 & fs2 & Hk2 & Hk3).
  split; [congruence|]. exists (fs1 ++ fs2).
  rewrite Hk2, Hc2, <- app_assoc. split; [reflexivity|].
  apply Forall_app. split; assumption.
Qed.

Lemma tame_try_except {S} (proj : S -> Manager) (c : M S unit) :
  tame proj c -> tame proj (try_except c).
Proof.
  intros H s. specialize (H s). unfold try_except.
  destruct (c s) as [[a|e] s']; exact H.
Qed.

Lemma tame_for_each {S A} (proj : S -> Manager) (xs : list A)
      (body : A -> M S unit) :
  (forall x, tame proj (body x)) -> tame proj (for_each xs body).
Proof.
  intros H. induction xs as [|x xs IH]; simpl.
  - apply tame_ret.
  - apply tame_bind; [apply H | intros _; exact IH].
Qed.

Lemma tame_repeat_n {S} (proj : S -> Manager) (n : nat) (body : M S unit) :
  tame proj body -> tame proj (repeat_n n body).
Proof.
  intros H. induction n as [|n IH]; simpl.
  - apply tame_ret.
  - apply tame_bind; [exact H | intros _; exact IH].
Qed.

Lemma tame_on_self {A} (c : M Manager A) :
  tame (fun m => m) c -> tame self (on_self c).
Proof.
  intros H s. specialize (H (self s)). unfold on_self, zoom.
  destruct (c (self s)) as [r m]. exact H.
Qed.

Lemma tame_on_worker_map {A} (c : M WorkerMap A) :
  tame (fun m => m) (on_worker_map c).
Proof.
  apply tame_same. intros m. unfold on_worker_map, zoom.
  destruct (c (worker_map m)) as [r w]. split; reflexivity.
Qed.

Lemma tame_upd_loc (f : Locals -> Locals) : tame self (upd_loc f).
Proof. apply tame_same. intros s. split; reflexivity. Qed.

Lemma tame_task_incoming_send (frame : bytes) :
  length frame = 4%nat -> tame (fun m => m) (task_incoming_send frame).
Proof.
  intros Hlen m. split; [reflexivity|]. exists [frame]. simpl.
  rewrite uplink_sends_app. split; [reflexivity|].
  constructor; [exact Hlen|constructor].
Qed.

Lemma to_bytes_little_length (len : nat) (n : Z) (b : bytes) :
  to_bytes_little len n = Ok b -> length b = len.
Proof.
  unfold to_bytes_little. destruct (_ || _); [discriminate|].
  intros H. inversion H. apply length_le_digits.
Qed.

Lemma tame_task_queue_put (t : string) (task : Task) :
  tame (fun m => m) (task_queue_put t task).
Proof.
  intros m. rewrite task_queue_put_run.
  destruct (task_queues m !! t); simpl.
  - split; [reflexivity|]. exists []. rewrite uplink_sends_app. simpl.
    split; [reflexivity|constructor].
  - split; [reflexivity|]. exists []. rewrite app_nil_r.
    split; [reflexivity|constructor].
Qed.

Section TameLoop.

Variable pickle_dumps : task_id_t -> bytes.
Variable pickle_loads : bytes -> result pyobj.
Variable add_worker : string -> string -> M WorkerMap unit.
Variable ready_worker_count : M WorkerMap Z.
Variable register_worker : bytes -> string -> M WorkerMap unit.
Variable put_worker : bytes -> M WorkerMap unit.
Variable remove_worker : bytes -> M WorkerMap unit.
Variable spin_up_workers : list string -> M WorkerMap (Z * list string).
Variable spin_down_workers : gmap string Z -> M WorkerMap (list string).
Variable get_next_worker_q : gmap string Z -> M WorkerMap (list string).
Variable get_worker_counts : M WorkerMap (list (string * Z)).
Variable get_worker : string -> M WorkerMap bytes.
Variable naive_scheduler :
gmap string (list Task) -> Z -> option (gmap string Z) -> gmap string Z ->
result (option (gmap string Z)).

Ltac tame_step :=
first
  [ apply tame_task_queue_put
  | apply tame_ret | apply tame_raise | apply tame_gets | apply tame_lift
  | apply tame_upd_loc
  | apply tame_on_self, tame_on_worker_map
  | apply tame_on_worker_map
  | apply tame_bind; [|intros ?]
  | apply tame_on_self, tame_same; intros ?; split; reflexivity
  | apply tame_same; intros ?; split; reflexivity ].

Lemma tame_heartbeat_check (now now' : Q) : tame self (heartbeat_check now now').
Proof.
intros s. rewrite heartbeat_check_run. simpl.
destruct (Qgtb _ _); simpl.
- split; [reflexivity|]. eexists. rewrite uplink_sends_app. simpl.
  split; [reflexivity|]. constructor; [reflexivity|constructor].
- split; [reflexivity|]. exists []. rewrite app_nil_r.
  split; [reflexivity|constructor].
Qed.

Lemma tame_request_tasks (pending ready : Z) :
tame self (request_tasks pending ready).
Proof.
intros s. unfold request_tasks, bind, gets, lift. simpl.
destruct (_ && _); simpl.
- destruct (to_bytes_little 4 ready) as [msg|e] eqn:E; simpl.
  + split; [reflexivity|]. exists [msg]. rewrite uplink_sends_app. simpl.
    split; [reflexivity|].
    constructor; [apply (to_bytes_little_length _ _ _ E)|constructor].
  + split; [reflexivity|]. exists []. rewrite app_nil_r.
    split; [reflexivity|constructor].
- split; [reflexivity|]. exists []. rewrite app_nil_r.
  split; [reflexivity|constructor].
Qed.

Lemma tame_handle_worker_message (frames : list bytes) :
tame self
  (handle_worker_message pickle_loads register_worker put_worker remove_worker frames).
Proof.
unfold handle_worker_message. apply tame_try_except.
destruct frames as [|w_id [|m_type [|message [|f fs]]]]; try apply tame_raise.
repeat first
  [ tame_step
  | match goal with |- context [decide ?P] => destruct (decide P) end ].
Qed.

Lemma tame_spin_up : tame self (spin_up spin_up_workers).
Proof. unfold spin_up. repeat tame_step. Qed.

Lemma tame_route_task (task : Task) : tame (fun m => m) (route_task task).
Proof.
unfold route_task. repeat tame_step.
match goal with |- context [if ?b then _ else _] => destruct b end;
  repeat tame_step.
Qed.

Lemma tame_route_tasks (o : pyobj) : tame (fun m => m) (route_tasks o).
Proof.
destruct o as [s|n|ts|d]; simpl.
- destruct (decide (s = ""%string)); tame_step.
- tame_step.
- apply tame_for_each, tame_route_task.
- destruct (decide (d = ∅)); tame_step.
Qed.

Lemma tame_handle_task_incoming (frames : list bytes) (now : Q) :
tame self (handle_task_incoming pickle_loads frames now).
Proof.
unfold handle_task_incoming.
apply tame_bind; [apply tame_upd_loc|intros _].
destruct frames as [|f1 [|pkl [|f3 fs]]]; try apply tame_raise.
apply tame_bind; [apply tame_lift|intros tasks].
apply tame_bind; [apply tame_upd_loc|intros _].
destruct (decide (tasks = PyStr "STOP")); [repeat tame_step|].
destruct (decide (tasks = PyInt HEARTBEAT_CODE)); [repeat tame_step|].
apply tame_bind; [apply tame_lift|intros n'].
apply tame_bind; [apply tame_upd_loc|intros _].
apply tame_bind; [apply tame_on_self, tame_route_tasks|intros _].
apply tame_ret.
Qed.

Lemma tame_no_incoming_tasks (now : Q) : tame self (no_incoming_tasks now).
Proof.
unfold no_incoming_tasks.
repeat first
  [ tame_step
  | match goal with |- context [if ?b then _ else _] => destruct b end ].
Qed.

Lemma tame_remove_worker_init (t : string) :
tame (fun m => m) (remove_worker_init pickle_dumps t).
Proof. unfold remove_worker_init. repeat tame_step. Qed.

Lemma tame_schedule :
tame self
  (schedule pickle_dumps spin_down_workers get_next_worker_q naive_scheduler).
Proof.
unfold schedule. repeat tame_step.
match goal with |- context [match ?p with Some _ => _ | None => _ end] =>
  destruct p end; repeat tame_step.
apply tame_for_each. intros w.
apply tame_on_self, tame_remove_worker_init.
Qed.

Lemma tame_match_task (t : string) : tame (fun m => m) (match_task get_worker t).
Proof.
intros m. unfold match_task, bind, gets. simpl.
pose proof (tame_ret (fun m : Manager => m) tt m) as Hsame. simpl in Hsame.
destruct (task_queues m !! t) as [[|task rest]|]; simpl; try exact Hsame.
destruct (subscript (worker_queues (worker_map m)) t) as [[|w ws]|e]; simpl;
  try exact Hsame.
unfold on_worker_map, zoom, modify. simpl.
destruct (get_worker t (worker_map m)) as [[wid|e] w']; simpl; [|exact Hsame].
split; [reflexivity|]. exists []. rewrite uplink_sends_app. simpl.
split; [reflexivity|constructor].
Qed.

Lemma tame_match_tasks :
tame (fun m => m) (match_tasks get_worker_counts get_worker).
Proof.
unfold match_tasks.
apply tame_bind; [apply tame_on_worker_map|intros counts].
apply tame_for_each. intros entry.
destruct (decide (fst entry = "slots"%string)).
- apply tame_ret.
- apply tame_repeat_n, tame_match_task.
Qed.

Lemma tame_pull_tasks_body (tk : Tick) :
tame self
  (pull_tasks_body pickle_dumps pickle_loads ready_worker_count register_worker
     put_worker remove_worker spin_up_workers spin_down_workers
     get_next_worker_q get_worker_counts get_worker naive_scheduler tk).
Proof.
unfold pull_tasks_body, receive_and_dispatch.
apply tame_bind; [apply tame_gets|intros pending].
apply tame_bind; [apply tame_on_self, tame_on_worker_map|intros ready].
apply tame_bind; [apply tame_heartbeat_check|intros _].
apply tame_bind; [apply tame_request_tasks|intros _].
apply tame_bind.
{ destruct (funcx_task_socket_in tk);
    [apply tame_handle_worker_message | apply tame_ret]. }
intros _.
apply tame_bind; [apply tame_spin_up|intros _].
apply tame_bind.
{ destruct (task_incoming_in tk);
    [apply tame_handle_task_incoming | apply tame_no_incoming_tasks]. }
intros [|]; [|apply tame_ret].
apply tame_bind; [apply tame_schedule|intros _].
apply tame_bind; [apply tame_on_self, tame_match_tasks|intros _].
apply tame_ret.
Qed.

Lemma tame_pull_tasks_loop (ticks : list Tick) :
tame self
  (pull_tasks_loop pickle_dumps pickle_loads ready_worker_count register_worker
     put_worker remove_worker spin_up_workers spin_down_workers
     get_next_worker_q get_worker_counts get_worker naive_scheduler ticks).
Proof.
induction ticks as [|tk ticks IH]; simpl.
- apply tame_ret.
- apply tame_bind; [apply tame_gets|].
  intros [|]; [apply tame_ret|].
  apply tame_bind; [apply tame_pull_tasks_body|].
  intros [|]; [exact IH | apply tame_ret].
Qed.

Lemma pull_tasks_uplink (reg_msg : bytes) (t0 t1 : Q) (ticks : list Tick)
    (m : Manager) :
config (snd (pull_tasks pickle_dumps pickle_loads ready_worker_count
               register_worker put_worker remove_worker spin_up_workers
               spin_down_workers get_next_worker_q get_worker_counts
               get_worker naive_scheduler reg_msg t0 t1 ticks m))
  = config m /\
exists frames,
  uplink_sends (trace (snd
    (pull_tasks pickle_dumps pickle_loads ready_worker_count
       register_worker put_worker remove_worker spin_up_workers
       spin_down_workers get_next_worker_q get_worker_counts get_worker
       naive_scheduler reg_msg t0 t1 ticks m)))
    = uplink_sends (trace m) ++ reg_msg :: frames /\
  Forall (fun frame => length frame = 4%nat) frames.
Proof.
unfold pull_tasks, bind, task_incoming_send, record_event, modify. simpl.
match goal with |- context [pull_tasks_loop _ _ _ _ _ _ _ _ _ _ _ _ ticks ?s0] =>
  pose proof (tame_pull_tasks_loop ticks s0) as H; set (s := s0) in * end.
destruct (pull_tasks_loop _ _ _ _ _ _ _ _ _ _ _ _ ticks s) as [r s'].
simpl in *. destruct H as (Hc & frames & Hu & Hf).
split; [exact Hc|]. exists frames. split; [|exact Hf].
rewrite Hu, uplink_sends_app. simpl. rewrite <- app_assoc. reflexivity.
Qed.

(** X7. A run of [pull_tasks] sends to the Interchange first the
  registration message, as one frame, and after it frames of exactly four
  bytes only (heartbeats and requests for tasks), whatever it receives and
  however it ends. *)
Theorem pull_tasks_frames (reg_msg : bytes) (t0 t1 : Q) (ticks : list Tick)
      (m : Manager) :
exists frames,
  uplink_sends (trace (snd
    (pull_tasks pickle_dumps pickle_loads ready_worker_count
       register_worker put_worker remove_worker spin_up_workers
       spin_down_workers get_next_worker_q get_worker_counts get_worker
       naive_scheduler reg_msg t0 t1 ticks m)))
    = uplink_sends (trace m) ++ reg_msg :: frames /\
  Forall (fun frame => length frame = 4%nat) frames.
Proof. apply pull_tasks_uplink. Qed.

End TameLoop.

(** ** No task is lost *)

Section Custody.

Variable pickle_dumps : task_id_t -> bytes.
Variable pickle_loads : bytes -> result pyobj.
Variable WorkerMap_init : Z -> WorkerMap.
Variable add_worker : string -> string -> M WorkerMap unit.
Variable ready_worker_count : M WorkerMap Z.
Variable register_worker : bytes -> string -> M WorkerMap unit.
Variable put_worker : bytes -> M WorkerMap unit.
Variable remove_worker : bytes -> M WorkerMap unit.
Variable spin_up_workers : list string -> M WorkerMap (Z * list string).
Variable spin_down_workers : gmap string Z -> M WorkerMap (list string).
Variable get_next_worker_q : gmap string Z -> M WorkerMap (list string).
Variable get_worker_counts : M WorkerMap (list (string * Z)).
Variable get_worker : string -> M WorkerMap bytes.
Variable naive_scheduler :
gmap string (list Task) -> Z -> option (gmap string Z) -> gmap string Z ->
result (option (gmap string Z)).

Lemma start_balanced (reg_msg : bytes) (t0 t1 : Q) (ticks : list Tick)
    (m m' : Manager) :
trace m = [] ->
start pickle_dumps pickle_loads add_worker ready_worker_count register_worker
  put_worker remove_worker spin_up_workers spin_down_workers get_next_worker_q
  get_worker_counts get_worker naive_scheduler reg_msg t0 t1 ticks m
  = (Ok tt, m') ->
balanced m'.
Proof.
intros Ht Hrun.
set (m1 := set_task_queues {[ "RAW"%string := [] ]} m).
assert (balanced m1) as Hb1.
{ intros t. unfold queue, m1. simpl. rewrite Ht. simpl.
  destruct (decide (t = "RAW"%string)) as [->|Hne].
  - rewrite lookup_singleton_eq. reflexivity.
  - rewrite lookup_singleton_ne by congruence. reflexivity. }
assert (keeps_fifo (fun m => m)
  (do counter <- gets (fun m => worker_counter (worker_map m));
   on_worker_map (add_worker (py_str counter) "RAW");;
   on_worker_map (modify (fun w => set_worker_counter (worker_counter w + 1) w));;
   on_worker_map (modify (fun w => set_pending_workers (pending_workers w + 1) w));;
   modify (set_kill_event false);;
   pull_tasks pickle_dumps pickle_loads ready_worker_count register_worker
     put_worker remove_worker spin_up_workers spin_down_workers
     get_next_worker_q get_worker_counts get_worker naive_scheduler
     reg_msg t0 t1 ticks)) as Hk.
{ apply keeps_fifo_bind; [apply untouched_keeps_fifo, untouched_gets|intros c].
  apply keeps_fifo_bind;
    [apply untouched_keeps_fifo, untouched_on_worker_map|intros _].
  apply keeps_fifo_bind;
    [apply untouched_keeps_fifo, untouched_on_worker_map|intros _].
  apply keeps_fifo_bind;
    [apply untouched_keeps_fifo, untouched_on_worker_map|intros _].
  apply keeps_fifo_bind;
    [apply untouched_keeps_fifo, untouched_set_kill_event|intros _].
  apply keeps_fifo_pull_tasks. }
specialize (Hk m1 Hb1).
change (start pickle_dumps pickle_loads add_worker ready_worker_count
          register_worker put_worker remove_worker spin_up_workers
          spin_down_workers get_next_worker_q get_worker_counts get_worker
          naive_scheduler reg_msg t0 t1 ticks m)
  with ((do counter <- gets (fun m => worker_counter (worker_map m));
   on_worker_map (add_worker (py_str counter) "RAW");;
   on_worker_map (modify (fun w => set_worker_counter (worker_counter w + 1) w));;
   on_worker_map (modify (fun w => set_pending_workers (pending_workers w + 1) w));;
   modify (set_kill_event false);;
   pull_tasks pickle_dumps pickle_loads ready_worker_count register_worker
     put_worker remove_worker spin_up_workers spin_down_workers
     get_next_worker_q get_worker_counts get_worker naive_scheduler
     reg_msg t0 t1 ticks) m1) in Hrun.
rewrite Hrun in Hk. exact Hk.
Qed.

(** X9. No task is lost or duplicated in the custody of the Manager: when
  [start] ends without an exception, then for every type the tasks sent
  to workers, followed by the tasks still in the queue, are the tasks put
  on the queue (from the Interchange, or KILL sentinels), in that order and
  each once. *)
Theorem no_task_lost (max_queue_size_arg worker_count_ heartbeat_threshold_
                    heartbeat_period_ poll_period_ : Z)
      (reg_msg : bytes) (t0 t1 : Q) (ticks : list Tick) (m' : Manager)
      (t : string) :
start pickle_dumps pickle_loads add_worker ready_worker_count register_worker
  put_worker remove_worker spin_up_workers spin_down_workers get_next_worker_q
  get_worker_counts get_worker naive_scheduler reg_msg t0 t1 ticks
  (Manager_init WorkerMap_init max_queue_size_arg worker_count_
     heartbeat_threshold_ heartbeat_period_ poll_period_)
  = (Ok tt, m') ->
dispatches t (trace m') ++ queue t m' = puts t (trace m').
Proof.
intros Hrun.
refine (start_balanced reg_msg t0 t1 ticks _ m' _ Hrun t). reflexivity.
Qed.

End Custody.

Lemma no_task_lost_witness :
  start Demo.dumps Demo.loads SpecWorkerMap.add_worker
    SpecWorkerMap.ready_worker_count SpecWorkerMap.register_worker
    SpecWorkerMap.put_worker SpecWorkerMap.remove_worker
    SpecWorkerMap.spin_up_workers SpecWorkerMap.spin_down_workers
    SpecWorkerMap.get_next_worker_q SpecWorkerMap.get_worker_counts
    SpecWorkerMap.get_worker SpecWorkerMap.no_plan
    (list_byte_of_string "{}") 0 0 [Demo.tick_1]
    (Manager_init SpecWorkerMap.init 10 4 120 30 100)
    = (Ok tt, self (Demo.after [Demo.tick_1])) /\
  dispatches "RAW" (trace (self (Demo.after [Demo.tick_1])))
    ++ queue "RAW" (self (Demo.after [Demo.tick_1]))
    = [Demo.task_a; Demo.task_b].
Proof.
  assert (start Demo.dumps Demo.loads SpecWorkerMap.add_worker
    SpecWorkerMap.ready_worker_count SpecWorkerMap.register_worker
    SpecWorkerMap.put_worker SpecWorkerMap.remove_worker
    SpecWorkerMap.spin_up_workers SpecWorkerMap.spin_down_workers
    SpecWorkerMap.get_next_worker_q SpecWorkerMap.get_worker_counts
    SpecWorkerMap.get_worker SpecWorkerMap.no_plan
    (list_byte_of_string "{}") 0 0 [Demo.tick_1]
    (Manager_init SpecWorkerMap.init 10 4 120 30 100)
    = (Ok tt, self (Demo.after [Demo.tick_1]))) as H
    by (vm_compute; reflexivity).
  split; [exact H|].
  rewrite (no_task_lost Demo.dumps Demo.loads SpecWorkerMap.init
             SpecWorkerMap.add_worker SpecWorkerMap.ready_worker_count
             SpecWorkerMap.register_worker SpecWorkerMap.put_worker
             SpecWorkerMap.remove_worker SpecWorkerMap.spin_up_workers
             SpecWorkerMap.spin_down_workers SpecWorkerMap.get_next_worker_q
             SpecWorkerMap.get_worker_counts SpecWorkerMap.get_worker
             SpecWorkerMap.no_plan 10 4 120 30 100 (list_byte_of_string "{}")
             0 0 [Demo.tick_1] _ "RAW" H).
  vm_compute. reflexivity.
Defined.

(** ** The messages of the workers *)

Section WorkerMessages.

Variable pickle_loads : bytes -> result pyobj.
Variable register_worker : bytes -> string -> M WorkerMap unit.
Variable put_worker : bytes -> M WorkerMap unit.
Variable remove_worker : bytes -> M WorkerMap unit.

Lemma handle_worker_message_beside (frames : list bytes) (s : St) :
fst (handle_worker_message pickle_loads register_worker put_worker
       remove_worker frames s) = Ok tt /\
beside_workers (snd (handle_worker_message pickle_loads register_worker
                       put_worker remove_worker frames s))
  = beside_workers s.
Proof.
unfold handle_worker_message, try_except.
destruct frames as [|w_id [|m_type [|message [|f fs]]]];
  try (split; reflexivity).
destruct (decide (m_type = b_REGISTER)) as [Hreg|Hreg].
{ unfold bind, lift, on_self, on_worker_map, zoom, modify.
  destruct (pickle_loads message) as [reg_info|e]; [|split; reflexivity].
  destruct (reg_info_worker_type reg_info) as [ty|e]; simpl;
    [|split; reflexivity].
  destruct (register_worker w_id ty _) as [[u|e] w']; split; reflexivity. }
destruct (decide (m_type = b_TASK_RET)) as [Hret|Hret].
{ unfold bind, lift, on_self, on_worker_map, zoom, modify, upd_loc. simpl.
  destruct (put_worker w_id _) as [[u|e] w']; split; reflexivity. }
destruct (decide (m_type = b_WRKR_DIE)) as [Hdie|Hdie]; [|split; reflexivity].
unfold on_self, on_worker_map, zoom. simpl.
destruct (remove_worker w_id _) as [[u|e] w']; split; reflexivity.
Qed.

(** X10. Whatever a worker sends, well formed or not, and whatever the
  methods of the worker map do, the handling of the message lets no
  exception out, and changes nothing but the worker map, the queue of
  pending results and [task_done_counter]: the task queues, the
  configuration, the kill flag, what was sent, the poll timer and the other
  counters are as before. *)
Theorem worker_message_contained (frames : list bytes) (s : St) :
exists w q d,
  handle_worker_message pickle_loads register_worker put_worker remove_worker
    frames s =
  (Ok tt,
   {| self := {| config := config (self s);
                 worker_map := w;
                 task_queues := task_queues (self s);
                 pending_result_queue := q;
                 next_worker_q := next_worker_q (self s);
                 kill_event := kill_event (self s);
                 trace := trace (self s) |};
      loc := {| last_beat := last_beat (loc s);
                last_interchange_contact := last_interchange_contact (loc s);
                task_recv_counter := task_recv_counter (loc s);
                task_done_counter := d;
                poll_timer := poll_timer (loc s);
                new_worker_map := new_worker_map (loc s) |} |}).
Proof.
destruct (handle_worker_message_beside frames s) as [Hok Hb].
destruct (handle_worker_message pickle_loads register_worker put_worker
            remove_worker frames s) as [r s'].
simpl in Hok, Hb. subst r.
exists (worker_map (self s')), (pending_result_queue (self s')),
       (task_done_counter (loc s')).
destruct s' as [[] []], s as [[] []]. unfold beside_workers in Hb.
simpl in *. inversion Hb. reflexivity.
Qed.

(** X11. The result that comes with a TASK_RET frame is put on the queue of
  pending results in every case, also when [put_worker] raises;
  [task_done_counter] is incremented only when [put_worker] returns, so
  that after an exception of [put_worker] the result is forwarded while
  the count of tasks done misses it. *)
Theorem task_ret_forwarded (w_id message : bytes) (s : St) :
handle_worker_message pickle_loads register_worker put_worker remove_worker
  [w_id; b_TASK_RET; message] s =
(Ok tt,
 {| self := set_worker_map (snd (put_worker w_id (worker_map (self s))))
              (set_pending_result_queue
                 (pending_result_queue (self s) ++ [message]) (self s));
    loc := match fst (put_worker w_id (worker_map (self s))) with
           | Ok _ => set_task_done_counter (task_done_counter (loc s) + 1) (loc s)
           | Raise _ => loc s
           end |}).
Proof.
unfold handle_worker_message, try_except.
destruct (decide (b_TASK_RET = b_REGISTER)) as [E|_]; [discriminate E|].
destruct (decide (b_TASK_RET = b_TASK_RET)) as [_|E]; [|contradiction].
unfold bind, lift, on_self, on_worker_map, zoom, modify, upd_loc. simpl.
destruct (put_worker w_id _) as [[u|e] w']; reflexivity.
Qed.

(** X12. A message of a worker that does not have exactly three frames, or
  whose type is none of [REGISTER], [TASK_RET] and [WRKR_DIE], changes
  nothing at all and raises nothing. *)
Theorem worker_message_ignored (frames : list bytes) (s : St) :
match frames with
| [_; m_type; _] =>
    m_type <> b_REGISTER /\ m_type <> b_TASK_RET /\ m_type <> b_WRKR_DIE
| _ => True
end ->
handle_worker_message pickle_loads register_worker put_worker remove_worker
  frames s = (Ok tt, s).
Proof.
intros H. unfold handle_worker_message, try_except.
destruct frames as [|w_id [|m_type [|message [|f fs]]]]; try reflexivity.
destruct H as (H1 & H2 & H3).
destruct (decide (m_type = b_REGISTER)); [contradiction|].
destruct (decide (m_type = b_TASK_RET)); [contradiction|].
destruct (decide (m_type = b_WRKR_DIE)); [contradiction|].
reflexivity.
Qed.

End WorkerMessages.

Lemma worker_message_ignored_witness :
  (list_byte_of_string "PING" <> b_REGISTER /\
   list_byte_of_string "PING" <> b_TASK_RET /\
   list_byte_of_string "PING" <> b_WRKR_DIE) /\
  handle_worker_message Demo.loads SpecWorkerMap.register_worker
    SpecWorkerMap.put_worker SpecWorkerMap.remove_worker
    [Demo.worker_0; list_byte_of_string "PING"; []] (Demo.state 100)
    = (Ok tt, Demo.state 100).
Proof.
  assert (list_byte_of_string "PING" <> b_REGISTER /\
          list_byte_of_string "PING" <> b_TASK_RET /\
          list_byte_of_string "PING" <> b_WRKR_DIE) as H
    by (repeat split; discriminate).
  split; [exact H|].
  exact (worker_message_ignored Demo.loads SpecWorkerMap.register_worker
           SpecWorkerMap.put_worker SpecWorkerMap.remove_worker
           [Demo.worker_0; list_byte_of_string "PING"; []] (Demo.state 100) H).
Defined.

(** ** The batches of the Interchange *)

Lemma route_task_queue (task : Task) (t0 t : string) (m : Manager) :
  task_type_of task = Ok t0 ->
  fst (route_task task m) = Ok tt /\
  queue t (snd (route_task task m))
    = queue t m ++ (if decide (t0 = t) then [task] else []).
Proof.
  intros Ht. rewrite route_task_run, Ht. simpl. split; [reflexivity|].
  unfold queue at 1. simpl.
  destruct (decide (t0 = t)) as [->|Hne].
  - rewrite lookup_insert_eq. reflexivity.
  - rewrite lookup_insert_ne by exact Hne. rewrite app_nil_r.
    unfold queue. destruct (task_queues m !! t0); reflexivity.
Qed.

Lemma tasks_of_type_app (t : string) (ts ts' : list Task) :
  tasks_of_type t (ts ++ ts') = tasks_of_type t ts ++ tasks_of_type t ts'.
Proof. apply omap_app. Qed.

(** A batch of which the first tasks, [good], have a type: they are put on
    their queues in order, and the handling goes on with the rest. *)
Lemma route_good_tasks (good rest : list Task) (m : Manager) :
  Forall typed good ->
  exists m1,
    for_each (good ++ rest) route_task m = for_each rest route_task m1 /\
    forall t, queue t m1 = queue t m ++ tasks_of_type t good.
Proof.
  revert m. induction good as [|task good IH]; intros m Hg.
  - exists m. split; [reflexivity|]. intros t. simpl. rewrite app_nil_r. reflexivity.
  - inversion Hg as [|? ? [t0 Ht0] Hg']; subst.
    destruct (IH (snd (route_task task m)) Hg') as (m1 & Hrun & Hq).
    exists m1. split.
    + simpl. unfold bind at 1.
      pose proof (proj1 (route_task_queue task t0 t0 m Ht0)) as Hok.
      destruct (route_task task m) as [[u|e] m2]; simpl in *; [|discriminate].
      exact Hrun.
    + intros t. rewrite Hq.
      rewrite (proj2 (route_task_queue task t0 t m Ht0)).
      unfold tasks_of_type at 2. simpl. rewrite Ht0.
      destruct (decide (t0 = t)); simpl; rewrite <- app_assoc; reflexivity.
Qed.

Section Batches.

Variable pickle_loads : bytes -> result pyobj.

Lemma handle_batch_run (ident pkl_msg : bytes) (ts : list Task) (now : Q) (s : St) :
pickle_loads pkl_msg = Ok (PyTasks ts) ->
handle_task_incoming pickle_loads [ident; pkl_msg] now s =
  match for_each ts route_task (self s) with
  | (r, m') =>
      (match r with Ok _ => Ok Continue | Raise e => Raise e end,
       {| self := m';
          loc := set_task_recv_counter
                   (task_recv_counter (loc s) + Z.of_nat (length ts))
                   (set_last_interchange_contact now
                      (set_poll_timer 0 (loc s))) |})
  end.
Proof.
intros Hl. unfold handle_task_incoming, bind, lift, upd_loc, modify. simpl.
rewrite Hl. simpl.
destruct (decide (PyTasks ts = PyStr "STOP")) as [E|_]; [discriminate E|].
destruct (decide (PyTasks ts = PyInt HEARTBEAT_CODE)) as [E|_]; [discriminate E|].
simpl. unfold on_self, zoom. simpl.
destruct (for_each ts route_task (self s)) as [[u|e] m']; reflexivity.
Qed.

(** X13. A batch of tasks that all have a type is taken whole: the handler
  returns and the loop goes on, [task_recv_counter] grows by the size of
  the batch, and each task queue receives at its tail the tasks of its
  type, in the order of the batch; the poll timer is [0] and
  [last_interchange_contact] the current time. *)
Theorem batch_received (ident pkl_msg : bytes) (ts : list Task) (now : Q)
      (s : St) (t : string) :
pickle_loads pkl_msg = Ok (PyTasks ts) ->
Forall typed ts ->
fst (handle_task_incoming pickle_loads [ident; pkl_msg] now s) = Ok Continue /\
queue t (self (snd (handle_task_incoming pickle_loads [ident; pkl_msg] now s)))
  = queue t (self s) ++ tasks_of_type t ts /\
task_recv_counter (loc (snd (handle_task_incoming pickle_loads
                               [ident; pkl_msg] now s)))
  = task_recv_counter (loc s) + Z.of_nat (length ts) /\
poll_timer (loc (snd (handle_task_incoming pickle_loads
                        [ident; pkl_msg] now s))) = 0 /\
last_interchange_contact (loc (snd (handle_task_incoming pickle_loads
                                      [ident; pkl_msg] now s))) = now.
Proof.
intros Hl Hts. rewrite (handle_batch_run _ _ _ _ _ Hl).
destruct (route_good_tasks ts [] (self s) Hts) as (m1 & Hrun & Hq).
rewrite app_nil_r in Hrun. rewrite Hrun. simpl.
repeat split. apply Hq.
Qed.

(** X14. A batch with a task whose type cannot be derived (no [';'] in its
  id) is taken in part: the tasks before it are on their queues, the task
  itself and those after it are on no queue, the exception of the
  derivation leaves the handler, and [task_recv_counter] has grown by the
  size of the whole batch all the same. *)
Theorem batch_cut_short (ident pkl_msg : bytes) (good rest : list Task)
      (bad : Task) (e : exn) (now : Q) (s : St) (t : string) :
pickle_loads pkl_msg = Ok (PyTasks (good ++ bad :: rest)) ->
Forall typed good ->
task_type_of bad = Raise e ->
fst (handle_task_incoming pickle_loads [ident; pkl_msg] now s) = Raise e /\
queue t (self (snd (handle_task_incoming pickle_loads [ident; pkl_msg] now s)))
  = queue t (self s) ++ tasks_of_type t good /\
task_recv_counter (loc (snd (handle_task_incoming pickle_loads
                               [ident; pkl_msg] now s)))
  = task_recv_counter (loc s) + Z.of_nat (length (good ++ bad :: rest)).
Proof.
intros Hl Hg Hbad. rewrite (handle_batch_run _ _ _ _ _ Hl).
destruct (route_good_tasks good (bad :: rest) (self s) Hg) as (m1 & Hrun & Hq).
rewrite Hrun.
change (for_each (bad :: rest) route_task m1)
  with (bind (route_task bad) (fun _ => for_each rest route_task) m1).
unfold bind. rewrite route_task_run, Hbad. simpl.
repeat split. apply Hq.
Qed.

End Batches.

Lemma batch_received_witness :
  Demo.loads Demo.payload_batch = Ok (PyTasks [Demo.task_a; Demo.task_b]) /\
  Forall typed [Demo.task_a; Demo.task_b] /\
  queue "RAW" (self (snd (handle_task_incoming Demo.loads
                            [[]; Demo.payload_batch] 5 (Demo.state 100))))
    = [Demo.task_a; Demo.task_b].
Proof.
  assert (Demo.loads Demo.payload_batch = Ok (PyTasks [Demo.task_a; Demo.task_b]))
    as H1 by reflexivity.
  assert (Forall typed [Demo.task_a; Demo.task_b]) as H2
    by (repeat constructor; exists "RAW"%string; reflexivity).
  split; [exact H1|]. split; [exact H2|].
  destruct (batch_received Demo.loads [] Demo.payload_batch
              [Demo.task_a; Demo.task_b] 5 (Demo.state 100) "RAW" H1 H2)
    as (_ & Hq & _).
  rewrite Hq. reflexivity.
Defined.

Lemma batch_cut_short_witness :
  Cases.loads_cut [] = Ok (PyTasks ([Demo.task_a] ++ Cases.task_untyped :: [Demo.task_b])) /\
  Forall typed [Demo.task_a] /\
  task_type_of Cases.task_untyped = Raise IndexError /\
  fst (handle_task_incoming Cases.loads_cut [[]; []] 5 (Demo.state 100))
    = Raise IndexError /\
  queue "RAW" (self (snd (handle_task_incoming Cases.loads_cut [[]; []] 5
                            (Demo.state 100)))) = [Demo.task_a] /\
  task_recv_counter (loc (snd (handle_task_incoming Cases.loads_cut [[]; []] 5
                                 (Demo.state 100)))) = 3.
Proof.
  assert (Cases.loads_cut []
          = Ok (PyTasks ([Demo.task_a] ++ Cases.task_untyped :: [Demo.task_b])))
    as H1 by reflexivity.
  assert (Forall typed [Demo.task_a]) as H2
    by (repeat constructor; exists "RAW"%string; reflexivity).
  assert (task_type_of Cases.task_untyped = Raise IndexError) as H3 by reflexivity.
  split; [exact H1|]. split; [exact H2|]. split; [exact H3|].
  destruct (batch_cut_short Cases.loads_cut [] [] [Demo.task_a] [Demo.task_b]
              Cases.task_untyped IndexError 5 (Demo.state 100) "RAW" H1 H2 H3)
    as (Hr & Hq & Hc).
  split; [exact Hr|]. split; [rewrite Hq; reflexivity|]. rewrite Hc. reflexivity.
Defined.

(** ** The matching of tasks to workers *)

Lemma allowance_slots (counts : list (string * Z)) :
  allowance "slots" counts = 0%nat.
Proof.
  unfold allowance. induction counts as [|entry counts IH]; [reflexivity|].
  simpl. rewrite IH.
  destruct (decide (fst entry = "slots"%string)); reflexivity.
Qed.

Section Matching.

Variable get_worker_counts : M WorkerMap (list (string * Z)).
Variable get_worker : string -> M WorkerMap bytes.

(** One step of the matching sends at most one task, of its own type, and
  puts nothing on any queue. *)
Lemma match_task_sends (t t' : string) (m : Manager) :
(length (dispatches t' (trace (snd (match_task get_worker t m))))
 <= length (dispatches t' (trace m)) + (if decide (t = t') then 1 else 0))%nat /\
puts t' (trace (snd (match_task get_worker t m))) = puts t' (trace m).
Proof.
unfold match_task, bind, gets. simpl.
destruct (task_queues m !! t) as [[|task rest]|]; simpl; try (split; [lia|reflexivity]).
destruct (subscript (worker_queues (worker_map m)) t) as [[|w ws]|e]; simpl;
  try (split; [lia|reflexivity]).
unfold on_worker_map, zoom, modify. simpl.
destruct (get_worker t (worker_map m)) as [[wid|e] w']; simpl;
  [|split; [lia|reflexivity]].
rewrite dispatches_app, puts_app, length_app. simpl.
rewrite app_nil_r. split; [|reflexivity].
destruct (decide (t = t')); simpl; lia.
Qed.

Lemma repeat_match_task_sends (n : nat) (t t' : string) (m : Manager) :
(length (dispatches t' (trace (snd (repeat_n n (match_task get_worker t) m))))
 <= length (dispatches t' (trace m)) + (if decide (t = t') then n else 0))%nat /\
puts t' (trace (snd (repeat_n n (match_task get_worker t) m))) = puts t' (trace m).
Proof.
revert m. induction n as [|n IH]; intros m; simpl.
- split; [destruct (decide (t = t')); lia | reflexivity].
- unfold bind.
  pose proof (match_task_sends t t' m) as [H1 H2].
  destruct (match_task get_worker t m) as [[u|e] m1]; simpl in *.
  + destruct (IH m1) as [H3 H4]. split; [|congruence].
    destruct (decide (t = t')); lia.
  + split; [|exact H2]. destruct (decide (t = t')); lia.
Qed.

Lemma match_entries_sends (counts : list (string * Z)) (t' : string) (m : Manager) :
(length (dispatches t' (trace (snd
   (for_each counts (fun entry =>
      if decide (fst entry = "slots"%string) then ret tt
      else repeat_n (Z.to_nat (snd entry)) (match_task get_worker (fst entry))) m))))
 <= length (dispatches t' (trace m)) + allowance t' counts)%nat /\
puts t' (trace (snd
   (for_each counts (fun entry =>
      if decide (fst entry = "slots"%string) then ret tt
      else repeat_n (Z.to_nat (snd entry)) (match_task get_worker (fst entry))) m)))
= puts t' (trace m).
Proof.
revert m. induction counts as [|entry counts IH]; intros m.
- simpl. split; [lia|reflexivity].
- unfold allowance. simpl. fold (allowance t' counts). unfold bind.
  destruct (decide (fst entry = "slots"%string)) as [Hs|Hs].
  + simpl. destruct (IH m) as [H1 H2]. split; [|exact H2].
    destruct (decide (fst entry = t')); lia.
  + pose proof (repeat_match_task_sends (Z.to_nat (snd entry)) (fst entry) t' m)
      as [H1 H2].
    destruct (repeat_n _ _ m) as [[u|e] m1]; simpl in *.
    * destruct (IH m1) as [H3 H4]. split; [|congruence].
      destruct (decide (fst entry = t')); lia.
    * split; [|exact H2]. destruct (decide (fst entry = t')); lia.
Qed.

(** X15. One pass of the matching sends, for every type, no more tasks than
  the count that [get_worker_counts] returned for that type; it sends
  none for the entry ["slots"], and it puts no task on any queue. *)
Theorem matching_bounded (counts : list (string * Z)) (w : WorkerMap)
      (m : Manager) (t : string) :
get_worker_counts (worker_map m) = (Ok counts, w) ->
(length (dispatches t (trace (snd (match_tasks get_worker_counts get_worker m))))
 <= length (dispatches t (trace m)) + allowance t counts)%nat /\
allowance "slots" counts = 0%nat /\
puts t (trace (snd (match_tasks get_worker_counts get_worker m)))
  = puts t (trace m).
Proof.
intros Hc.
pose proof (allowance_slots counts) as Hslots.
unfold match_tasks, bind, on_worker_map, zoom. rewrite Hc.
cbv beta iota.
destruct (match_entries_sends counts t (set_worker_map w m)) as [H1 H2].
split; [exact H1|]. split; [exact Hslots|]. exact H2.
Qed.

End Matching.

Lemma matching_bounded_witness :
  SpecWorkerMap.get_worker_counts (worker_map Cases.loaded)
    = (Ok [("RAW"%string, 1)], worker_map Cases.loaded) /\
  (length (dispatches "RAW" (trace (snd
     (match_tasks SpecWorkerMap.get_worker_counts SpecWorkerMap.get_worker
        Cases.loaded))))
   <= length (dispatches "RAW" (trace Cases.loaded))
      + allowance "RAW" [("RAW"%string, 1%Z)])%nat /\
  queue "RAW" Cases.loaded = [Demo.task_a; Demo.task_b] /\
  queue "RAW" (snd (match_tasks SpecWorkerMap.get_worker_counts
                      SpecWorkerMap.get_worker Cases.loaded)) = [Demo.task_b].
Proof.
  assert (SpecWorkerMap.get_worker_counts (worker_map Cases.loaded)
          = (Ok [("RAW"%string, 1)], worker_map Cases.loaded)) as H
    by (vm_compute; reflexivity).
  split; [exact H|].
  split; [|split; vm_compute; reflexivity].
  exact (proj1 (matching_bounded SpecWorkerMap.get_worker_counts
                  SpecWorkerMap.get_worker [("RAW"%string, 1)]
                  (worker_map Cases.loaded) Cases.loaded "RAW" H)).
Defined.

(** ** The two kinds of frames, and the format of a task id *)

Lemma to_bytes_little_inj (len : nat) (a b : Z) (frame : bytes) :
  to_bytes_little len a = Ok frame -> to_bytes_little len b = Ok frame -> a = b.
Proof.
  unfold to_bytes_little.
  destruct ((a <? 0) || (2 ^ (8 * Z.of_nat len) <=? a)) eqn:Ea; [discriminate|].
  destruct ((b <? 0) || (2 ^ (8 * Z.of_nat len) <=? b)) eqn:Eb; [discriminate|].
  apply orb_false_iff in Ea, Eb.
  destruct Ea as [Ea1 Ea2], Eb as [Eb1 Eb2].
  apply Z.ltb_ge in Ea1, Eb1. apply Z.leb_gt in Ea2, Eb2.
  intros Ha Hb. inversion Ha as [Ha']. inversion Hb as [Hb'].
  rewrite <- (le_value_le_digits len a), <- (le_value_le_digits len b) by lia.
  rewrite Ha', Hb'. reflexivity.
Qed.

(** X16. The frame of a request for tasks decodes to the count it carries,
    and two requests with the same frame carry the same count.  A request
    is byte for byte the heartbeat frame exactly when the count of ready
    workers is [0xFFFFFFFF]: for every smaller count the Interchange can
    tell the two apart. *)
Theorem request_frame_decodes (ready : Z) (frame : bytes) :
  to_bytes_little 4 ready = Ok frame ->
  le_value frame = ready /\
  length frame = 4%nat /\
  (to_bytes_little 4 HEARTBEAT_CODE = Ok frame <-> ready = HEARTBEAT_CODE).
Proof.
  intros H. split; [|split].
  - pose proof H as H'. unfold to_bytes_little in H'.
    destruct ((ready <? 0) || (2 ^ (8 * Z.of_nat 4) <=? ready)) eqn:E; [discriminate|].
    apply orb_false_iff in E. destruct E as [E1 E2].
    apply Z.ltb_ge in E1. apply Z.leb_gt in E2.
    injection H' as <-. apply (le_value_le_digits 4 ready). lia.
  - apply (to_bytes_little_length _ _ _ H).
  - split.
    + intros Hh. apply (to_bytes_little_inj 4 ready HEARTBEAT_CODE frame H Hh).
    + intros ->. exact H.
Qed.

Lemma request_frame_decodes_witness :
  to_bytes_little 4 3 = Ok [Byte.x03; Byte.x00; Byte.x00; Byte.x00] /\
  le_value [Byte.x03; Byte.x00; Byte.x00; Byte.x00] = 3.
Proof.
  assert (to_bytes_little 4 3 = Ok [Byte.x03; Byte.x00; Byte.x00; Byte.x00]) as H
    by reflexivity.
  split; [exact H|].
  exact (proj1 (request_frame_decodes 3 _ H)).
Defined.

Lemma after_first_append (sep : ascii) (a b : string) :
  after_first sep a = None ->
  after_first sep (a ++ String sep b)%string = Some b.
Proof.
  induction a as [|c a IH]; simpl.
  - intros _. rewrite Ascii.eqb_refl. reflexivity.
  - destruct (Ascii.eqb c sep); [discriminate|]. exact IH.
Qed.

(** X17. The format of a task id and the derivation of the type agree: for
    an id part and a type without [';'], the task id [id ++ ";" ++ type] is
    routed to [type], whatever the type (the name [RAW] has no special
    role in the derivation). *)
Theorem task_id_format (id ty : string) (payload : bytes) :
  after_first ";" id = None ->
  after_first ";" ty = None ->
  task_type_of {| task_id := IdStr (id ++ String ";" ty); buffer := payload |}
    = Ok ty.
Proof.
  intros Hid Hty.
  rewrite (task_type_of_str
             {| task_id := IdStr (id ++ String ";" ty); buffer := payload |}
             (id ++ String ";" ty)%string eq_refl).
  rewrite (after_first_append ";" id ty Hid).
  rewrite (before_first_all ";" ty Hty). reflexivity.
Qed.

Lemma task_id_format_witness :
  after_first ";" "6d2f" = None /\
  after_first ";" "fft" = None /\
  task_type_of {| task_id := IdStr "6d2f;fft"; buffer := [] |} = Ok "fft"%string.
Proof.
  split; [reflexivity|]. split; [reflexivity|].
  exact (task_id_format "6d2f" "fft" [] eq_refl eq_refl).
Defined.

(** ** The turns that end the loop *)

Lemma settled_refl (s : St) : settled s s.
Proof. repeat split. Qed.

Lemma settled_calm (s0 s : St) : settled s0 s -> calm s0 s.
Proof. intros [H _]. exact H. Qed.

(** A step that keeps [settled], followed by a step that ends the loop. *)
Lemma ends_loop_bind {A} (c : M St A) (k : A -> M St loop_ctl) (s0 s : St) :
  settled s0 s ->
  (forall s, settled s0 s -> settled s0 (snd (c s))) ->
  (forall a s, settled s0 s -> ends_loop s0 (fst (k a s)) (snd (k a s))) ->
  ends_loop s0 (fst (bind c k s)) (snd (bind c k s)).
Proof.
  intros Hs Hc Hk. specialize (Hc s Hs). unfold bind.
  destruct (c s) as [[a|e] s']; simpl in *.
  - apply Hk, Hc.
  - split; [apply settled_calm, Hc | exact I].
Qed.

Lemma settled_same (s0 s s' : St) :
  task_queues (self s') = task_queues (self s) ->
  trace (self s') = trace (self s) ->
  last_interchange_contact (loc s') = last_interchange_contact (loc s) ->
  config (self s') = config (self s) ->
  kill_event (self s') = kill_event (self s) ->
  settled s0 s -> settled s0 s'.
Proof.
  unfold settled, calm. intros -> -> -> -> -> H. exact H.
Qed.

Lemma settled_uplink (s0 s : St) (frame : bytes) (l : Locals) :
  last_interchange_contact l = last_interchange_contact (loc s) ->
  settled s0 s ->
  settled s0 {| self := set_trace (trace (self s) ++ [TaskIncomingSend frame]) (self s);
                loc := l |}.
Proof.
  unfold settled, calm. simpl. intros -> ((Hq & Ht) & Hc & Hh & Hk).
  repeat split; try assumption;
    rewrite ?puts_app, ?dispatches_app; simpl; rewrite app_nil_r; apply Ht.
Qed.

Lemma settled_heartbeat_check (now now' : Q) (s0 s : St) :
  settled s0 s -> settled s0 (snd (heartbeat_check now now' s)).
Proof.
  intros H. rewrite heartbeat_check_run. simpl.
  destruct (Qgtb _ _); [|exact H].
  apply (settled_uplink s0 s _ (set_last_beat now' (loc s)) eq_refl H).
Qed.

Lemma settled_request_tasks (pending ready : Z) (s0 s : St) :
  settled s0 s -> settled s0 (snd (request_tasks pending ready s)).
Proof.
  intros H. unfold request_tasks, bind, gets, lift. simpl.
  destruct (_ && _); [|exact H].
  destruct (to_bytes_little 4 ready) as [msg|e]; simpl; [|exact H].
  apply (settled_uplink s0 s msg (loc s) eq_refl H).
Qed.

Section EndingTurns.

Variable pickle_dumps : task_id_t -> bytes.
Variable pickle_loads : bytes -> result pyobj.
Variable ready_worker_count : M WorkerMap Z.
Variable register_worker : bytes -> string -> M WorkerMap unit.
Variable put_worker : bytes -> M WorkerMap unit.
Variable remove_worker : bytes -> M WorkerMap unit.
Variable spin_up_workers : list string -> M WorkerMap (Z * list string).
Variable spin_down_workers : gmap string Z -> M WorkerMap (list string).
Variable get_next_worker_q : gmap string Z -> M WorkerMap (list string).
Variable get_worker_counts : M WorkerMap (list (string * Z)).
Variable get_worker : string -> M WorkerMap bytes.
Variable naive_scheduler :
gmap string (list Task) -> Z -> option (gmap string Z) -> gmap string Z ->
result (option (gmap string Z)).

Abbreviation turn :=
(pull_tasks_body pickle_dumps pickle_loads ready_worker_count register_worker
   put_worker remove_worker spin_up_workers spin_down_workers
   get_next_worker_q get_worker_counts get_worker naive_scheduler).

Abbreviation turns :=
(pull_tasks_loop pickle_dumps pickle_loads ready_worker_count register_worker
   put_worker remove_worker spin_up_workers spin_down_workers
   get_next_worker_q get_worker_counts get_worker naive_scheduler).

Lemma settled_worker_map_call {A} (c : M WorkerMap A) (s0 s : St) :
settled s0 s -> settled s0 (snd (on_self (on_worker_map c) s)).
Proof.
intros H. unfold on_self, on_worker_map, zoom.
destruct (c (worker_map (self s))) as [r w]. exact H.
Qed.

Lemma settled_handle_worker_message (frames : list bytes) (s0 s : St) :
settled s0 s ->
settled s0 (snd (handle_worker_message pickle_loads register_worker put_worker
                   remove_worker frames s)).
Proof.
intros H.
destruct (handle_worker_message_beside pickle_loads register_worker put_worker
            remove_worker frames s) as [_ Hb].
unfold beside_workers in Hb. inversion Hb.
eapply settled_same; [| | | | |exact H]; assumption.
Qed.

Lemma settled_spin_up (s0 s : St) :
settled s0 s -> settled s0 (snd (spin_up spin_up_workers s)).
Proof.
intros H. unfold spin_up, bind, gets, on_self, on_worker_map, zoom, modify. simpl.
destruct (spin_up_workers _ _) as [[r|e] w]; exact H.
Qed.

(** A turn ends the loop when the handling of what came, or did not come,
  from the Interchange does. *)
Lemma turn_ends_loop (tk : Tick) (s : St) :
(forall s', settled s s' ->
   ends_loop s
     (fst (match task_incoming_in tk with
           | Some frames => handle_task_incoming pickle_loads frames (now_contact tk)
           | None => no_incoming_tasks (now_silence_check tk)
           end s'))
     (snd (match task_incoming_in tk with
           | Some frames => handle_task_incoming pickle_loads frames (now_contact tk)
           | None => no_incoming_tasks (now_silence_check tk)
           end s'))) ->
ends_loop s (fst (turn tk s)) (snd (turn tk s)).
Proof.
intros Hlast. unfold pull_tasks_body.
apply ends_loop_bind; [apply settled_refl | intros s1 H1; exact H1 | intros pending s1 H1].
apply ends_loop_bind;
  [exact H1 | intros s2 H2; apply settled_worker_map_call, H2 | intros ready s2 H2].
apply ends_loop_bind;
  [exact H2 | intros s3 H3; apply settled_heartbeat_check, H3 | intros _ s3 H3].
apply ends_loop_bind;
  [exact H3 | intros s4 H4; apply settled_request_tasks, H4 | intros _ s4 H4].
unfold receive_and_dispatch.
apply ends_loop_bind; [exact H4 | | intros _ s5 H5].
{ intros s5 H5. destruct (funcx_task_socket_in tk);
    [apply settled_handle_worker_message, H5 | exact H5]. }
apply ends_loop_bind;
  [exact H5 | intros s6 H6; apply settled_spin_up, H6 | intros _ s6 H6].
specialize (Hlast s6 H6). unfold bind.
destruct (task_incoming_in tk) as [frames|].
- destruct (handle_task_incoming pickle_loads frames (now_contact tk) s6)
    as [[[|]|e] s7]; simpl in *; try exact Hlast.
  destruct Hlast as (_ & Hctl & _). discriminate Hctl.
- destruct (no_incoming_tasks (now_silence_check tk) s6)
    as [[[|]|e] s7]; simpl in *; try exact Hlast.
  destruct Hlast as (_ & Hctl & _). discriminate Hctl.
Qed.

(** When a turn ends the loop, what is read after it is ignored. *)
Lemma turns_stop (tk : Tick) (rest : list Tick) (s : St) :
ends_loop s (fst (turn tk s)) (snd (turn tk s)) ->
turns (tk :: rest) s = turns [tk] s.
Proof.
intros H. simpl. unfold bind, gets. simpl.
destruct (kill_event (self s)); [reflexivity|].
destruct (turn tk s) as [[[|]|e] s']; simpl in *; try reflexivity.
destruct H as (_ & Hctl & _). discriminate Hctl.
Qed.

Lemma handle_stop_run (ident pkl_msg : bytes) (now : Q) (s : St) :
pickle_loads pkl_msg = Ok (PyStr "STOP") ->
handle_task_incoming pickle_loads [ident; pkl_msg] now s =
  (Ok Break,
   {| self := set_kill_event true (self s);
      loc := set_last_interchange_contact now (set_poll_timer 0 (loc s)) |}).
Proof.
intros H. unfold handle_task_incoming, bind, lift, upd_loc, modify. simpl.
rewrite H. reflexivity.
Qed.

(** X18. A turn in which the Interchange says ["STOP"] ends the loop:
  if the turn returns, it is with [break] and the kill flag set.  The
  scheduler and the matching are not run in that turn: no task is put on
  a queue, taken from one or sent to a worker, so that the tasks queued
  stay where they are.  Whatever is received after that turn is
  ignored. *)
Theorem stop_ends_loop (tk : Tick) (rest : list Tick) (ident pkl_msg : bytes)
      (s : St) (t : string) :
task_incoming_in tk = Some [ident; pkl_msg] ->
pickle_loads pkl_msg = Ok (PyStr "STOP") ->
match fst (turn tk s) with
| Ok ctl => ctl = Break /\ kill_event (self (snd (turn tk s))) = true
| Raise _ => True
end /\
task_queues (self (snd (turn tk s))) = task_queues (self s) /\
dispatches t (trace (self (snd (turn tk s)))) = dispatches t (trace (self s)) /\
turns (tk :: rest) s = turns [tk] s.
Proof.
intros Hin Hstop.
assert (ends_loop s (fst (turn tk s)) (snd (turn tk s))) as H.
{ apply turn_ends_loop. intros s' Hs'. rewrite Hin.
  rewrite (handle_stop_run _ _ _ _ Hstop). simpl.
  split; [|split; reflexivity].
  destruct Hs' as ((Hq & Ht) & _). split; [exact Hq | exact Ht]. }
pose proof (turns_stop tk rest s H) as Hrest.
destruct H as ((Hq & Ht) & Hr).
split; [exact Hr|]. split; [exact Hq|]. split; [apply Ht | exact Hrest].
Qed.

Lemma no_incoming_lost_run (now : Q) (s : St) :
(last_interchange_contact (loc s)
 + inject_Z (heartbeat_threshold (config (self s))) < now)%Q ->
exists timer,
  no_incoming_tasks now s =
    (Ok Break,
     {| self := set_kill_event true (self s);
        loc := set_poll_timer timer (loc s) |}).
Proof.
intros H. apply Qgtb_true in H.
unfold no_incoming_tasks, bind, gets, upd_loc, modify, on_self, zoom. simpl.
destruct (poll_timer (loc s) =? 0); simpl; rewrite H; simpl;
  eexists; reflexivity.
Qed.

(** X19. A turn in which nothing comes from the Interchange, at a time
  later than [last_interchange_contact + heartbeat_threshold], ends the
  loop in the same way: [break] with the kill flag set if the turn
  returns, no task put, taken or sent, and the input after it ignored. *)
Theorem silence_ends_loop (tk : Tick) (rest : list Tick) (s : St) (t : string) :
task_incoming_in tk = None ->
(last_interchange_contact (loc s)
 + inject_Z (heartbeat_threshold (config (self s))) < now_silence_check tk)%Q ->
match fst (turn tk s) with
| Ok ctl => ctl = Break /\ kill_event (self (snd (turn tk s))) = true
| Raise _ => True
end /\
task_queues (self (snd (turn tk s))) = task_queues (self s) /\
dispatches t (trace (self (snd (turn tk s)))) = dispatches t (trace (self s)) /\
turns (tk :: rest) s = turns [tk] s.
Proof.
intros Hin Hlate.
assert (ends_loop s (fst (turn tk s)) (snd (turn tk s))) as H.
{ apply turn_ends_loop. intros s' Hs'. rewrite Hin.
  destruct Hs' as ((Hq & Ht) & Hc & Hh & _).
  destruct (no_incoming_lost_run (now_silence_check tk) s') as [timer Hrun].
  { rewrite Hc, Hh. exact Hlate. }
  rewrite Hrun. simpl. split; [|split; reflexivity].
  split; [exact Hq | exact Ht]. }
pose proof (turns_stop tk rest s H) as Hrest.
destruct H as ((Hq & Ht) & Hr).
split; [exact Hr|]. split; [exact Hq|]. split; [apply Ht | exact Hrest].
Qed.

End EndingTurns.

Lemma stop_ends_loop_witness :
  task_incoming_in Cases.tick_stop = Some [[]; list_byte_of_string "stop"] /\
  Cases.loads_stop (list_byte_of_string "stop") = Ok (PyStr "STOP") /\
  fst (turn_with Cases.loads_stop Cases.tick_stop loaded_state) = Ok Break /\
  task_queues (self (snd (turn_with Cases.loads_stop Cases.tick_stop loaded_state)))
    = task_queues (self loaded_state) /\
  queue "RAW" (self loaded_state) = [Demo.task_a; Demo.task_b].
Proof.
  split; [reflexivity|]. split; [reflexivity|].
  split; [vm_compute; reflexivity|].
  split; [|vm_compute; reflexivity].
  unfold turn_with.
  exact (proj1 (proj2 (stop_ends_loop Demo.dumps Cases.loads_stop
           SpecWorkerMap.ready_worker_count SpecWorkerMap.register_worker
           SpecWorkerMap.put_worker SpecWorkerMap.remove_worker
           SpecWorkerMap.spin_up_workers SpecWorkerMap.spin_down_workers
           SpecWorkerMap.get_next_worker_q SpecWorkerMap.get_worker_counts
           SpecWorkerMap.get_worker SpecWorkerMap.no_plan
           Cases.tick_stop [] [] (list_byte_of_string "stop") loaded_state "RAW"
           eq_refl eq_refl))).
Defined.

Lemma silence_ends_loop_witness :
  task_incoming_in Cases.tick_late = None /\
  (last_interchange_contact (loc loaded_state)
   + inject_Z (heartbeat_threshold (config (self loaded_state)))
   < now_silence_check Cases.tick_late)%Q /\
  fst (turn_with Demo.loads Cases.tick_late loaded_state) = Ok Break /\
  task_queues (self (snd (turn_with Demo.loads Cases.tick_late loaded_state)))
    = task_queues (self loaded_state).
Proof.
  assert (last_interchange_contact (loc loaded_state)
          + inject_Z (heartbeat_threshold (config (self loaded_state)))
          < now_silence_check Cases.tick_late)%Q as Hlate
    by (vm_compute; reflexivity).
  split; [reflexivity|]. split; [exact Hlate|].
  split; [vm_compute; reflexivity|].
  unfold turn_with.
  exact (proj1 (proj2 (silence_ends_loop Demo.dumps Demo.loads
           SpecWorkerMap.ready_worker_count SpecWorkerMap.register_worker
           SpecWorkerMap.put_worker SpecWorkerMap.remove_worker
           SpecWorkerMap.spin_up_workers SpecWorkerMap.spin_down_workers
           SpecWorkerMap.get_next_worker_q SpecWorkerMap.get_worker_counts
           SpecWorkerMap.get_worker SpecWorkerMap.no_plan
           Cases.tick_late [] loaded_state "RAW" eq_refl Hlate))).
Defined.

(** ** The removal of workers, again *)

(** X20. [remove_worker_init] is not all or nothing.  For a type with no
    drain counter it raises [KeyError] and changes nothing; for a type with
    a drain counter but no task queue it raises [KeyError] after the counter
    has been incremented: the count of workers to drain is then one more
    than the KILL sentinels queued. *)
Theorem remove_worker_init_partial (pickle_dumps : task_id_t -> bytes)
        (t : string) (m : Manager) :
  task_queues m !! t = None ->
  remove_worker_init pickle_dumps t m =
    (Raise KeyError,
     match to_die_count (worker_map m) !! t with
     | None => m
     | Some n =>
         set_worker_map
           (set_to_die_count (<[t := n + 1]> (to_die_count (worker_map m)))
              (worker_map m)) m
     end).
Proof.
  intros Hq. rewrite remove_worker_init_run, Hq.
  destruct (to_die_count (worker_map m) !! t); reflexivity.
Qed.

Lemma remove_worker_init_partial_witness :
  task_queues Demo.draining !! "fft"%string = None /\
  to_die_count (worker_map Demo.draining) !! "RAW"%string = Some 2 /\
  remove_worker_init Demo.dumps "fft" Demo.draining = (Raise KeyError, Demo.draining).
Proof.
  assert (task_queues Demo.draining !! "fft"%string = None) as H
    by (vm_compute; reflexivity).
  split; [exact H|]. split; [vm_compute; reflexivity|].
  rewrite (remove_worker_init_partial Demo.dumps "fft" Demo.draining H).
  reflexivity.
Defined.

Lemma requests_cons (t w : string) (ws : list string) :
  requests t (w :: ws)
    = ((if decide (w = t) then 1 else 0) + requests t ws)%nat.
Proof.
  unfold requests. rewrite filter_cons.
  destruct (decide (w = t)); reflexivity.
Qed.

(** X21. The types that [spin_down_workers] returns are served one call of
    [remove_worker_init] each: when each of them has a drain counter and a
    task queue, the calls all return, and for every type [t] the queue has
    at its tail as many KILL sentinels as [t] occurs in the list, behind the
    tasks that were queued, and [to_die_count[t]] has grown by that
    number. *)
Theorem drain_requests (pickle_dumps : task_id_t -> bytes)
        (spin_downs : list string) (m : Manager) (t : string) :
  Forall (fun w => is_Some (to_die_count (worker_map m) !! w) /\
                   is_Some (task_queues m !! w)) spin_downs ->
  fst (for_each spin_downs (remove_worker_init pickle_dumps) m) = Ok tt /\
  queue t (snd (for_each spin_downs (remove_worker_init pickle_dumps) m))
    = queue t m ++ replicate (requests t spin_downs) (kill_task pickle_dumps) /\
  default 0 (to_die_count (worker_map
               (snd (for_each spin_downs (remove_worker_init pickle_dumps) m))) !! t)
    = default 0 (to_die_count (worker_map m) !! t)
      + Z.of_nat (requests t spin_downs).
Proof.
  revert m. induction spin_downs as [|w ws IH]; intros m Hall.
  - unfold requests. simpl. rewrite app_nil_r. repeat split. lia.
  - inversion Hall as [|? ? [[n Hn] [q Hq]] Hrest]; subst.
    simpl. unfold bind. rewrite remove_worker_init_run, Hn, Hq.
    cbv beta iota zeta.
    match goal with |- context [for_each ws _ ?m1] => set (m' := m1) end.
    assert (Forall (fun w0 => is_Some (to_die_count (worker_map m') !! w0) /\
                              is_Some (task_queues m' !! w0)) ws) as Hall'.
    { eapply Forall_impl; [exact Hrest|]. intros w0 [H1 H2]. subst m'. simpl.
      split; apply lookup_insert_is_Some';
        (destruct (decide (w = w0)); [left; assumption | right; assumption]). }
    destruct (IH m' Hall') as (Hok & Hqueue & Hdie).
    split; [exact Hok|]. rewrite Hqueue, Hdie, requests_cons.
    subst m'. unfold queue. simpl.
    destruct (decide (w = t)) as [->|Hne].
    + rewrite !lookup_insert_eq, Hq, Hn. simpl.
      rewrite <- app_assoc. split; [reflexivity|lia].
    + rewrite !lookup_insert_ne by exact Hne. simpl. split; [reflexivity|lia].
Qed.

Lemma drain_requests_witness :
  Forall (fun w => is_Some (to_die_count (worker_map Demo.draining) !! w) /\
                   is_Some (task_queues Demo.draining !! w))
         ["RAW"%string; "RAW"%string] /\
  queue "RAW" (snd (for_each ["RAW"%string; "RAW"%string]
                      (remove_worker_init Demo.dumps) Demo.draining))
    = [kill_task Demo.dumps; kill_task Demo.dumps] /\
  to_die_count (worker_map (snd (for_each ["RAW"%string; "RAW"%string]
                      (remove_worker_init Demo.dumps) Demo.draining)))
    !! "RAW"%string = Some 4.
Proof.
  assert (Forall (fun w => is_Some (to_die_count (worker_map Demo.draining) !! w) /\
                           is_Some (task_queues Demo.draining !! w))
                 ["RAW"%string; "RAW"%string]) as H.
  { repeat constructor; eexists; vm_compute; reflexivity. }
  split; [exact H|].
  destruct (drain_requests Demo.dumps ["RAW"%string; "RAW"%string]
              Demo.draining "RAW" H) as (_ & Hq & _).
  split; [rewrite Hq; reflexivity|]. vm_compute. reflexivity.
Defined.

(** ** The task queues stay *)

Lemma untouched_keeps_queues {S A} (proj : S -> Manager) (c : M S A) :
  untouched proj c -> keeps_queues proj c.
Proof. intros H s t Ht. destruct (H s) as [Hq _]. rewrite Hq. exact Ht. Qed.

Lemma keeps_queues_bind {S A B} (proj : S -> Manager) (c : M S A) (k : A -> M S B) :
  keeps_queues proj c -> (forall a, keeps_queues proj (k a)) ->
  keeps_queues proj (bind c k).
Proof.
  intros Hc Hk s t Ht. specialize (Hc s t Ht). unfold bind.
  destruct (c s) as [[a|e] s']; simpl in *; [apply Hk, Hc | exact Hc].
Qed.

Lemma keeps_queues_on_self {A} (c : M Manager A) :
  keeps_queues (fun m => m) c -> keeps_queues self (on_self c).
Proof.
  intros H s t Ht. specialize (H (self s) t Ht). unfold on_self, zoom.
  destruct (c (self s)) as [r m]. exact H.
Qed.

Lemma keeps_queues_for_each {S A} (proj : S -> Manager) (xs : list A)
      (body : A -> M S unit) :
  (forall x, keeps_queues proj (body x)) -> keeps_queues proj (for_each xs body).
Proof.
  intros H. induction xs as [|x xs IH]; simpl.
  - apply untouched_keeps_queues, untouched_ret.
  - apply keeps_queues_bind; [apply H | intros _; exact IH].
Qed.

Lemma keeps_queues_repeat_n {S} (proj : S -> Manager) (n : nat) (body : M S unit) :
  keeps_queues proj body -> keeps_queues proj (repeat_n n body).
Proof.
  intros H. induction n as [|n IH]; simpl.
  - apply untouched_keeps_queues, untouched_ret.
  - apply keeps_queues_bind; [exact H | intros _; exact IH].
Qed.

Lemma is_Some_insert {V} (q : gmap string V) (k t : string) (v : V) :
  is_Some (q !! t) -> is_Some (<[k := v]> q !! t).
Proof.
  intros H. apply lookup_insert_is_Some'. right. exact H.
Qed.

Lemma keeps_queues_task_queue_put (t : string) (task : Task) :
  keeps_queues (fun m => m) (task_queue_put t task).
Proof.
  intros m t' Ht'. rewrite task_queue_put_run.
  destruct (task_queues m !! t); simpl; [apply is_Some_insert|]; exact Ht'.
Qed.

Lemma keeps_queues_route_task (task : Task) :
  keeps_queues (fun m => m) (route_task task).
Proof.
  intros m t' Ht'. rewrite route_task_run.
  destruct (task_type_of task) as [t|e]; simpl; [|exact Ht'].
  apply is_Some_insert. destruct (task_queues m !! t); exact Ht'.
Qed.

Lemma keeps_queues_match_task (get_worker : string -> M WorkerMap bytes)
      (t : string) :
  keeps_queues (fun m => m) (match_task get_worker t).
Proof.
  intros m t' Ht'. unfold match_task, bind, gets. simpl.
  destruct (task_queues m !! t) as [[|task rest]|]; simpl; try exact Ht'.
  destruct (subscript (worker_queues (worker_map m)) t) as [[|w ws]|e]; simpl;
    try exact Ht'.
  unfold on_worker_map, zoom, modify. simpl.
  destruct (get_worker t (worker_map m)) as [[wid|e] w']; simpl;
    apply is_Some_insert; exact Ht'.
Qed.

Section QueuesStay.

Variable pickle_dumps : task_id_t -> bytes.
Variable pickle_loads : bytes -> result pyobj.
Variable add_worker : string -> string -> M WorkerMap unit.
Variable ready_worker_count : M WorkerMap Z.
Variable register_worker : bytes -> string -> M WorkerMap unit.
Variable put_worker : bytes -> M WorkerMap unit.
Variable remove_worker : bytes -> M WorkerMap unit.
Variable spin_up_workers : list string -> M WorkerMap (Z * list string).
Variable spin_down_workers : gmap string Z -> M WorkerMap (list string).
Variable get_next_worker_q : gmap string Z -> M WorkerMap (list string).
Variable get_worker_counts : M WorkerMap (list (string * Z)).
Variable get_worker : string -> M WorkerMap bytes.
Variable naive_scheduler :
gmap string (list Task) -> Z -> option (gmap string Z) -> gmap string Z ->
result (option (gmap string Z)).

Lemma keeps_queues_route_tasks (o : pyobj) :
keeps_queues (fun m => m) (route_tasks o).
Proof.
destruct o as [s|n|ts|d]; simpl.
- destruct (decide (s = ""%string));
    apply untouched_keeps_queues; [apply untouched_ret | apply untouched_raise].
- apply untouched_keeps_queues, untouched_raise.
- apply keeps_queues_for_each, keeps_queues_route_task.
- destruct (decide (d = ∅));
    apply untouched_keeps_queues; [apply untouched_ret | apply untouched_raise].
Qed.

Lemma keeps_queues_handle_task_incoming (frames : list bytes) (now : Q) :
keeps_queues self (handle_task_incoming pickle_loads frames now).
Proof.
unfold handle_task_incoming.
apply keeps_queues_bind; [apply untouched_keeps_queues, untouched_upd_loc|intros _].
destruct frames as [|f1 [|pkl [|f3 fs]]];
  try (apply untouched_keeps_queues, untouched_raise).
apply keeps_queues_bind; [apply untouched_keeps_queues, untouched_lift|intros tasks].
apply keeps_queues_bind; [apply untouched_keeps_queues, untouched_upd_loc|intros _].
destruct (decide (tasks = PyStr "STOP")).
{ apply untouched_keeps_queues, untouched_bind;
    [apply untouched_on_self; intros m; split; reflexivity
    |intros _; apply untouched_ret]. }
destruct (decide (tasks = PyInt HEARTBEAT_CODE)).
{ apply untouched_keeps_queues, untouched_ret. }
apply keeps_queues_bind; [apply untouched_keeps_queues, untouched_lift|intros n'].
apply keeps_queues_bind; [apply untouched_keeps_queues, untouched_upd_loc|intros _].
apply keeps_queues_bind;
  [apply keeps_queues_on_self, keeps_queues_route_tasks|intros _].
apply untouched_keeps_queues, untouched_ret.
Qed.

Lemma keeps_queues_remove_worker_init (t : string) :
keeps_queues (fun m => m) (remove_worker_init pickle_dumps t).
Proof.
intros m t' Ht'. rewrite remove_worker_init_run.
destruct (to_die_count (worker_map m) !! t); [|exact Ht'].
cbv zeta. destruct (task_queues m !! t); simpl; [apply is_Some_insert|];
  exact Ht'.
Qed.

Lemma keeps_queues_schedule :
keeps_queues self
  (schedule pickle_dumps spin_down_workers get_next_worker_q naive_scheduler).
Proof.
unfold schedule.
apply keeps_queues_bind; [intros s t Ht; exact Ht|intros plan].
apply keeps_queues_bind; [apply untouched_keeps_queues, untouched_upd_loc|intros _].
destruct plan as [new_map|]; [|apply untouched_keeps_queues, untouched_ret].
apply keeps_queues_bind;
  [apply untouched_keeps_queues, untouched_on_self, untouched_on_worker_map|].
intros spin_downs.
apply keeps_queues_bind.
{ apply keeps_queues_for_each. intros w.
  apply keeps_queues_on_self, keeps_queues_remove_worker_init. }
intros _.
apply keeps_queues_bind;
  [apply untouched_keeps_queues, untouched_on_self, untouched_on_worker_map|].
intros q. apply untouched_keeps_queues, untouched_on_self.
intros m; split; reflexivity.
Qed.

Lemma keeps_queues_match_tasks :
keeps_queues (fun m => m) (match_tasks get_worker_counts get_worker).
Proof.
unfold match_tasks.
apply keeps_queues_bind; [apply untouched_keeps_queues, untouched_on_worker_map|].
intros counts. apply keeps_queues_for_each. intros entry.
destruct (decide (fst entry = "slots"%string)).
- apply untouched_keeps_queues, untouched_ret.
- apply keeps_queues_repeat_n, keeps_queues_match_task.
Qed.

Lemma keeps_queues_pull_tasks_body (tk : Tick) :
keeps_queues self
  (pull_tasks_body pickle_dumps pickle_loads ready_worker_count register_worker
     put_worker remove_worker spin_up_workers spin_down_workers
     get_next_worker_q get_worker_counts get_worker naive_scheduler tk).
Proof.
unfold pull_tasks_body, receive_and_dispatch.
apply keeps_queues_bind; [apply untouched_keeps_queues, untouched_gets|intros pending].
apply keeps_queues_bind;
  [apply untouched_keeps_queues, untouched_on_self, untouched_on_worker_map|].
intros ready.
apply keeps_queues_bind.
{ intros s t Ht. rewrite heartbeat_check_run. simpl.
  destruct (Qgtb _ _); exact Ht. }
intros _.
apply keeps_queues_bind.
{ intros s t Ht. unfold request_tasks, bind, gets, lift. simpl.
  destruct (_ && _); [|exact Ht].
  destruct (to_bytes_little 4 ready); exact Ht. }
intros _.
apply keeps_queues_bind.
{ apply untouched_keeps_queues. destruct (funcx_task_socket_in tk);
    [apply untouched_handle_worker_message | apply untouched_ret]. }
intros _.
apply keeps_queues_bind; [apply untouched_keeps_queues, untouched_spin_up|intros _].
apply keeps_queues_bind.
{ destruct (task_incoming_in tk);
    [apply keeps_queues_handle_task_incoming
    |apply untouched_keeps_queues, untouched_no_incoming_tasks]. }
intros [|]; [|apply untouched_keeps_queues, untouched_ret].
apply keeps_queues_bind; [apply keeps_queues_schedule|intros _].
apply keeps_queues_bind;
  [apply keeps_queues_on_self, keeps_queues_match_tasks|intros _].
apply untouched_keeps_queues, untouched_ret.
Qed.

Lemma keeps_queues_pull_tasks_loop (ticks : list Tick) :
keeps_queues self
  (pull_tasks_loop pickle_dumps pickle_loads ready_worker_count register_worker
     put_worker remove_worker spin_up_workers spin_down_workers
     get_next_worker_q get_worker_counts get_worker naive_scheduler ticks).
Proof.
induction ticks as [|tk ticks IH]; simpl.
- apply untouched_keeps_queues, untouched_ret.
- apply keeps_queues_bind; [apply untouched_keeps_queues, untouched_gets|].
  intros [|]; [apply untouched_keeps_queues, untouched_ret|].
  apply keeps_queues_bind; [apply keeps_queues_pull_tasks_body|].
  intros [|]; [exact IH | apply untouched_keeps_queues, untouched_ret].
Qed.

Lemma keeps_queues_pull_tasks (reg_msg : bytes) (t0 t1 : Q) (ticks : list Tick) :
keeps_queues (fun m => m)
  (pull_tasks pickle_dumps pickle_loads ready_worker_count register_worker
     put_worker remove_worker spin_up_workers spin_down_workers
     get_next_worker_q get_worker_counts get_worker naive_scheduler
     reg_msg t0 t1 ticks).
Proof.
intros m t Ht.
unfold pull_tasks, bind, task_incoming_send, record_event, modify. simpl.
match goal with |- context [pull_tasks_loop _ _ _ _ _ _ _ _ _ _ _ _ ticks ?s0] =>
  pose proof (keeps_queues_pull_tasks_loop ticks s0 t Ht) as H;
  destruct (pull_tasks_loop pickle_dumps pickle_loads ready_worker_count
              register_worker put_worker remove_worker spin_up_workers
              spin_down_workers get_next_worker_q get_worker_counts
              get_worker naive_scheduler ticks s0) as [r s']
end.
exact H.
Qed.

(** X22. No task queue is ever removed: a type that has a queue when
  [pull_tasks] begins has one when it ends, however it ends.  [start]
  begins with the queue of [RAW], so that after [start] the Manager has a
  queue for [RAW] in every case. *)
Theorem raw_queue_stays (reg_msg : bytes) (t0 t1 : Q) (ticks : list Tick)
      (m : Manager) :
is_Some (task_queues
           (snd (start pickle_dumps pickle_loads add_worker ready_worker_count
                   register_worker put_worker remove_worker spin_up_workers
                   spin_down_workers get_next_worker_q get_worker_counts
                   get_worker naive_scheduler reg_msg t0 t1 ticks m))
         !! "RAW"%string).
Proof.
unfold start, bind at 1, modify at 1. unfold bind at 1, gets at 1.
unfold bind at 1, on_worker_map at 1, zoom at 1. simpl.
assert (is_Some (({[ "RAW"%string := [] ]} : gmap string (list Task))
                 !! "RAW"%string)) as Hraw
  by (rewrite lookup_singleton_eq; eauto).
destruct (add_worker _ _ _) as [[u|e] w1]; simpl; [|exact Hraw].
unfold bind at 1, on_worker_map at 1, zoom at 1, modify at 1. simpl.
unfold bind at 1, on_worker_map at 1, zoom at 1, modify at 1. simpl.
unfold bind at 1, modify at 1. simpl.
apply keeps_queues_pull_tasks. exact Hraw.
Qed.

End QueuesStay.
